(** * Intelli-Code-Analysis: [examples/python-issues.py]

    A shallow embedding of the Python example module and the proofs of
    its specified properties.

    Python numbers are modelled as they are at run time: [int] is an
    unbounded integer ([Z]), [float] is an IEEE-754 binary64 value
    ([spec_float] at precision 53, maximal exponent 1024, rounding to
    nearest even), [bool] is a subclass of [int].  Lists, dicts and class
    instances live in a store and are handled through references, so that
    "does not mutate its arguments" is a statement about the store.
    Console output is the list of the lines printed so far.

    The values are [None], [bool], [int], [float], [str], [list], [dict],
    [collections.defaultdict] and instances of classes that define no
    special methods; what is proved is proved of arguments built from
    these. *)

From Stdlib Require Import ZArith Bool List String Ascii Lia.
From Stdlib Require Import Floats.SpecFloat.
From stdpp Require Import base option list gmap strings.

Local Open Scope Z_scope.

(** ** Binary64 arithmetic *)

Module F64.

Definition prec : Z := 53.
Definition emax : Z := 1024.

Definition mul : spec_float -> spec_float -> spec_float := SFmul prec emax.
Definition add : spec_float -> spec_float -> spec_float := SFadd prec emax.
Definition div : spec_float -> spec_float -> spec_float := SFdiv prec emax.
Definition valid : spec_float -> bool := valid_binary prec emax.

(** An integer as an exact, not yet rounded, binary number. *)
Definition exact (n : Z) : spec_float :=
  match n with
  | Z0 => S754_zero false
  | Zpos p => S754_finite false p 0
  | Zneg p => S754_finite true p 0
  end.

(** [float(n)]: the nearest binary64 value, ties to even; an infinite
    result is the overflow that Python reports as an exception. *)
Definition of_Z (n : Z) : spec_float := binary_normalize prec emax n 0 false.

(** The correctly rounded quotient of two integers ([int / int]). *)
Definition div_Z (a b : Z) : spec_float := div (exact a) (exact b).

(** A decimal literal [m * 10^-k] denotes the nearest binary64 value. *)
Definition literal (m : Z) (k : nat) : spec_float := div_Z m (10 ^ Z.of_nat k).

Definition is_zero (f : spec_float) : bool :=
  match f with S754_zero _ => true | _ => false end.

Definition is_inf (f : spec_float) : bool :=
  match f with S754_infinity _ => true | _ => false end.

(** Exact comparison of an integer with a binary64 value. *)
Definition compare_Z (n : Z) (f : spec_float) : option comparison :=
  match f with
  | S754_nan => None
  | S754_infinity s => Some (if s then Gt else Lt)
  | S754_zero _ => Some (n ?= 0)
  | S754_finite s m e =>
      let v := if s then Zneg m else Zpos m in
      Some (if 0 <=? e then n ?= v * 2 ^ e else n * 2 ^ (- e) ?= v)
  end.

Definition compare : spec_float -> spec_float -> option comparison := SFcompare.

End F64.

(** ** Python values, the store and the console *)

Definition loc := positive.

(** Immutable values are carried directly; lists, dicts and instances are
    references into the store. *)
Inductive value :=
  | VNone
  | VBool (b : bool)
  | VInt (n : Z)
  | VFloat (f : spec_float)
  | VStr (s : string)
  | VRef (l : loc).

(** A dict keeps its entries in insertion order, which is the order in
    which iterating over it yields the keys.  [ODefaultDict d kvs] is a
    [collections.defaultdict] whose factory returns the value [d]
    ([defaultdict(int)] has [d = 0], [defaultdict(str)] has [d = '']):
    reading a key it does not hold stores [d] under that key. *)
Inductive obj :=
  | OList (xs : list value)
  | ODict (kvs : list (value * value))
  | OInstance (cls : string) (attrs : list (string * value))
  | ODefaultDict (default : value) (kvs : list (value * value)).

Record world := World { heap : gmap loc obj; stdout : list string }.

Inductive exn :=
  | TypeError
  | KeyError
  | OverflowError
  | ZeroDivisionError
  | AttributeError
  | MemoryError
  | SystemError.

Inductive result (A : Type) :=
  | Returned (a : A)
  | Raised (e : exn).
Arguments Returned {A} a.
Arguments Raised {A} e.

(** A Python computation: it runs in a world and either returns or
    raises, with the world it leaves behind. *)
Definition M (A : Type) : Type := world -> result A * world.

Definition run {A} (c : M A) (w : world) : result A * world := c w.

#[global] Instance M_ret : MRet M := fun A a w => (Returned a, w).
#[global] Instance M_bind : MBind M := fun A B k c w =>
  match c w with
  | (Returned a, w') => k a w'
  | (Raised e, w') => (Raised e, w')
  end.

Definition raise {A} (e : exn) : M A := fun w => (Raised e, w).

Definition lift {A} (r : result A) : M A := fun w => (r, w).

(** [print(s)] writes one line to the console. *)
Definition print (s : string) : M unit :=
  fun w => (Returned tt, World (heap w) (stdout w ++ [s])).

(** A reference that is not in the store cannot arise in Python; the
    model reports it as an interpreter error. *)
Definition deref (l : loc) : M obj :=
  fun w => match heap w !! l with
           | Some o => (Returned o, w)
           | None => (Raised SystemError, w)
           end.

Definition alloc (o : obj) : M value :=
  fun w => let l := fresh (dom (heap w)) in
           (Returned (VRef l), World (<[l := o]> (heap w)) (stdout w)).

Definition store (l : loc) (o : obj) : M unit :=
  fun w => (Returned tt, World (<[l := o]> (heap w)) (stdout w)).

(** ** Numbers *)

Inductive num :=
  | NInt (n : Z)
  | NFloat (f : spec_float).

(** [bool] is a subclass of [int]: [True] is 1 and [False] is 0. *)
Definition as_num (v : value) : option num :=
  match v with
  | VBool b => Some (NInt (Z.b2z b))
  | VInt n => Some (NInt n)
  | VFloat f => Some (NFloat f)
  | _ => None
  end.

(** An operand that can serve as a repetition count. *)
Definition as_index (v : value) : option Z :=
  match v with
  | VBool b => Some (Z.b2z b)
  | VInt n => Some n
  | _ => None
  end.

(** Conversion of an operand to [float] in mixed arithmetic: an [int] out
    of the binary64 range raises [OverflowError]. *)
Definition to_float (x : num) : result spec_float :=
  match x with
  | NFloat f => Returned f
  | NInt n =>
      let f := F64.of_Z n in
      if F64.is_inf f then Raised OverflowError else Returned f
  end.

Definition float_binop (op : spec_float -> spec_float -> spec_float)
    (x y : num) : result value :=
  match to_float x with
  | Raised e => Raised e
  | Returned f =>
      match to_float y with
      | Raised e => Raised e
      | Returned g => Returned (VFloat (op f g))
      end
  end.

Definition num_add (x y : num) : result value :=
  match x, y with
  | NInt a, NInt b => Returned (VInt (a + b))
  | _, _ => float_binop F64.add x y
  end.

Definition num_mul (x y : num) : result value :=
  match x, y with
  | NInt a, NInt b => Returned (VInt (a * b))
  | _, _ => float_binop F64.mul x y
  end.

(** True division: [int / int] is the correctly rounded quotient and
    raises [OverflowError] when it is out of range; a zero divisor raises
    [ZeroDivisionError]. *)
Definition num_truediv (x y : num) : result value :=
  match x, y with
  | NInt a, NInt b =>
      if b =? 0 then Raised ZeroDivisionError
      else
        let f := F64.div_Z a b in
        if F64.is_inf f then Raised OverflowError else Returned (VFloat f)
  | _, _ =>
      match to_float x with
      | Raised e => Raised e
      | Returned f =>
          match to_float y with
          | Raised e => Raised e
          | Returned g =>
              if F64.is_zero g then Raised ZeroDivisionError
              else Returned (VFloat (F64.div f g))
          end
      end
  end.

(** Numbers of both kinds compare by their exact values; a NaN is
    unordered. *)
Definition num_compare (x y : num) : option comparison :=
  match x, y with
  | NInt a, NInt b => Some (a ?= b)
  | NInt a, NFloat g => F64.compare_Z a g
  | NFloat f, NInt b => CompOpp <$> F64.compare_Z b f
  | NFloat f, NFloat g => F64.compare f g
  end.

Definition num_gt (x y : num) : bool :=
  match num_compare x y with Some Gt => true | _ => false end.

Definition num_le (x y : num) : bool :=
  match num_compare x y with Some (Lt | Eq) => true | _ => false end.

(** ** Operators on values *)

Definition str_repeat (s : string) (n : Z) : string :=
  String.concat EmptyString (replicate (Z.to_nat n) s).

Definition list_repeat (xs : list value) (n : Z) : list value :=
  concat (replicate (Z.to_nat n) xs).

(** The largest length of a sequence, which is also the largest
    repetition count ([sys.maxsize] of a 64-bit build). *)
Definition ssize_max : Z := 2 ^ 63 - 1.

Definition fits_index (n : Z) : bool :=
  (- ssize_max - 1 <=? n) && (n <=? ssize_max).

(** [s * n]: a count that is no index raises [OverflowError]; a count
    below 1 gives the empty string; a result longer than a string can
    be raises [OverflowError] too.  (Below that length the result is
    built: running out of memory is not modelled.) *)
Definition str_mul (s : string) (n : Z) : M value :=
  if negb (fits_index n) then raise OverflowError
  else if (n <=? 0) || (String.length s =? 0)%nat then mret (VStr EmptyString)
  else if ssize_max / n <? Z.of_nat (String.length s) then raise OverflowError
  else mret (VStr (str_repeat s n)).

Definition str_chars (s : string) : list value :=
  (fun c => VStr (String c EmptyString)) <$> list_ascii_of_string s.

Definition deref_list (l : loc) : M (list value) :=
  o ← deref l;
  match o with
  | OList xs => mret xs
  | _ => raise TypeError
  end.

(** [xs * n] is a new list; a count that is no index raises
    [OverflowError], a result longer than a list can be raises
    [MemoryError]. *)
Definition list_mul (xs : list value) (n : Z) : M value :=
  if negb (fits_index n) then raise OverflowError
  else if (n <=? 0) || (length xs =? 0)%nat then alloc (OList [])
  else if ssize_max / n <? Z.of_nat (length xs) then raise MemoryError
  else alloc (OList (list_repeat xs n)).

(** [a + b]: numbers add, strings and lists concatenate (a new list is a
    new object). *)
Definition py_add (a b : value) : M value :=
  match as_num a, as_num b with
  | Some x, Some y => lift (num_add x y)
  | _, _ =>
      match a, b with
      | VStr s, VStr t => mret (VStr (s ++ t))
      | VRef l1, VRef l2 =>
          xs ← deref_list l1;
          ys ← deref_list l2;
          alloc (OList (xs ++ ys))
      | _, _ => raise TypeError
      end
  end.

(** [a * b]: numbers multiply; a string or a list is repeated by an
    [int] on either side. *)
Definition py_mul (a b : value) : M value :=
  match as_num a, as_num b with
  | Some x, Some y => lift (num_mul x y)
  | _, _ =>
      match a, as_index b, as_index a, b with
      | VStr s, Some n, _, _ => str_mul s n
      | _, _, Some n, VStr s => str_mul s n
      | VRef l, Some n, _, _ => xs ← deref_list l; list_mul xs n
      | _, _, Some n, VRef l => xs ← deref_list l; list_mul xs n
      | _, _, _, _ => raise TypeError
      end
  end.

(** [a / b] is defined on numbers only. *)
Definition py_truediv (a b : value) : M value :=
  match as_num a, as_num b with
  | Some x, Some y => lift (num_truediv x y)
  | _, _ => raise TypeError
  end.

(** [a > k] for an [int] literal [k]: only numbers order against an
    [int]. *)
Definition py_gt_int (a : value) (k : Z) : M bool :=
  match as_num a with
  | Some x => mret (num_gt x (NInt k))
  | None => raise TypeError
  end.

(** [iter(v)]: the elements of a list, the keys of a dict, the
    characters of a string. *)
Definition py_iter (v : value) : M (list value) :=
  match v with
  | VStr s => mret (str_chars s)
  | VRef l =>
      o ← deref l;
      match o with
      | OList xs => mret xs
      | ODict kvs | ODefaultDict _ kvs => mret (fst <$> kvs)
      | OInstance _ _ => raise TypeError
      end
  | _ => raise TypeError
  end.

(** [a += b]: a list is extended in place by the elements of [b] and
    stays the same object; anything else is [a + b]. *)
Definition py_iadd (a b : value) : M value :=
  match a with
  | VRef l =>
      o ← deref l;
      match o with
      | OList xs => ys ← py_iter b; store l (OList (xs ++ ys));; mret a
      | _ => py_add a b
      end
  | _ => py_add a b
  end.

Definition is_str_key (key : string) (kv : value * value) : bool :=
  match kv.1 with
  | VStr s => bool_decide (s = key)
  | _ => false
  end.

Definition dict_get (kvs : list (value * value)) (key : string) : option value :=
  snd <$> List.find (is_str_key key) kvs.

(** [v[key]] for a string literal [key]: a dict is looked up, and a
    missing key raises [KeyError]; a defaultdict is looked up, and a
    missing key is inserted with the default, which is the value read;
    a list or a string takes integer indices only, nothing else is
    subscriptable. *)
Definition py_getitem (v : value) (key : string) : M value :=
  match v with
  | VRef l =>
      o ← deref l;
      match o with
      | ODict kvs =>
          match dict_get kvs key with
          | Some x => mret x
          | None => raise KeyError
          end
      | ODefaultDict d kvs =>
          match dict_get kvs key with
          | Some x => mret x
          | None => store l (ODefaultDict d (kvs ++ [(VStr key, d)]));; mret d
          end
      | _ => raise TypeError
      end
  | _ => raise TypeError
  end.

(** Truth value of a condition. *)
Definition py_truthy (v : value) : M bool :=
  match v with
  | VNone => mret false
  | VBool b => mret b
  | VInt n => mret (negb (n =? 0))
  | VFloat f => mret (negb (F64.is_zero f))
  | VStr s => mret (negb (bool_decide (s = EmptyString)))
  | VRef l =>
      o ← deref l;
      match o with
      | OList xs => mret (negb (bool_decide (xs = [])))
      | ODict kvs | ODefaultDict _ kvs => mret (negb (bool_decide (kvs = [])))
      | OInstance _ _ => mret true
      end
  end.

(** [for x in xs: body] with the local variables the body assigns to
    threaded through as [s]. *)
Fixpoint for_in {S : Type} (xs : list value) (body : value -> S -> M S)
    (s : S) : M S :=
  match xs with
  | [] => mret s
  | x :: xs' => s' ← body x s; for_in xs' body s'
  end.

Definition for_each (xs : list value) (body : value -> M unit) : M unit :=
  for_in xs (fun x _ => body x) tt.

Definition when (b : bool) (c : M unit) : M unit :=
  if b then c else mret tt.

(** ** The module [python-issues.py] *)

(** The float literals of the source. *)
Definition lit_0_15 : spec_float := F64.literal 15 2.
Definition lit_0_10 : spec_float := F64.literal 10 2.
Definition lit_0_05 : spec_float := F64.literal 5 2.

Definition calculate_discount (price : value) : M value :=
  c ← py_gt_int price 100;
  if c : bool then py_mul price (VFloat lit_0_15)
  else
    c' ← py_gt_int price 50;
    if c' : bool then py_mul price (VFloat lit_0_10)
    else py_mul price (VFloat lit_0_05).

Definition process_order
    (order_id customer_name email phone address city state zip_code
     items payment_method shipping_method : value) : M value :=
  print "Processing order...";;
  ( c1 ← py_truthy order_id;
  when c1 (
    c2 ← py_truthy customer_name;
    when c2 (
      c3 ← py_truthy email;
      when c3 (
        c4 ← py_truthy phone;
        when c4 (
          c5 ← py_truthy address;
          when c5 (
            xs ← py_iter items;
            for_each xs (fun item =>
              vars ← py_getitem item "variations";
              vs ← py_iter vars;
              for_each vs (fun variation =>
                p ← py_getitem variation "price";
                c ← py_gt_int p 100;
                when c (print "Expensive item")))))))) );;
  mret (VBool true).

Definition calculate_total_a (items : value) : M value :=
  let total := VInt 0 in
  xs ← py_iter items;
  total ← for_in xs (fun item total =>
             p ← py_getitem item "price";
             q ← py_getitem item "quantity";
             pq ← py_mul p q;
             py_iadd total pq) total;
  mret total.

Definition calculate_total_b (items : value) : M value :=
  let total := VInt 0 in
  xs ← py_iter items;
  total ← for_in xs (fun item total =>
             p ← py_getitem item "price";
             q ← py_getitem item "quantity";
             pq ← py_mul p q;
             py_iadd total pq) total;
  mret total.

Definition do_work (x y z : value) : M value :=
  temp ← py_add x y;
  data ← py_mul temp z;
  val ← py_truediv data (VInt 2);
  mret val.

(** The class [OrderManager]: every method body is [pass], so a call
    falls off the end of the body and returns [None]. *)
Module OrderManager.

Definition create_order (self : value) : M value := mret VNone.
Definition update_order (self : value) : M value := mret VNone.
Definition delete_order (self : value) : M value := mret VNone.
Definition validate_order (self : value) : M value := mret VNone.
Definition calculate_total (self : value) : M value := mret VNone.
Definition apply_discount (self : value) : M value := mret VNone.
Definition process_payment (self : value) : M value := mret VNone.
Definition send_email (self : value) : M value := mret VNone.
Definition send_sms (self : value) : M value := mret VNone.
Definition log_activity (self : value) : M value := mret VNone.
Definition generate_invoice (self : value) : M value := mret VNone.
Definition print_receipt (self : value) : M value := mret VNone.
Definition update_inventory (self : value) : M value := mret VNone.
Definition check_stock (self : value) : M value := mret VNone.
Definition calculate_shipping (self : value) : M value := mret VNone.
Definition track_shipment (self : value) : M value := mret VNone.
Definition handle_returns (self : value) : M value := mret VNone.
Definition process_refund (self : value) : M value := mret VNone.
Definition generate_report (self : value) : M value := mret VNone.
Definition export_data (self : value) : M value := mret VNone.
Definition import_data (self : value) : M value := mret VNone.

(** The class namespace, in definition order. *)
Definition methods : list (string * (value -> M value)) :=
  [ ("create_order", create_order); ("update_order", update_order);
    ("delete_order", delete_order); ("validate_order", validate_order);
    ("calculate_total", calculate_total); ("apply_discount", apply_discount);
    ("process_payment", process_payment); ("send_email", send_email);
    ("send_sms", send_sms); ("log_activity", log_activity);
    ("generate_invoice", generate_invoice); ("print_receipt", print_receipt);
    ("update_inventory", update_inventory); ("check_stock", check_stock);
    ("calculate_shipping", calculate_shipping);
    ("track_shipment", track_shipment); ("handle_returns", handle_returns);
    ("process_refund", process_refund); ("generate_report", generate_report);
    ("export_data", export_data); ("import_data", import_data) ]%string.

End OrderManager.

(** Looking a method up by name in the class body.  A name the class
    body does not define is resolved on [object], which is not part of
    the module: there is no method of the file for it. *)
Definition getattr (name : string) : option (value -> M value) :=
  snd <$> List.find (fun m => bool_decide (m.1 = name)) OrderManager.methods.

(** Every way of calling a function of the file. *)
Inductive call :=
  | Call_calculate_discount (price : value)
  | Call_process_order
      (order_id customer_name email phone address city state zip_code
       items payment_method shipping_method : value)
  | Call_calculate_total_a (items : value)
  | Call_calculate_total_b (items : value)
  | Call_do_work (x y z : value)
  | Call_method (name : string) (self : value).

(** The computation a call stands for; [None] when the name is no
    method of the class body. *)
Definition invoke (c : call) : option (M value) :=
  match c with
  | Call_calculate_discount price => Some (calculate_discount price)
  | Call_process_order a1 a2 a3 a4 a5 a6 a7 a8 a9 a10 a11 =>
      Some (process_order a1 a2 a3 a4 a5 a6 a7 a8 a9 a10 a11)
  | Call_calculate_total_a items => Some (calculate_total_a items)
  | Call_calculate_total_b items => Some (calculate_total_b items)
  | Call_do_work x y z => Some (do_work x y z)
  | Call_method name self => (fun body => body self) <$> getattr name
  end.
(** ** Properties of computations *)

(** An object whose reading has no effect: anything but a defaultdict.
    A plain store holds such objects only. *)
Definition plain_obj (o : obj) : bool :=
  match o with
  | ODefaultDict _ _ => false
  | _ => true
  end.

Definition plain (h : gmap loc obj) : Prop :=
  map_Forall (fun _ o => plain_obj o = true) h.

(** [frame P c]: from a store [h], [c] gives a result and a list of
    printed lines that depend on [h] alone (not on what the console
    already shows), every object of [h] is still there unchanged, the
    objects created are plain, and a returned value satisfies [P]. *)
Definition frame {A} (P : A -> Prop) (c : M A) : Prop :=
  forall h, exists r h' out,
    h ⊆ h' /\
    (plain h -> plain h') /\
    (forall a, r = Returned a -> P a) /\
    forall printed, run c (World h printed) = (r, World h' (printed ++ out)).

(** [frame_plain P c]: the same, on plain stores only. *)
Definition frame_plain {A} (P : A -> Prop) (c : M A) : Prop :=
  forall h, plain h -> exists r h' out,
    h ⊆ h' /\
    plain h' /\
    (forall a, r = Returned a -> P a) /\
    forall printed, run c (World h printed) = (r, World h' (printed ++ out)).

(** [reads_only line c]: [c] prints nothing but copies of [line], and on
    a plain store it leaves the store as it is. *)
Definition reads_only {A} (line : string) (c : M A) : Prop :=
  forall w, exists r n h',
    run c w = (r, World h' (stdout w ++ replicate n line)) /\
    (plain (heap w) -> h' = heap w).

Definition is_number (v : value) : Prop := is_Some (as_num v).

(** ** The sum of the products, in the words of the specification *)

(** [sum_left start terms]: the terms are evaluated and added to the
    running sum one after the other, from the left. *)
Fixpoint sum_left (start : value) (terms : list (M value)) : M value :=
  match terms with
  | [] => mret start
  | t :: ts => v ← t; acc ← py_add start v; sum_left acc ts
  end.

Definition sum_of_products (pqs : list (value * value)) : M value :=
  sum_left (VInt 0) ((fun pq => py_mul pq.1 pq.2) <$> pqs).

(** The exact sum of products of integers. *)
Definition Zsum_of_products (pqs : list (Z * Z)) : Z :=
  foldr (fun pq acc => pq.1 * pq.2 + acc) 0 pqs.

(** [items_hold w items pqs]: [items] is a list whose elements are dicts
    with the keys ['price'] and ['quantity'], holding the pairs [pqs] in
    order. *)
Definition is_item (w : world) (item : value) (pq : value * value) : Prop :=
  exists l kvs, item = VRef l /\ heap w !! l = Some (ODict kvs) /\
    dict_get kvs "price" = Some pq.1 /\ dict_get kvs "quantity" = Some pq.2.

Definition items_hold (w : world) (items : value)
    (pqs : list (value * value)) : Prop :=
  exists l xs, items = VRef l /\ heap w !! l = Some (OList xs) /\
    Forall2 (is_item w) xs pqs.

Definition int_pair (z : Z * Z) : value * value := (VInt z.1, VInt z.2).

(** ** Binary64 rounding, arithmetically

    Every binary64 value is a multiple of [2^-1074]; a product of one
    with a literal of the module is a multiple of [2^-1131].  A
    non-negative exact quantity is handled as the integer [X] it is a
    multiple of [2^-scale] by. *)

Definition scale : Z := 1131.

(** Nearest integer to [M / 2^n], ties to even. *)
Definition rne (M n : Z) : Z :=
  let q := M / 2 ^ n in
  match 2 * (M mod 2 ^ n) ?= 2 ^ n with
  | Lt => q
  | Eq => if Z.even q then q else q + 1
  | Gt => q + 1
  end.

(** Where a remainder [r] of a division by [2^n] lies in its interval. *)
Definition loc_of (r n : Z) : location :=
  if r =? 0 then loc_Exact else loc_Inexact (2 * r ?= 2 ^ n).

(** What [n] right shifts of the mantissa [M] must have produced. *)
Definition shr_inv (M n : Z) (mrs : shr_record) : Prop :=
  shr_m mrs = M / 2 ^ n /\ loc_of_shr_record mrs = loc_of (M mod 2 ^ n) n.

(** The float with mantissa [k] at exponent [c], [k = 2^53] carrying
    into the next binade and an exponent above 971 overflowing. *)
Definition decode (c k : Z) : spec_float :=
  match k with
  | Z0 => S754_zero false
  | Zpos m =>
      if k =? 2 ^ 53 then
        if c + 1 <=? 971 then S754_finite false (2 ^ 52)%positive (c + 1)
        else S754_infinity false
      else
        if c <=? 971 then S754_finite false m c else S754_infinity false
  | Zneg _ => S754_nan
  end.

(** The position of a non-negative float in the increasing enumeration
    of the binary64 values (its bit pattern read as an integer). *)
Definition ord_inf : Z := 2047 * 2 ^ 52.

Definition ord (f : spec_float) : Z :=
  match f with
  | S754_zero _ => 0
  | S754_finite _ m e => (e + 1074) * 2 ^ 52 + Zpos m
  | _ => ord_inf
  end.

(** A non-negative binary64 value or [+inf]. *)
Definition good (f : spec_float) : Prop :=
  match f with
  | S754_zero _ => True
  | S754_infinity s => s = false
  | S754_nan => False
  | S754_finite s m e =>
      s = false /\ -1074 <= e <= 971 /\ Zpos m < 2 ^ 53 /\
      (e = -1074 \/ 2 ^ 52 <= Zpos m)
  end.

(** Canonical exponent of the quantity [X * 2^-scale]. *)
Definition cexp (X : Z) : Z := Z.max (Z.log2 X + 1 - scale - 53) (-1074).

(** Position of the binary64 value that [X * 2^-scale] rounds to. *)
Definition ordr (X : Z) : Z :=
  if X =? 0 then 0
  else Z.min ((cexp X + 1074) * 2 ^ 52 + rne X (cexp X + scale)) ord_inf.

(** A finite non-negative float as a multiple of [2^-1074]. *)
Definition sval (f : spec_float) : Z :=
  match f with
  | S754_finite _ m e => Zpos m * 2 ^ (e + 1074)
  | _ => 0
  end.

(** A float that is a number (not [+inf], not a NaN) and not negative. *)
Definition finite_good (f : spec_float) : Prop :=
  good f /\ F64.is_inf f = false.

(** A number as a multiple of [2^-1074]. *)
Definition nval (x : num) : Z :=
  match x with
  | NInt n => n * 2 ^ 1074
  | NFloat f => sval f
  end.

(** A non-negative number other than [+inf]. *)
Definition fin_nonneg (x : num) : Prop :=
  match x with
  | NInt n => 0 <= n
  | NFloat f => finite_good f
  end.

(** The numbers the discount is specified on: binary64 floats, and the
    integers that [float()] converts without overflow. *)
Definition in_float_range (x : num) : Prop :=
  match x with
  | NInt n => Z.abs n < 2 ^ 1024 - 2 ^ 970
  | NFloat f => F64.valid f = true
  end.

(** A literal [m * 2^e] of the module as a multiple of [2^-57]. *)
Definition lit_scaled (c : spec_float) : Z :=
  match c with
  | S754_finite _ m e => Zpos m * 2 ^ (e + 57)
  | _ => 0
  end.

(** The rate [calculate_discount] applies to a number. *)
Definition discount_rate (x : num) : spec_float :=
  if num_gt x (NInt 100) then lit_0_15
  else if num_gt x (NInt 50) then lit_0_10
  else lit_0_05.

(** ** Completion *)

Definition completes {A} (c : M A) (w : world) : Prop :=
  exists a w', run c w = (Returned a, w').


Definition is_float (v : value) : Prop := exists f, v = VFloat f.

Definition number_pair (pq : value * value) : Prop :=
  is_number pq.1 /\ is_number pq.2.


(** A value that is not a reference out of the store. *)
Definition bound (h : gmap loc obj) (v : value) : Prop :=
  match v with
  | VRef l => is_Some (h !! l)
  | _ => True
  end.

(** The items [process_order] expects: a list of dicts whose
    ['variations'] is a list of dicts with a numeric ['price']. *)
Definition is_variation (h : gmap loc obj) (v : value) : Prop :=
  exists l kvs p, v = VRef l /\ h !! l = Some (ODict kvs) /\
    dict_get kvs "price" = Some p /\ is_number p.

Definition is_order_item (h : gmap loc obj) (item : value) : Prop :=
  exists l kvs lv vs, item = VRef l /\ h !! l = Some (ODict kvs) /\
    dict_get kvs "variations" = Some (VRef lv) /\
    h !! lv = Some (OList vs) /\ Forall (is_variation h) vs.



(** A result that is a number, or the overflow of a conversion. *)
Definition number_or_overflow (r : result value) : Prop :=
  match r with
  | Returned v => is_number v
  | Raised e => e = OverflowError
  end.

(** ** Further notions *)

(** A float that is not positive: a zero, a negative value or [-inf]. *)
Definition nonpos (f : spec_float) : Prop :=
  match f with
  | S754_zero _ => True
  | S754_infinity s => s = true
  | S754_nan => False
  | S754_finite s _ _ => s = true
  end.

(** The truth value a condition takes on the store [h] (the console
    plays no part in it). *)
Definition truthy_on (h : gmap loc obj) (v : value) : result bool :=
  (run (py_truthy v) (World h [])).1.

(** The outcome of testing conditions one inside the other: the first
    one that is false, or raises, decides. *)
Fixpoint conds_hold (h : gmap loc obj) (vs : list value) : result bool :=
  match vs with
  | [] => Returned true
  | v :: vs' =>
      match truthy_on h v with
      | Returned true => conds_hold h vs'
      | r => r
      end
  end.

(** Reading an order off the store: the variations of an item, and
    whether a variation is expensive. *)
Definition variations_of (h : gmap loc obj) (item : value) : list value :=
  match item with
  | VRef l =>
      match h !! l with
      | Some (ODict kvs) =>
          match dict_get kvs "variations" with
          | Some (VRef lv) =>
              match h !! lv with
              | Some (OList vs) => vs
              | _ => []
              end
          | _ => []
          end
      | _ => []
      end
  | _ => []
  end.

Definition is_expensive (h : gmap loc obj) (variation : value) : bool :=
  match variation with
  | VRef l =>
      match h !! l with
      | Some (ODict kvs) =>
          match dict_get kvs "price" with
          | Some p =>
              match as_num p with
              | Some x => num_gt x (NInt 100)
              | None => false
              end
          | None => false
          end
      | _ => false
      end
  | _ => false
  end.

(** The number of variations, over all the items, whose price is above
    100. *)
Definition expensive_count (h : gmap loc obj) (items : list value) : nat :=
  sum_list ((fun item => length (filter (fun v => is_expensive h v = true)
                                   (variations_of h item))) <$> items).

(** The two loops of [process_order], as they stand in its body. *)
Definition order_loops (items : value) : M unit :=
  xs ← py_iter items;
  for_each xs (fun item =>
    vars ← py_getitem item "variations";
    vs ← py_iter vars;
    for_each vs (fun variation =>
      p ← py_getitem variation "price";
      c ← py_gt_int p 100;
      when c (print "Expensive item"))).

(** A small store: an order item with three variations, of prices 101,
    99.5 and [10^400], a dict that is not an order item, and items with
    prices and quantities in lists of several shapes. *)
Definition sample_store : gmap loc obj :=
  list_to_map
    [ (1%positive, OList [VRef 2%positive]);
      (2%positive, ODict [(VStr "variations", VRef 3%positive)]);
      (3%positive, OList [VRef 4%positive; VRef 5%positive; VRef 6%positive]);
      (4%positive, ODict [(VStr "price", VInt 101)]);
      (5%positive, ODict [(VStr "price", VFloat (F64.literal 995 1))]);
      (6%positive, ODict [(VStr "price", VInt (10 ^ 400))]);
      (7%positive, ODict [(VStr "name", VStr "gift")]);
      (8%positive, OList [VRef 2%positive; VRef 7%positive; VRef 2%positive]);
      (9%positive, ODict [(VStr "price", VInt 3); (VStr "quantity", VInt 4)]);
      (10%positive, ODict [(VStr "price", VInt 5)]);
      (11%positive, OList [VRef 9%positive; VRef 10%positive; VRef 9%positive]);
      (12%positive, OList [VRef 9%positive; VInt 5; VRef 9%positive]);
      (13%positive, ODict [(VStr "quantity", VInt 2); (VStr "price", VInt 5)]);
      (14%positive, OList [VRef 9%positive; VRef 13%positive]);
      (15%positive, OList [VRef 13%positive; VRef 9%positive]);
      (16%positive, OList [VRef 9%positive; VRef 13%positive;
                           VRef 13%positive; VRef 9%positive]);
      (17%positive, ODict [(VStr "price", VFloat (F64.literal 25 1));
                           (VStr "quantity", VBool true)]);
      (18%positive, OList [VRef 9%positive; VRef 17%positive]) ].

(** A store with defaultdicts: a list holding one [defaultdict(int)]
    without keys, and an order whose only item has one variation, a
    [defaultdict(int)] without keys. *)
Definition defaulting_store : gmap loc obj :=
  list_to_map
    [ (1%positive, OList [VRef 2%positive]);
      (2%positive, ODefaultDict (VInt 0) []);
      (3%positive, OList [VRef 4%positive]);
      (4%positive, ODict [(VStr "variations", VRef 5%positive)]);
      (5%positive, OList [VRef 6%positive]);
      (6%positive, ODefaultDict (VInt 0) []) ].

(** A reference to a dict, a defaultdict included. *)
Definition is_dict (h : gmap loc obj) (v : value) : Prop :=
  exists l o, v = VRef l /\ h !! l = Some o /\
    match o with
    | ODict _ | ODefaultDict _ _ => True
    | _ => False
    end.

(** What [for x in v] accepts: a string, a list, a dict or a
    defaultdict. *)
Definition iterable (h : gmap loc obj) (v : value) : Prop :=
  match v with
  | VStr _ => True
  | VRef l =>
      match h !! l with
      | Some (OList _) | Some (ODict _) | Some (ODefaultDict _ _) => True
      | _ => False
      end
  | _ => False
  end.

(** An operand that is an [int] (or a [bool]), and a pair of them. *)
Definition int_like (v : value) : Prop := is_Some (as_index v).

Definition int_like_pair (pq : value * value) : Prop :=
  int_like pq.1 /\ int_like pq.2.

Definition has_float (pq : value * value) : Prop :=
  is_float pq.1 \/ is_float pq.2.

(** The exceptions the operators [+], [*] and [/] raise on operands
    of the wrong type or size. *)
Definition operator_error (e : exn) : Prop :=
  e = TypeError \/ e = OverflowError \/ e = MemoryError.

(** An outcome of a computation started in [w] that keeps the store of
    [w], returns a value of the store it leaves and raises nothing but
    an operator error. *)
Definition sound_outcome (w : world) (rw : result value * world) : Prop :=
  heap w ⊆ heap rw.2 /\
  match rw.1 with
  | Returned v => bound (heap rw.2) v
  | Raised e => operator_error e
  end.

(** [reruns c h]: from the store [h] the computation [c] prints nothing
    and either leaves the store as it is, or gives one and the same
    result from every plain store that extends [h], the store it has
    left behind itself included. *)
Definition reruns {A} (c : M A) (h : gmap loc obj) : Prop :=
  (exists r, forall out, run c (World h out) = (r, World h out)) \/
  (exists r, forall H, h ⊆ H -> plain H ->
     exists H', H ⊆ H' /\ plain H' /\
       forall out, run c (World H out) = (r, World H' out)).

(** [constant c]: the result of [c] does not depend on the world, which
    it leaves as it is. *)
Definition constant {A} (c : M A) : Prop :=
  exists r, forall w, run c w = (r, w).


(** ** Running computations *)

Lemma run_ret {A} (a : A) w : run (mret a) w = (Returned a, w).
Proof. reflexivity. Qed.

Lemma run_bind {A B} (c : M A) (k : A -> M B) w :
  run (c ≫= k) w =
  match run c w with
  | (Returned a, w') => run (k a) w'
  | (Raised e, w') => (Raised e, w')
  end.
Proof. reflexivity. Qed.

Lemma run_bind_returned {A B} (c : M A) (k : A -> M B) w a w' :
  run c w = (Returned a, w') -> run (c ≫= k) w = run (k a) w'.
Proof. intros H. rewrite run_bind, H. reflexivity. Qed.


Lemma bind_ret_r {A} (c : M A) w : run (a ← c; mret a) w = run c w.
Proof. rewrite run_bind. destruct (run c w) as [[a|e] w']; reflexivity. Qed.

(** ** The frame rules *)

Lemma plain_insert h l o : plain h -> plain_obj o = true -> plain (<[l := o]> h).
Proof. intros Hh Ho. by apply map_Forall_insert_2. Qed.

Lemma plain_lookup h l o : plain h -> h !! l = Some o -> plain_obj o = true.
Proof. intros Hh Hl. exact (Hh l o Hl). Qed.

Lemma plain_subseteq h h' : h ⊆ h' -> plain h' -> plain h.
Proof. intros Hsub Hh' l o Hl. apply (Hh' l o). by eapply lookup_weaken. Qed.

Lemma frame_ret {A} (P : A -> Prop) (a : A) : P a -> frame P (mret a).
Proof.
  intros HP h. exists (Returned a), h, []. split; [done|]. split; [done|]. split.
  - intros a' [= <-]. exact HP.
  - intros printed. rewrite app_nil_r. reflexivity.
Qed.

Lemma frame_raise {A} (P : A -> Prop) (e : exn) : frame P (raise e).
Proof.
  intros h. exists (Raised e), h, []. split; [done|]. split; [done|]. split.
  - intros a' [=].
  - intros printed. rewrite app_nil_r. reflexivity.
Qed.

Lemma frame_lift {A} (P : A -> Prop) (r : result A) :
  (forall a, r = Returned a -> P a) -> frame P (lift r).
Proof.
  intros HP h. exists r, h, []. split; [done|]. split; [done|]. split; [done|].
  intros printed. rewrite app_nil_r. reflexivity.
Qed.

Lemma frame_bind {A B} (P : A -> Prop) (Q : B -> Prop) (c : M A) (k : A -> M B) :
  frame P c -> (forall a, P a -> frame Q (k a)) -> frame Q (c ≫= k).
Proof.
  intros Hc Hk h. destruct (Hc h) as (r & h' & out & Hsub & Hpl & HP & Hrun).
  destruct r as [a|e].
  - destruct (Hk a (HP a eq_refl) h') as (r2 & h'' & out2 & Hsub2 & Hpl2 & HQ & Hrun2).
    exists r2, h'', (out ++ out2). split; [by etrans|]. split; [by auto|].
    split; [done|].
    intros printed. rewrite run_bind, Hrun, Hrun2, app_assoc. reflexivity.
  - exists (Raised e), h', out. split; [done|]. split; [done|].
    split; [intros ? [=]|].
    intros printed. rewrite run_bind, Hrun. reflexivity.
Qed.

Lemma frame_print (s : string) : frame (fun _ => True) (print s).
Proof.
  intros h. exists (Returned tt), h, [s]. split; [done|]. split; [done|].
  split; [done|]. reflexivity.
Qed.

Lemma frame_deref (l : loc) : frame (fun _ => True) (deref l).
Proof.
  intros h. destruct (h !! l) as [o|] eqn:Hl.
  - exists (Returned o), h, []. split; [done|]. split; [done|]. split; [done|].
    intros printed. unfold run, deref. simpl. rewrite Hl, app_nil_r. reflexivity.
  - exists (Raised SystemError), h, []. split; [done|]. split; [done|]. split; [done|].
    intros printed. unfold run, deref. simpl. rewrite Hl, app_nil_r. reflexivity.
Qed.

Lemma frame_alloc (o : obj) : plain_obj o = true -> frame (fun _ => True) (alloc o).
Proof.
  intros Ho h.
  exists (Returned (VRef (fresh (dom h)))), (<[fresh (dom h) := o]> h), [].
  split; [|split; [|split; [done|]]].
  - apply insert_subseteq, not_elem_of_dom, is_fresh.
  - intros Hh. by apply plain_insert.
  - intros printed. unfold run, alloc. simpl. rewrite app_nil_r. reflexivity.
Qed.

Lemma frame_deref_list (l : loc) : frame (fun _ => True) (deref_list l).
Proof.
  eapply frame_bind; [apply frame_deref|]. intros [xs|kvs|cls attrs|d kvs] _;
    first [by apply frame_ret | apply frame_raise].
Qed.

Lemma frame_str_mul s n : frame (fun _ => True) (str_mul s n).
Proof.
  unfold str_mul.
  repeat match goal with |- context [if ?b then _ else _] => destruct b end;
    first [apply frame_raise | by apply frame_ret].
Qed.

Lemma frame_list_mul xs n : frame (fun _ => True) (list_mul xs n).
Proof.
  unfold list_mul.
  repeat match goal with |- context [if ?b then _ else _] => destruct b end;
    first [apply frame_raise | by apply frame_alloc].
Qed.

Lemma frame_py_add a b : frame (fun _ => True) (py_add a b).
Proof.
  unfold py_add.
  destruct (as_num a), (as_num b); try by apply frame_lift.
  all: destruct a; try apply frame_raise; destruct b; try apply frame_raise;
    try (by apply frame_ret).
  all: eapply frame_bind; [apply frame_deref_list|]; intros xs _;
    eapply frame_bind; [apply frame_deref_list|]; intros ys _; by apply frame_alloc.
Qed.

Lemma frame_py_mul a b : frame (fun _ => True) (py_mul a b).
Proof.
  unfold py_mul.
  destruct (as_num a) eqn:Ha, (as_num b) eqn:Hb; try by apply frame_lift.
  all: destruct a; simpl in *; try discriminate; destruct b; simpl in *;
    try discriminate;
    first [ apply frame_raise | apply frame_str_mul
          | eapply frame_bind; [apply frame_deref_list|]; intros xs _;
            apply frame_list_mul ].
Qed.

Lemma frame_py_truediv a b : frame (fun _ => True) (py_truediv a b).
Proof.
  unfold py_truediv.
  destruct (as_num a), (as_num b); first [by apply frame_lift | apply frame_raise].
Qed.

Lemma frame_py_gt_int a k : frame (fun _ => True) (py_gt_int a k).
Proof.
  unfold py_gt_int. destruct (as_num a); [by apply frame_ret | apply frame_raise].
Qed.

Lemma frame_py_iter v : frame (fun _ => True) (py_iter v).
Proof.
  unfold py_iter. destruct v; try apply frame_raise; [by apply frame_ret|].
  eapply frame_bind; [apply frame_deref|]. intros [xs|kvs|cls attrs|d kvs] _;
    first [by apply frame_ret | apply frame_raise].
Qed.

Lemma frame_py_truthy v : frame (fun _ => True) (py_truthy v).
Proof.
  unfold py_truthy. destruct v; try by apply frame_ret.
  eapply frame_bind; [apply frame_deref|]. intros [xs|kvs|cls attrs|d kvs] _;
    by apply frame_ret.
Qed.

Lemma frame_for_in {S} (I : S -> Prop) xs (body : value -> S -> M S) s :
  (forall x s, I s -> frame I (body x s)) -> I s -> frame I (for_in xs body s).
Proof.
  intros Hbody. revert s. induction xs as [|x xs IH]; intros s Hs; simpl.
  - by apply frame_ret.
  - eapply frame_bind; [by apply Hbody|]. intros s' Hs'. by apply IH.
Qed.

Lemma frame_when b c : frame (fun _ => True) c -> frame (fun _ => True) (when b c).
Proof. intros Hc. destruct b; simpl; [done | by apply frame_ret]. Qed.

(** *** On plain stores *)

Lemma frame_weaken {A} (P : A -> Prop) (c : M A) : frame P c -> frame_plain P c.
Proof.
  intros Hc h Hh. destruct (Hc h) as (r & h' & out & Hsub & Hpl & HP & Hrun).
  exists r, h', out. auto.
Qed.

Lemma frame_plain_bind {A B} (P : A -> Prop) (Q : B -> Prop)
    (c : M A) (k : A -> M B) :
  frame_plain P c -> (forall a, P a -> frame_plain Q (k a)) ->
  frame_plain Q (c ≫= k).
Proof.
  intros Hc Hk h Hh. destruct (Hc h Hh) as (r & h' & out & Hsub & Hpl & HP & Hrun).
  destruct r as [a|e].
  - destruct (Hk a (HP a eq_refl) h' Hpl)
      as (r2 & h'' & out2 & Hsub2 & Hpl2 & HQ & Hrun2).
    exists r2, h'', (out ++ out2). split; [by etrans|]. split; [done|].
    split; [done|].
    intros printed. rewrite run_bind, Hrun, Hrun2, app_assoc. reflexivity.
  - exists (Raised e), h', out. split; [done|]. split; [done|].
    split; [intros ? [=]|].
    intros printed. rewrite run_bind, Hrun. reflexivity.
Qed.

(** Reading a key writes to a defaultdict only. *)
Lemma frame_plain_py_getitem v key : frame_plain (fun _ => True) (py_getitem v key).
Proof.
  destruct v; try (apply frame_weaken, frame_raise).
  intros h Hh. unfold py_getitem.
  destruct (h !! l) as [o|] eqn:Hl.
  - pose proof (plain_lookup h l o Hh Hl) as Ho.
    assert (exists r, forall printed,
              run (o' ← deref l;
                   match o' with
                   | ODict kvs =>
                       match dict_get kvs key with
                       | Some x => mret x
                       | None => raise KeyError
                       end
                   | ODefaultDict d kvs =>
                       match dict_get kvs key with
                       | Some x => mret x
                       | None =>
                           store l (ODefaultDict d (kvs ++ [(VStr key, d)]));;
                           mret d
                       end
                   | _ => raise TypeError
                   end) (World h printed) = (r, World h printed)) as [r Hr].
    { destruct o as [xs|kvs|cls attrs|d kvs]; try discriminate.
      - exists (Raised TypeError). intros printed.
        unfold run, mbind, M_bind, deref. simpl. by rewrite Hl.
      - destruct (dict_get kvs key) as [x|] eqn:Hx.
        + exists (Returned x). intros printed.
          unfold run, mbind, M_bind, deref. simpl. by rewrite Hl, Hx.
        + exists (Raised KeyError). intros printed.
          unfold run, mbind, M_bind, deref. simpl. by rewrite Hl, Hx.
      - exists (Raised TypeError). intros printed.
        unfold run, mbind, M_bind, deref. simpl. by rewrite Hl. }
    exists r, h, []. split; [done|]. split; [done|]. split; [done|].
    intros printed. by rewrite app_nil_r.
  - exists (Raised SystemError), h, []. split; [done|]. split; [done|].
    split; [done|]. intros printed.
    unfold run, mbind, M_bind, deref. simpl. by rewrite Hl, app_nil_r.
Qed.

Lemma frame_plain_for_in {S} (I : S -> Prop) xs (body : value -> S -> M S) s :
  (forall x s, I s -> frame_plain I (body x s)) -> I s ->
  frame_plain I (for_in xs body s).
Proof.
  intros Hbody. revert s. induction xs as [|x xs IH]; intros s Hs; simpl.
  - by apply frame_weaken, frame_ret.
  - eapply frame_plain_bind; [by apply Hbody|]. intros s' Hs'. by apply IH.
Qed.

Lemma frame_plain_when b c :
  frame_plain (fun _ => True) c -> frame_plain (fun _ => True) (when b c).
Proof. intros Hc. destruct b; simpl; [done | by apply frame_weaken, frame_ret]. Qed.

(** ** Computations that only read a plain store *)

Lemma reads_only_ret {A} line (a : A) : reads_only line (mret a).
Proof.
  intros w. exists (Returned a), 0%nat, (heap w). simpl. rewrite app_nil_r.
  split; [by destruct w | done].
Qed.

Lemma reads_only_raise {A} line e : reads_only line (raise e : M A).
Proof.
  intros w. exists (Raised e), 0%nat, (heap w). simpl. rewrite app_nil_r.
  split; [by destruct w | done].
Qed.

Lemma reads_only_bind {A B} line (c : M A) (k : A -> M B) :
  reads_only line c -> (forall a, reads_only line (k a)) -> reads_only line (c ≫= k).
Proof.
  intros Hc Hk w. destruct (Hc w) as (r & n & h1 & Hrun & Hh1). destruct r as [a|e].
  - destruct (Hk a (World h1 (stdout w ++ replicate n line)))
      as (r2 & n2 & h2 & Hrun2 & Hh2).
    exists r2, (n + n2)%nat, h2. rewrite run_bind, Hrun, Hrun2. simpl. split.
    + by rewrite replicate_add, app_assoc.
    + intros Hw. simpl in Hh2. specialize (Hh1 Hw). subst h1. by apply Hh2.
  - exists (Raised e), n, h1. by rewrite run_bind, Hrun.
Qed.

Lemma reads_only_print line : reads_only line (print line).
Proof. intros w. by exists (Returned tt), 1%nat, (heap w). Qed.

Lemma reads_only_deref line l : reads_only line (deref l).
Proof.
  intros w. unfold run, deref. destruct (heap w !! l) as [o|].
  - exists (Returned o), 0%nat, (heap w). simpl. rewrite app_nil_r.
    split; [by destruct w | done].
  - exists (Raised SystemError), 0%nat, (heap w). simpl. rewrite app_nil_r.
    split; [by destruct w | done].
Qed.

Lemma reads_only_py_truthy line v : reads_only line (py_truthy v).
Proof.
  unfold py_truthy. destruct v; try apply reads_only_ret.
  apply reads_only_bind; [apply reads_only_deref|].
  intros [xs|kvs|cls attrs|d kvs]; apply reads_only_ret.
Qed.

Lemma reads_only_py_iter line v : reads_only line (py_iter v).
Proof.
  unfold py_iter. destruct v; try apply reads_only_raise; [apply reads_only_ret|].
  apply reads_only_bind; [apply reads_only_deref|].
  intros [xs|kvs|cls attrs|d kvs]; first [apply reads_only_ret | apply reads_only_raise].
Qed.

Lemma reads_only_py_getitem line v key : reads_only line (py_getitem v key).
Proof.
  destruct v; try apply reads_only_raise.
  intros w. unfold py_getitem, run, mbind, M_bind, deref, store, raise, mret, M_ret.
  destruct (heap w !! l) as [[xs|kvs|cls attrs|d kvs]|] eqn:Hl; simpl;
    try (eexists _, 0%nat, (heap w); simpl; rewrite app_nil_r;
         split; [by destruct w | done]).
  - destruct (dict_get kvs key);
      (eexists _, 0%nat, (heap w); simpl; rewrite app_nil_r;
       split; [by destruct w | done]).
  - destruct (dict_get kvs key).
    + eexists _, 0%nat, (heap w). simpl. rewrite app_nil_r.
      split; [by destruct w | done].
    + eexists _, 0%nat, _. simpl. rewrite app_nil_r. split; [reflexivity|].
      intros Hw. by pose proof (plain_lookup _ _ _ Hw Hl).
Qed.

Lemma reads_only_py_gt_int line a k : reads_only line (py_gt_int a k).
Proof.
  unfold py_gt_int. destruct (as_num a); [apply reads_only_ret | apply reads_only_raise].
Qed.

Lemma reads_only_when line b c : reads_only line c -> reads_only line (when b c).
Proof. intros Hc. destruct b; simpl; [done | apply reads_only_ret]. Qed.

Lemma reads_only_for_in {S} line xs (body : value -> S -> M S) s :
  (forall x s, reads_only line (body x s)) -> reads_only line (for_in xs body s).
Proof.
  intros Hbody. revert s. induction xs as [|x xs IH]; intros s; simpl.
  - apply reads_only_ret.
  - apply reads_only_bind; [apply Hbody | apply IH].
Qed.

Lemma reads_only_for_each line xs body :
  (forall x, reads_only line (body x)) -> reads_only line (for_each xs body).
Proof. intros Hbody. apply reads_only_for_in. intros x _. apply Hbody. Qed.

Create HintDb reads_only.

#[local] Hint Resolve reads_only_ret reads_only_raise reads_only_print
  reads_only_py_truthy reads_only_py_iter reads_only_py_getitem
  reads_only_py_gt_int : reads_only.

Ltac reads_only_step :=
  first
    [ apply reads_only_bind; [ | intros ? ]
    | apply reads_only_when
    | apply reads_only_for_each; intros ?
    | solve [ auto with reads_only ] ].

(** Iterating reads the store and does not write it. *)
Lemma py_iter_world v w : (run (py_iter v) w).2 = w.
Proof.
  unfold py_iter, run. destruct v; try reflexivity.
  simpl. unfold mbind, M_bind, deref.
  destruct (heap w !! l) as [[xs|kvs|cls attrs|d kvs]|]; reflexivity.
Qed.

(** ** Numbers stay numbers *)

Lemma num_add_number x y v : num_add x y = Returned v -> is_number v.
Proof.
  unfold num_add, float_binop. destruct x, y; simpl;
    repeat (match goal with |- context [if ?b then _ else _] => destruct b end; simpl);
    intros [= <-]; by eexists.
Qed.

Lemma py_add_number a b : is_number a -> frame is_number (py_add a b).
Proof.
  intros [x Hx]. unfold py_add. rewrite Hx. destruct (as_num b) as [y|].
  - apply frame_lift. apply num_add_number.
  - destruct a; simpl in Hx; try discriminate; apply frame_raise.
Qed.

(** The running total of the two total functions is a number, so [+=]
    on it never extends a list in place. *)
Lemma py_iadd_number a b : is_number a -> frame is_number (py_iadd a b).
Proof.
  intros Ha. destruct a; try (by apply py_add_number).
  destruct Ha as [x Hx]. discriminate.
Qed.

Lemma py_iadd_number_eq a b w : is_number a -> run (py_iadd a b) w = run (py_add a b) w.
Proof. intros [x Hx]. destruct a; try reflexivity. discriminate. Qed.

Lemma frame_total_loop xs total :
  is_number total ->
  frame_plain is_number
    (for_in xs (fun item total =>
       p ← py_getitem item "price";
       q ← py_getitem item "quantity";
       pq ← py_mul p q;
       py_iadd total pq) total).
Proof.
  apply frame_plain_for_in. clear. intros item total Htotal.
  eapply frame_plain_bind; [apply frame_plain_py_getitem|]. intros p _.
  eapply frame_plain_bind; [apply frame_plain_py_getitem|]. intros q _.
  eapply frame_plain_bind; [apply frame_weaken, frame_py_mul|]. intros pq _.
  by apply frame_weaken, py_iadd_number.
Qed.

Lemma frame_calculate_discount price : frame (fun _ => True) (calculate_discount price).
Proof.
  unfold calculate_discount.
  eapply frame_bind; [apply frame_py_gt_int|]. intros [] _; [apply frame_py_mul|].
  eapply frame_bind; [apply frame_py_gt_int|]. intros [] _; apply frame_py_mul.
Qed.

Lemma frame_calculate_total_a items :
  frame_plain (fun _ => True) (calculate_total_a items).
Proof.
  unfold calculate_total_a.
  eapply frame_plain_bind; [apply frame_weaken, frame_py_iter|]. intros xs _.
  eapply frame_plain_bind; [apply frame_total_loop; by eexists|]. intros total _.
  by apply frame_weaken, frame_ret.
Qed.

Lemma frame_calculate_total_b items :
  frame_plain (fun _ => True) (calculate_total_b items).
Proof.
  unfold calculate_total_b.
  eapply frame_plain_bind; [apply frame_weaken, frame_py_iter|]. intros xs _.
  eapply frame_plain_bind; [apply frame_total_loop; by eexists|]. intros total _.
  by apply frame_weaken, frame_ret.
Qed.

Lemma frame_do_work x y z : frame (fun _ => True) (do_work x y z).
Proof.
  unfold do_work.
  eapply frame_bind; [apply frame_py_add|]. intros temp _.
  eapply frame_bind; [apply frame_py_mul|]. intros data _.
  eapply frame_bind; [apply frame_py_truediv|]. intros val _.
  by apply frame_ret.
Qed.

Lemma frame_plain_for_each xs body :
  (forall x, frame_plain (fun _ => True) (body x)) ->
  frame_plain (fun _ => True) (for_each xs body).
Proof. intros Hbody. apply frame_plain_for_in; [|done]. intros x s _. apply Hbody. Qed.

Lemma frame_process_order a1 a2 a3 a4 a5 a6 a7 a8 a9 a10 a11 :
  frame_plain (fun _ => True) (process_order a1 a2 a3 a4 a5 a6 a7 a8 a9 a10 a11).
Proof.
  unfold process_order.
  eapply frame_plain_bind; [apply frame_weaken, frame_print|]. intros _ _.
  eapply frame_plain_bind; [|intros _ _; by apply frame_weaken, frame_ret].
  do 5 (eapply frame_plain_bind; [apply frame_weaken, frame_py_truthy|];
        intros ? _; apply frame_plain_when).
  eapply frame_plain_bind; [apply frame_weaken, frame_py_iter|]. intros xs _.
  apply frame_plain_for_each. intros item.
  eapply frame_plain_bind; [apply frame_plain_py_getitem|]. intros vars _.
  eapply frame_plain_bind; [apply frame_weaken, frame_py_iter|]. intros vs _.
  apply frame_plain_for_each. intros variation.
  eapply frame_plain_bind; [apply frame_plain_py_getitem|]. intros p _.
  eapply frame_plain_bind; [apply frame_weaken, frame_py_gt_int|]. intros c _.
  apply frame_plain_when, frame_weaken, frame_print.
Qed.

Lemma methods_pass :
  Forall (fun m => forall self w, run (m.2 self) w = (Returned VNone, w))
    OrderManager.methods.
Proof. repeat constructor. Qed.

Lemma getattr_pass name body self w :
  getattr name = Some body -> run (body self) w = (Returned VNone, w).
Proof.
  unfold getattr. destruct (List.find _ _) as [m|] eqn:Hfind; [|discriminate].
  intros [= <-]. apply find_some in Hfind as [Hin _].
  pose proof methods_pass as Hall. rewrite Forall_forall in Hall.
  apply Hall. by apply list_elem_of_In.
Qed.

(** ** Comparisons against the thresholds *)

Lemma compare_Z_is_Some k f : f <> S754_nan -> is_Some (F64.compare_Z k f).
Proof. destruct f; simpl; intros Hf; try congruence; eauto. Qed.

Lemma num_gt_not_gt_le x k k' :
  num_gt x (NInt k) = true -> num_gt x (NInt k') = false -> num_le x (NInt k') = true.
Proof.
  unfold num_gt, num_le. destruct x as [n|f]; simpl.
  - destruct (n ?= k') eqn:E; done.
  - destruct (F64.compare_Z k f) as [c|] eqn:Ek; [|done].
    assert (f <> S754_nan) as Hf by (by intros ->).
    destruct (compare_Z_is_Some k' f Hf) as [c' ->]. simpl.
    by destruct c'.
Qed.

(** ** The loop of the totals *)

Lemma frame_run {A} (P : A -> Prop) (c : M A) w r w' :
  frame P c -> run c w = (r, w') ->
  heap w ⊆ heap w' /\ (forall a, r = Returned a -> P a).
Proof.
  intros Hc Hrun. destruct (Hc (heap w)) as (r0 & h' & out & Hsub & _ & HP & Hrun0).
  specialize (Hrun0 (stdout w)). destruct w as [h printed]. simpl in *.
  rewrite Hrun in Hrun0. injection Hrun0 as -> ->. done.
Qed.

Lemma is_item_mono w w' item pq :
  heap w ⊆ heap w' -> is_item w item pq -> is_item w' item pq.
Proof.
  intros Hsub (l & kvs & -> & Hl & Hp & Hq). exists l, kvs.
  split; [done|]. split; [|done]. by eapply lookup_weaken.
Qed.

Lemma run_py_getitem_dict w l kvs key v :
  heap w !! l = Some (ODict kvs) -> dict_get kvs key = Some v ->
  run (py_getitem (VRef l) key) w = (Returned v, w).
Proof.
  intros Hl Hv. unfold py_getitem, run, mbind, M_bind, deref. by rewrite Hl, Hv.
Qed.

Lemma run_py_iter_list w l xs :
  heap w !! l = Some (OList xs) -> run (py_iter (VRef l)) w = (Returned xs, w).
Proof. intros Hl. unfold py_iter, run, mbind, M_bind, deref. by rewrite Hl. Qed.

Lemma for_in_cons {S} x xs (body : value -> S -> M S) s :
  for_in (x :: xs) body s = (s' ← body x s; for_in xs body s').
Proof. reflexivity. Qed.

Lemma sum_left_cons start t ts :
  sum_left start (t :: ts) = (v ← t; acc ← py_add start v; sum_left acc ts).
Proof. reflexivity. Qed.

Lemma total_loop_sum_left xs pqs total w :
  Forall2 (is_item w) xs pqs -> is_number total ->
  run (for_in xs (fun item total =>
         p ← py_getitem item "price";
         q ← py_getitem item "quantity";
         pq ← py_mul p q;
         py_iadd total pq) total) w =
  run (sum_left total ((fun pq => py_mul pq.1 pq.2) <$> pqs)) w.
Proof.
  revert pqs total w. induction xs as [|item xs IH]; intros pqs total w Hitems Htotal.
  - apply Forall2_nil_inv_l in Hitems as ->. reflexivity.
  - apply Forall2_cons_inv_l in Hitems as ([p q] & pqs' & Hitem & Hitems & ->).
    destruct Hitem as (l & kvs & -> & Hl & Hp & Hq). simpl in Hp, Hq.
    rewrite for_in_cons, fmap_cons, sum_left_cons. cbv beta. simpl fst. simpl snd.
    rewrite (run_bind (_ ≫= _)).
    rewrite (run_bind_returned _ _ _ _ _ (run_py_getitem_dict w l kvs _ p Hl Hp)).
    rewrite (run_bind_returned _ _ _ _ _ (run_py_getitem_dict w l kvs _ q Hl Hq)).
    rewrite !(run_bind (py_mul p q)).
    destruct (run (py_mul p q) w) as [[pq|e] w1] eqn:Hmul; [|done].
    destruct (frame_run _ _ _ _ _ (frame_py_mul p q) Hmul) as [Hsub1 _].
    rewrite !run_bind, (py_iadd_number_eq total pq w1 Htotal).
    destruct (run (py_add total pq) w1) as [[total'|e] w2] eqn:Hadd; [|done].
    destruct (frame_run _ _ _ _ _ (py_add_number total pq Htotal) Hadd) as [Hsub2 Hnum].
    apply IH; [|by apply Hnum].
    eapply Forall2_impl; [exact Hitems|]. intros x y.
    apply is_item_mono. by etrans.
Qed.

Lemma sum_left_ints zs acc w :
  run (sum_left (VInt acc) ((fun pq => py_mul pq.1 pq.2) <$> (int_pair <$> zs))) w =
  (Returned (VInt (acc + Zsum_of_products zs)), w).
Proof.
  revert acc. induction zs as [|[p q] zs IH]; intros acc; simpl.
  - by rewrite Z.add_0_r.
  - unfold run in *. unfold mbind at 1, M_bind at 1. simpl.
    unfold mbind at 1, M_bind at 1. simpl.
    rewrite IH. do 2 f_equal. f_equal. lia.
Qed.

Lemma run_calculate_total_a items pqs w :
  items_hold w items pqs ->
  run (calculate_total_a items) w = run (sum_of_products pqs) w.
Proof.
  intros (l & xs & -> & Hl & Hitems). unfold calculate_total_a, sum_of_products.
  rewrite (run_bind_returned _ _ _ _ _ (run_py_iter_list w l xs Hl)).
  rewrite bind_ret_r. apply total_loop_sum_left; [done | by eexists].
Qed.

(** ** Binary64: the rounding of [SpecFloat] in arithmetic terms *)

Lemma pow2_pos n : 0 < 2 ^ n \/ (n < 0 /\ 2 ^ n = 0).
Proof.
  destruct (Z.le_gt_cases 0 n) as [Hn|Hn].
  - left. by apply Z.pow_pos_nonneg.
  - right. split; [done|]. by apply Z.pow_neg_r.
Qed.

Lemma pow2_gt0 n : 0 <= n -> 0 < 2 ^ n.
Proof. intros Hn. by apply Z.pow_pos_nonneg. Qed.

Lemma pow2_succ n : 0 <= n -> 2 ^ (n + 1) = 2 ^ n * 2.
Proof. intros Hn. rewrite Z.pow_add_r by lia. reflexivity. Qed.

Lemma digits2_pos_size m : digits2_pos m = Pos.size m.
Proof. induction m as [m IH|m IH|]; simpl; congruence. Qed.

Lemma Zdigits2_log2 m : Zdigits2 (Zpos m) = Z.log2 (Zpos m) + 1.
Proof.
  unfold Zdigits2. rewrite digits2_pos_size.
  destruct m; simpl; lia.
Qed.

Lemma log2_bounds X : 0 < X -> 2 ^ Z.log2 X <= X < 2 ^ (Z.log2 X + 1).
Proof. intros HX. apply Z.log2_spec, HX. Qed.

(** *** Rounding to nearest even on integers *)

Lemma rne_0_r M : rne M 0 = M.
Proof.
  unfold rne. rewrite Z.pow_0_r, Z.mod_1_r, Z.div_1_r. reflexivity.
Qed.

Lemma rne_bounds M n : 0 <= n -> M / 2 ^ n <= rne M n <= M / 2 ^ n + 1.
Proof.
  intros Hn. unfold rne.
  destruct (_ ?= _); [destruct (Z.even _)|..]; lia.
Qed.

Lemma rne_mono M1 M2 n : 0 <= n -> M1 <= M2 -> rne M1 n <= rne M2 n.
Proof.
  intros Hn HM. pose proof (pow2_gt0 n Hn) as HP.
  pose proof (Z.div_le_mono M1 M2 (2 ^ n) HP HM) as Hq.
  destruct (Z.eq_dec (M1 / 2 ^ n) (M2 / 2 ^ n)) as [Heq|Hne].
  - pose proof (Z.div_mod M1 (2 ^ n) ltac:(lia)) as H1.
    pose proof (Z.div_mod M2 (2 ^ n) ltac:(lia)) as H2.
    assert (M1 mod 2 ^ n <= M2 mod 2 ^ n) as Hr by (rewrite Heq in H1; lia).
    unfold rne. rewrite Heq.
    destruct (Z.compare_spec (2 * (M1 mod 2 ^ n)) (2 ^ n));
      destruct (Z.compare_spec (2 * (M2 mod 2 ^ n)) (2 ^ n));
      destruct (Z.even (M2 / 2 ^ n)); lia.
  - pose proof (rne_bounds M1 n Hn). pose proof (rne_bounds M2 n Hn). lia.
Qed.

Lemma rne_scale M n j : 0 <= n -> 0 <= j -> rne (M * 2 ^ j) (n + j) = rne M n.
Proof.
  intros Hn Hj. pose proof (pow2_gt0 n Hn). pose proof (pow2_gt0 j Hj).
  unfold rne. rewrite Z.pow_add_r by done.
  rewrite Z.div_mul_cancel_r, Z.mul_mod_distr_r by lia.
  replace (2 * (M mod 2 ^ n * 2 ^ j)) with (2 * (M mod 2 ^ n) * 2 ^ j) by lia.
  destruct (Z.compare_spec (2 * (M mod 2 ^ n)) (2 ^ n)) as [E|E|E].
  - rewrite E, Z.compare_refl. reflexivity.
  - assert (2 * (M mod 2 ^ n) * 2 ^ j < 2 ^ n * 2 ^ j) as E' by nia.
    by apply Z.compare_lt_iff in E' as ->.
  - assert (2 ^ n * 2 ^ j < 2 * (M mod 2 ^ n) * 2 ^ j) as E' by nia.
    by apply Z.compare_gt_iff in E' as ->.
Qed.

Lemma rne_nonneg M n : 0 <= M -> 0 <= n -> 0 <= rne M n.
Proof.
  intros HM Hn. pose proof (rne_bounds M n Hn).
  pose proof (Z.div_pos M (2 ^ n) HM (pow2_gt0 n Hn)). lia.
Qed.

(** With at most [n + 53] digits the rounded mantissa fits 53 bits or
    is exactly [2^53]. *)
Lemma rne_upper M n : 0 < M -> 0 <= n -> Z.log2 M + 1 <= n + 53 -> rne M n <= 2 ^ 53.
Proof.
  intros HM Hn Hd. pose proof (log2_bounds M HM) as [_ Hlt].
  assert (M < 2 ^ n * 2 ^ 53) as Hlt'.
  { rewrite <- Z.pow_add_r by lia.
    eapply Z.lt_le_trans; [exact Hlt|]. apply Z.pow_le_mono_r; lia. }
  pose proof (Z.div_lt_upper_bound M (2 ^ n) (2 ^ 53) (pow2_gt0 n Hn) Hlt').
  pose proof (rne_bounds M n Hn). lia.
Qed.

(** With exactly [n + 53] digits it has 53 bits at least. *)
Lemma rne_lower M n : 0 < M -> 0 <= n -> Z.log2 M + 1 = n + 53 -> 2 ^ 52 <= rne M n.
Proof.
  intros HM Hn Hd. pose proof (log2_bounds M HM) as [Hle _].
  assert (2 ^ n * 2 ^ 52 <= M) as Hle'.
  { rewrite <- Z.pow_add_r by lia. replace (n + 52) with (Z.log2 M) by lia. done. }
  pose proof (Z.div_le_lower_bound M (2 ^ n) (2 ^ 52) (pow2_gt0 n Hn) Hle').
  pose proof (rne_bounds M n Hn). lia.
Qed.

(** *** The position function is monotone *)

Lemma cexp_ge X : -1074 <= cexp X.
Proof. unfold cexp. lia. Qed.

Lemma cexp_mono X1 X2 : X1 <= X2 -> cexp X1 <= cexp X2.
Proof. intros HX. unfold cexp. pose proof (Z.log2_le_mono X1 X2 HX). lia. Qed.

Lemma cexp_shift X : 0 <= cexp X + scale.
Proof. pose proof (cexp_ge X). unfold scale. lia. Qed.

Lemma ordr_rne_upper X : 0 < X -> rne X (cexp X + scale) <= 2 ^ 53.
Proof.
  intros HX. apply rne_upper; [done | apply cexp_shift |].
  unfold cexp, scale. lia.
Qed.

Lemma ordr_rne_lower X : 0 < X -> -1074 < cexp X -> 2 ^ 52 <= rne X (cexp X + scale).
Proof.
  intros HX Hc. apply rne_lower; [done | apply cexp_shift |].
  unfold cexp, scale in *. lia.
Qed.

Lemma ordr_nonneg X : 0 <= X -> 0 <= ordr X.
Proof.
  intros HX. unfold ordr. destruct (Z.eqb_spec X 0); [done|].
  pose proof (rne_nonneg X (cexp X + scale) HX (cexp_shift X)).
  pose proof (cexp_ge X). unfold ord_inf. lia.
Qed.

Lemma ordr_le_inf X : ordr X <= ord_inf.
Proof. unfold ordr. destruct (Z.eqb_spec X 0); [by vm_compute | lia]. Qed.

Lemma ordr_mono X1 X2 : 0 <= X1 -> X1 <= X2 -> ordr X1 <= ordr X2.
Proof.
  intros H1 H12. destruct (Z.eq_dec X1 0) as [->|Hne].
  { apply ordr_nonneg. lia. }
  unfold ordr. destruct (Z.eqb_spec X1 0); [done|]. destruct (Z.eqb_spec X2 0); [lia|].
  apply Z.min_le_compat_r.
  pose proof (cexp_mono X1 X2 H12) as Hc.
  destruct (Z.eq_dec (cexp X1) (cexp X2)) as [Heq|Hlt].
  - rewrite Heq. pose proof (rne_mono X1 X2 (cexp X2 + scale) (cexp_shift X2) H12). lia.
  - pose proof (ordr_rne_upper X1 ltac:(lia)).
    pose proof (ordr_rne_lower X2 ltac:(lia)) as Hlow.
    pose proof (cexp_ge X1). specialize (Hlow ltac:(lia)).
    change (2 ^ 53) with (2 * 2 ^ 52) in *. nia.
Qed.

(** *** Right shifts keep track of the remainder *)

Lemma shr_1_nonneg m r s :
  0 <= m -> shr_1 (Build_shr_record m r s) = Build_shr_record (m / 2) (Z.odd m) (r || s).
Proof.
  intros Hm. destruct m as [|[p|p|]|p]; try lia; simpl shr_1.
  - reflexivity.
  - replace (Z.pos p~1 / 2) with (Z.pos p); [reflexivity|].
    apply (Z.div_unique _ 2 _ 1); lia.
  - replace (Z.pos p~0 / 2) with (Z.pos p); [reflexivity|].
    apply (Z.div_unique _ 2 _ 0); lia.
  - reflexivity.
Qed.

Lemma shr_inv_0 M : shr_inv M 0 (Build_shr_record M false false).
Proof.
  unfold shr_inv, loc_of. simpl.
  rewrite Z.pow_0_r, Z.div_1_r, Z.mod_1_r. done.
Qed.

Lemma shr_1_inv M n mrs :
  0 <= M -> 0 <= n -> shr_inv M n mrs -> shr_inv M (n + 1) (shr_1 mrs).
Proof.
  intros HM Hn [Hm Hloc]. destruct mrs as [m r s]. simpl in Hm.
  pose proof (pow2_gt0 n Hn) as HP.
  pose proof (Z.div_pos M (2 ^ n) HM HP) as Hq.
  pose proof (Z.mod_pos_bound M (2 ^ n) HP) as Hrem.
  rewrite shr_1_nonneg by lia. unfold shr_inv. simpl shr_m.
  rewrite pow2_succ by done.
  rewrite Z.rem_mul_r, <- Z.div_div by lia. rewrite <- Hm.
  split; [reflexivity|]. pose proof (pow2_succ n Hn) as Hp2.
  rewrite Zmod_odd.
  revert Hloc. unfold loc_of.
  destruct (Z.eqb_spec (M mod 2 ^ n) 0) as [E0|E0];
    destruct r, s; simpl; try discriminate; intros _;
    destruct (Z.odd m);
    match goal with |- context [Z.eqb ?a 0] => destruct (Z.eqb_spec a 0) end;
    try lia; try reflexivity;
    f_equal; symmetry;
    first [ apply Z.compare_eq_iff; lia
          | apply Z.compare_gt_iff; lia
          | apply Z.compare_lt_iff; lia ].
Qed.

Lemma iter_shr_1_inv M p n mrs :
  0 <= M -> 0 <= n -> shr_inv M n mrs ->
  shr_inv M (n + Zpos p) (SpecFloat.iter_pos shr_1 p mrs).
Proof.
  intros HM. revert n mrs. induction p as [p IH|p IH|]; intros n mrs Hn Hinv; simpl.
  - replace (n + Z.pos p~1) with (n + 1 + Z.pos p + Z.pos p) by lia.
    apply IH; [lia|]. apply IH; [lia|]. by apply shr_1_inv.
  - replace (n + Z.pos p~0) with (n + Z.pos p + Z.pos p) by lia.
    apply IH; [lia|]. by apply IH.
  - by apply shr_1_inv.
Qed.

(** Shifting an exact mantissa to the exponent [e + n]. *)
Lemma shr_exact M e n :
  0 <= M -> 0 <= n ->
  exists mrs, shr (Build_shr_record M false false) e n = (mrs, e + n) /\
              shr_inv M n mrs.
Proof.
  intros HM Hn. destruct n as [|p|p]; try lia.
  - exists (Build_shr_record M false false). simpl. rewrite Z.add_0_r.
    split; [done | apply shr_inv_0].
  - eexists. split; [reflexivity|].
    apply (iter_shr_1_inv M p 0 _ HM ltac:(lia)), shr_inv_0.
Qed.

Lemma round_nearest_even_rne M n mrs :
  0 <= n -> shr_inv M n mrs ->
  round_nearest_even (shr_m mrs) (loc_of_shr_record mrs) = rne M n.
Proof.
  intros Hn [-> ->]. unfold loc_of, rne. pose proof (pow2_gt0 n Hn).
  destruct (Z.eqb_spec (M mod 2 ^ n) 0) as [E|E].
  - rewrite E. simpl round_nearest_even.
    assert (2 * 0 < 2 ^ n) as Hlt by lia. by apply Z.compare_lt_iff in Hlt as ->.
  - simpl. by destruct (_ ?= _).
Qed.

(** *** What [binary_round_aux] computes *)

Lemma fexp64 z : fexp F64.prec F64.emax z = Z.max (z - 53) (-1074).
Proof. reflexivity. Qed.

Lemma shr_nonpos mrs e n : n <= 0 -> shr mrs e n = (mrs, e).
Proof. intros Hn. destruct n; try lia; reflexivity. Qed.

Lemma decode_small c k :
  0 <= k < 2 ^ 53 ->
  decode c k = match k with
               | Z0 => S754_zero false
               | Zpos m => if c <=? 971 then S754_finite false m c
                           else S754_infinity false
               | Zneg _ => S754_nan
               end.
Proof.
  intros Hk. unfold decode. destruct k; try done.
  destruct (Z.eqb_spec (Z.pos p) (2 ^ 53)); [lia | done].
Qed.

Lemma binary_round_aux_exact M e :
  e <= fexp F64.prec F64.emax (Zdigits2 (Zpos M) + e) ->
  binary_round_aux F64.prec F64.emax false (Zpos M) e loc_Exact =
  decode (fexp F64.prec F64.emax (Zdigits2 (Zpos M) + e))
         (rne (Zpos M) (fexp F64.prec F64.emax (Zdigits2 (Zpos M) + e) - e)).
Proof.
  rewrite fexp64, Zdigits2_log2. set (c := Z.max _ _). intros Hc.
  unfold binary_round_aux, shr_fexp. rewrite fexp64, Zdigits2_log2. fold c.
  simpl shr_record_of_loc at 1.
  destruct (shr_exact (Zpos M) e (c - e) ltac:(lia) ltac:(lia)) as (mrs & -> & Hinv).
  rewrite (round_nearest_even_rne (Zpos M) (c - e) mrs ltac:(lia) Hinv).
  replace (e + (c - e)) with c by lia.
  pose proof (rne_upper (Zpos M) (c - e) ltac:(lia) ltac:(lia) ltac:(lia)) as Hup.
  pose proof (rne_nonneg (Zpos M) (c - e) ltac:(lia) ltac:(lia)) as Hlo.
  set (k := rne _ _) in *. rewrite fexp64.
  simpl shr_record_of_loc.
  destruct (Z.eq_dec k (2 ^ 53)) as [->|Hne].
  - change (Zdigits2 (2 ^ 53)) with 54.
    replace (Z.max (54 + c - 53) (-1074) - c) with 1 by lia.
    cbn -[Z.leb]. reflexivity.
  - rewrite decode_small by lia. rewrite shr_nonpos.
    + simpl shr_m. by destruct k.
    + destruct k as [|m|m]; [simpl; lia| |lia].
      rewrite Zdigits2_log2.
      assert (Z.log2 (Z.pos m) < 53) by (apply Z.log2_lt_pow2; lia). lia.
Qed.

(** *** Positions of rounded results *)

Lemma ord_decode c k :
  -1074 <= c -> 0 <= k <= 2 ^ 53 -> (-1074 < c -> 2 ^ 52 <= k) ->
  ord (decode c k) = Z.min ((c + 1074) * 2 ^ 52 + k) ord_inf /\ good (decode c k).
Proof.
  intros Hc Hk Hnorm. unfold decode, ord_inf.
  destruct k as [|m|m]; [| |lia].
  - simpl. split; [|done].
    destruct (Z.eq_dec c (-1074)) as [->|Hne]; [reflexivity|].
    specialize (Hnorm ltac:(lia)). lia.
  - destruct (Z.eqb_spec (Z.pos m) (2 ^ 53)) as [E|E].
    + rewrite E. destruct (Z.leb_spec (c + 1) 971); simpl; unfold ord_inf; lia.
    + destruct (Z.leb_spec c 971); simpl; unfold ord_inf.
      * split; [lia|]. split; [done|]. split; [lia|]. split; [lia|].
        destruct (Z.eq_dec c (-1074)); [by left | right; apply Hnorm; lia].
      * specialize (Hnorm ltac:(lia)). lia.
Qed.

Lemma cexp_scaled M e :
  - scale <= e ->
  cexp (Zpos M * 2 ^ (e + scale)) = fexp F64.prec F64.emax (Zdigits2 (Zpos M) + e).
Proof.
  intros He. unfold cexp. rewrite fexp64, Zdigits2_log2.
  rewrite Z.log2_mul_pow2 by lia. lia.
Qed.

(** The result of rounding [M * 2^e] is a good float, at the position
    given by [ordr]. *)
Lemma binary_round_aux_ord M e :
  - scale <= e ->
  e <= fexp F64.prec F64.emax (Zdigits2 (Zpos M) + e) ->
  ord (binary_round_aux F64.prec F64.emax false (Zpos M) e loc_Exact) =
    ordr (Zpos M * 2 ^ (e + scale)) /\
  good (binary_round_aux F64.prec F64.emax false (Zpos M) e loc_Exact).
Proof.
  intros He Hc. rewrite binary_round_aux_exact by done.
  unfold ordr. rewrite cexp_scaled by done.
  revert Hc. rewrite fexp64, Zdigits2_log2. set (c := Z.max _ _). intros Hc.
  pose proof (pow2_gt0 (e + scale) ltac:(lia)).
  destruct (Z.eqb_spec (Z.pos M * 2 ^ (e + scale)) 0) as [E|_]; [nia|].
  replace (c + scale) with (c - e + (e + scale)) by lia.
  rewrite rne_scale by lia.
  apply ord_decode; [lia | |].
  - split; [apply rne_nonneg; lia | apply rne_upper; lia].
  - intros Hnorm. apply rne_lower; lia.
Qed.

(** *** Good floats *)

Lemma valid_good m e :
  F64.valid (S754_finite false m e) = true -> good (S754_finite false m e).
Proof.
  unfold F64.valid, valid_binary, bounded, canonical_mantissa.
  intros [Hcan Hle%Z.leb_le]%andb_prop. apply Z.eqb_eq in Hcan.
  rewrite fexp64 in Hcan. change (Z.pos (digits2_pos m)) with (Zdigits2 (Zpos m)) in Hcan.
  rewrite Zdigits2_log2 in Hcan. unfold F64.emax, F64.prec in Hle.
  pose proof (log2_bounds (Zpos m) ltac:(lia)) as [Hlo Hhi].
  simpl. split; [done|]. split; [lia|].
  assert (Z.log2 (Z.pos m) <= 52) as Hlog by lia.
  split.
  - eapply Z.lt_le_trans; [exact Hhi|]. apply Z.pow_le_mono_r; lia.
  - destruct (Z.eq_dec e (-1074)); [by left | right].
    replace 52 with (Z.log2 (Z.pos m)) by lia. done.
Qed.

Lemma good_log2 m e :
  good (S754_finite false m e) ->
  Z.max (Z.log2 (Zpos m) + 1 + e - 53) (-1074) = e.
Proof.
  intros (_ & He & Hm & Hnorm).
  assert (Z.log2 (Z.pos m) < 53) by (apply Z.log2_lt_pow2; lia).
  destruct Hnorm as [->|Hnorm]; [lia|].
  assert (52 <= Z.log2 (Z.pos m)) by (apply Z.log2_le_pow2; lia). lia.
Qed.

Lemma good_sign s m e : good (S754_finite s m e) -> s = false.
Proof. by intros [-> _]. Qed.

(** A good finite float sits where its own value rounds to. *)
Lemma ord_good f : finite_good f -> ord f = ordr (sval f * 2 ^ 57).
Proof.
  intros [Hgood Hfin]. destruct f as [s|s| |s m e]; try done.
  pose proof (good_sign _ _ _ Hgood) as ->.
  pose proof (good_log2 m e Hgood) as Hlog.
  destruct Hgood as (_ & He & Hm & Hnorm).
  simpl ord. simpl sval. rewrite <- Z.mul_assoc, <- Z.pow_add_r by lia.
  replace (e + 1074 + 57) with (e + scale) by (unfold scale; lia).
  unfold ordr. rewrite cexp_scaled by (unfold scale; lia).
  rewrite fexp64, Zdigits2_log2, Hlog.
  pose proof (pow2_gt0 (e + scale) ltac:(unfold scale; lia)).
  destruct (Z.eqb_spec (Z.pos m * 2 ^ (e + scale)) 0) as [E|_]; [nia|].
  replace (e + scale) with (0 + (e + scale)) at 2 by lia.
  rewrite rne_scale, rne_0_r by (unfold scale; lia).
  unfold ord_inf. lia.
Qed.

(** *** Comparisons of good floats are comparisons of their values *)

Lemma compare_scaled a b P : 0 < P -> (a * P ?= b * P) = (a ?= b).
Proof. intros HP. symmetry. apply Zmult_compare_compat_r. lia. Qed.

Lemma sval_lt_exp m1 e1 m2 e2 :
  good (S754_finite false m1 e1) -> good (S754_finite false m2 e2) -> e1 < e2 ->
  Zpos m1 * 2 ^ (e1 + 1074) < Zpos m2 * 2 ^ (e2 + 1074).
Proof.
  intros (_ & He1 & Hm1 & _) (_ & He2 & _ & Hnorm) Hlt.
  destruct Hnorm as [->|Hnorm]; [lia|].
  replace (e2 + 1074) with (e1 + 1074 + (e2 - e1)) by lia.
  rewrite (Z.pow_add_r 2 (e1 + 1074) (e2 - e1)) by lia.
  pose proof (pow2_gt0 (e1 + 1074) ltac:(lia)) as HP.
  assert (2 ^ 1 <= 2 ^ (e2 - e1)) as HQ by (apply Z.pow_le_mono_r; lia).
  change (2 ^ 1) with 2 in HQ. change (2 ^ 53) with (2 * 2 ^ 52) in Hm1.
  set (P := 2 ^ (e1 + 1074)) in *. set (Q := 2 ^ (e2 - e1)) in *.
  set (T := 2 ^ 52) in *.
  assert (Z.pos m1 * P < 2 * T * P) by nia.
  assert (2 * T * P <= T * (P * Q)) by nia.
  assert (T * (P * Q) <= Z.pos m2 * (P * Q)) by nia.
  lia.
Qed.

Lemma ord_lt_exp m1 e1 m2 e2 :
  good (S754_finite false m1 e1) -> good (S754_finite false m2 e2) -> e1 < e2 ->
  ord (S754_finite false m1 e1) < ord (S754_finite false m2 e2).
Proof.
  intros (_ & He1 & Hm1 & _) (_ & He2 & _ & Hnorm) Hlt.
  destruct Hnorm as [->|Hnorm]; [lia|]. simpl. lia.
Qed.

Lemma SFcompare_sval f g :
  finite_good f -> finite_good g ->
  SFcompare f g = Some (sval f ?= sval g).
Proof.
  intros [Hf Hff] [Hg Hgf].
  destruct f as [s1|s1| |s1 m1 e1]; try done;
    destruct g as [s2|s2| |s2 m2 e2]; try done.
  - pose proof (good_sign _ _ _ Hg) as ->.
    change (SFcompare _ _) with (Some Lt). cbn [sval].
    destruct Hg as (_ & He & _). pose proof (pow2_gt0 (e2 + 1074) ltac:(lia)).
    f_equal. symmetry. apply Z.compare_lt_iff. nia.
  - pose proof (good_sign _ _ _ Hf) as ->.
    change (SFcompare _ _) with (Some Gt). cbn [sval].
    destruct Hf as (_ & He & _). pose proof (pow2_gt0 (e1 + 1074) ltac:(lia)).
    f_equal. symmetry. apply Z.compare_gt_iff. nia.
  - pose proof (good_sign _ _ _ Hf) as ->. pose proof (good_sign _ _ _ Hg) as ->.
    cbn [SFcompare sval]. f_equal. destruct (Z.compare_spec e1 e2) as [->|Hlt|Hgt].
    + destruct Hf as (_ & He & _). rewrite compare_scaled by (apply pow2_gt0; lia).
      reflexivity.
    + symmetry. apply Z.compare_lt_iff. by apply sval_lt_exp.
    + symmetry. apply Z.compare_gt_iff. by apply sval_lt_exp.
Qed.

Lemma compare_Z_sval k f :
  finite_good f -> F64.compare_Z k f = Some (k * 2 ^ 1074 ?= sval f).
Proof.
  intros [Hf Hff]. destruct f as [s|s| |s m e]; try done.
  - simpl. f_equal. change 0 with (0 * 2 ^ 1074) at 2. by rewrite compare_scaled.
  - pose proof (good_sign _ _ _ Hf) as ->. destruct Hf as (_ & He & _).
    simpl. f_equal. destruct (Z.leb_spec 0 e) as [H0|H0].
    + rewrite Z.pow_add_r by lia.
      replace (Z.pos m * (2 ^ e * 2 ^ 1074)) with (Z.pos m * 2 ^ e * 2 ^ 1074) by lia.
      by rewrite compare_scaled.
    + replace 1074 with (- e + (e + 1074)) at 1 by lia.
      rewrite Z.pow_add_r by lia.
      replace (k * (2 ^ (- e) * 2 ^ (e + 1074))) with (k * 2 ^ (- e) * 2 ^ (e + 1074)) by lia.
      rewrite compare_scaled by (apply pow2_gt0; lia). reflexivity.
Qed.

Lemma ord_nonneg f : good f -> 0 <= ord f.
Proof.
  destruct f as [s|s| |s m e]; simpl; try done.
  intros (_ & He & _). lia.
Qed.

Lemma ord_finite_lt_inf s m e : good (S754_finite s m e) -> ord (S754_finite s m e) < ord_inf.
Proof. intros (_ & He & Hm & _). simpl. unfold ord_inf. lia. Qed.

Lemma ord_le_SFleb f g : good f -> good g -> ord f <= ord g -> SFleb f g = true.
Proof.
  intros Hf Hg Hord. unfold SFleb.
  assert (0 < ord_inf) as Hinf by done.
  destruct f as [s1|s1| |s1 m1 e1]; [| | done |];
    destruct g as [s2|s2| |s2 m2 e2]; try done.
  - simpl in Hg. by subst.
  - by rewrite (good_sign _ _ _ Hg).
  - simpl in Hf, Hg. by subst.
  - pose proof (ord_finite_lt_inf _ _ _ Hg). simpl ord in *. lia.
  - destruct Hf as (-> & He & _). simpl in Hord. lia.
  - simpl in Hg. subst. by rewrite (good_sign _ _ _ Hf).
  - rewrite SFcompare_sval by (split; done).
    pose proof (good_sign _ _ _ Hf) as ->. pose proof (good_sign _ _ _ Hg) as ->.
    destruct (Z.compare_spec e1 e2) as [->|Hlt|Hgt].
    + destruct Hf as (_ & He & _). cbn [sval]. simpl in Hord.
      pose proof (pow2_gt0 (e2 + 1074) ltac:(lia)).
      destruct (Z.compare_spec (Z.pos m1 * 2 ^ (e2 + 1074)) (Z.pos m2 * 2 ^ (e2 + 1074)));
        try done. nia.
    + pose proof (sval_lt_exp _ _ _ _ Hf Hg Hlt) as Hs. cbn [sval].
      by apply Z.compare_lt_iff in Hs as ->.
    + pose proof (ord_lt_exp _ _ _ _ Hg Hf Hgt). lia.
Qed.

Lemma ord_le_sval f g :
  finite_good f -> finite_good g -> ord f <= ord g -> sval f <= sval g.
Proof.
  intros [Hf Hff] [Hg Hgf] Hord.
  destruct f as [s1|s1| |s1 m1 e1]; try done;
    destruct g as [s2|s2| |s2 m2 e2]; try done.
  - pose proof (good_sign _ _ _ Hg) as ->. destruct Hg as (_ & He & _). simpl.
    pose proof (pow2_gt0 (e2 + 1074) ltac:(lia)). nia.
  - pose proof (good_sign _ _ _ Hf) as ->. destruct Hf as (_ & He & _).
    simpl in Hord. lia.
  - pose proof (good_sign _ _ _ Hf) as ->. pose proof (good_sign _ _ _ Hg) as ->.
    destruct (Z.compare_spec e1 e2) as [->|Hlt|Hgt].
    + destruct Hf as (_ & He & _). simpl in *.
      pose proof (pow2_gt0 (e2 + 1074) ltac:(lia)). nia.
    + pose proof (sval_lt_exp _ _ _ _ Hf Hg Hlt). simpl. lia.
    + pose proof (ord_lt_exp _ _ _ _ Hg Hf Hgt). lia.
Qed.

(** *** Multiplication by a literal and conversion from [int] *)

Lemma SFmul_comm x y : F64.mul x y = F64.mul y x.
Proof.
  unfold F64.mul.
  destruct x as [s1|s1| |s1 m1 e1], y as [s2|s2| |s2 m2 e2]; cbn [SFmul];
    try reflexivity; try (by rewrite xorb_comm).
  by rewrite xorb_comm, Pos.mul_comm, Z.add_comm.
Qed.

Lemma SFmul_ord f mc ec :
  finite_good f -> 2 ^ 52 <= Zpos mc -> -57 <= ec ->
  ord (F64.mul f (S754_finite false mc ec)) = ordr (sval f * (Zpos mc * 2 ^ (ec + 57))) /\
  good (F64.mul f (S754_finite false mc ec)).
Proof.
  intros [Hf Hfin] Hmc Hec. unfold F64.mul.
  destruct f as [s|s| |s m e]; try done.
  pose proof (good_sign _ _ _ Hf) as ->. destruct Hf as (_ & He & _).
  cbn [SFmul sval xorb]. rewrite Pos2Z.inj_mul.
  replace (Z.pos m * 2 ^ (e + 1074) * (Z.pos mc * 2 ^ (ec + 57)))
    with (Z.pos m * Z.pos mc * 2 ^ (e + ec + scale)).
  2:{ replace (e + ec + scale) with (e + 1074 + (ec + 57)) by (unfold scale; lia).
      rewrite Z.pow_add_r by lia. lia. }
  rewrite <- Pos2Z.inj_mul. apply binary_round_aux_ord; [unfold scale; lia|].
  rewrite fexp64, Zdigits2_log2, Pos2Z.inj_mul.
  assert (52 + Z.log2 (Z.pos m) <= Z.log2 (Z.pos m * Z.pos mc)) as Hlog.
  { rewrite <- Z.log2_mul_pow2 by lia. apply Z.log2_le_mono. nia. }
  pose proof (Z.log2_nonneg (Z.pos m)). lia.
Qed.


Lemma iter_xO p d : Zpos (Pos.iter xO p d) = Zpos p * 2 ^ Zpos d.
Proof.
  induction d as [|d IH] using Pos.peano_ind.
  - simpl. lia.
  - rewrite Pos.iter_succ, Pos2Z.inj_xO, IH, Pos2Z.inj_succ, Z.pow_succ_r by lia. lia.
Qed.

Lemma of_Z_ord n :
  0 <= n -> ord (F64.of_Z n) = ordr (n * 2 ^ scale) /\ good (F64.of_Z n).
Proof.
  intros Hn. unfold F64.of_Z, binary_normalize.
  destruct n as [|p|p]; [done | | lia].
  unfold binary_round, shl_align.
  change (fexp 53 1024) with (fexp F64.prec F64.emax).
  change (Z.pos (digits2_pos p)) with (Zdigits2 (Zpos p)).
  destruct (fexp F64.prec F64.emax (Zdigits2 (Z.pos p) + 0) - 0) as [|d|d] eqn:Hd.
  - replace (2 ^ scale) with (2 ^ (0 + scale)) by done.
    apply binary_round_aux_ord; [done | lia].
  - replace (2 ^ scale) with (2 ^ (0 + scale)) by done.
    apply binary_round_aux_ord; [done | lia].
  - set (c := fexp F64.prec F64.emax (Zdigits2 (Z.pos p) + 0)) in *.
    assert (-1074 <= c) as Hc by (unfold c; rewrite fexp64; lia).
    assert (Z.pos p * 2 ^ scale = Z.pos (Pos.iter xO p d) * 2 ^ (c + scale)) as ->.
    { rewrite iter_xO, <- Z.mul_assoc, <- Z.pow_add_r by (unfold scale; lia).
      do 2 f_equal. lia. }
    apply binary_round_aux_ord; [unfold scale; lia|].
    rewrite Zdigits2_log2, iter_xO, Z.log2_mul_pow2 by lia.
    replace (Z.pos d + Z.log2 (Z.pos p) + 1 + c) with (Zdigits2 (Z.pos p) + 0)
      by (rewrite Zdigits2_log2; lia).
    fold c. lia.
Qed.

Lemma good_ord_lt_inf f : good f -> ord f < ord_inf -> F64.is_inf f = false.
Proof. destruct f; simpl; try done; lia. Qed.

(** The integers that [float()] accepts. *)
Lemma of_Z_finite n :
  0 <= n < 2 ^ 1024 - 2 ^ 970 -> F64.is_inf (F64.of_Z n) = false.
Proof.
  intros Hn. destruct (of_Z_ord n ltac:(lia)) as [Hord Hgood].
  apply good_ord_lt_inf; [done|]. rewrite Hord.
  eapply Z.le_lt_trans.
  - apply (ordr_mono _ ((2 ^ 1024 - 2 ^ 970 - 1) * 2 ^ scale)); [|].
    + pose proof (pow2_gt0 scale ltac:(done)). nia.
    + pose proof (pow2_gt0 scale ltac:(done)). nia.
  - by vm_compute.
Qed.

(** *** Numbers: order, conversion, rate *)

Lemma lit_0_15_eq : lit_0_15 = S754_finite false 5404319552844595 (-55).
Proof. by vm_compute. Qed.

Lemma lit_0_10_eq : lit_0_10 = S754_finite false 7205759403792794 (-56).
Proof. by vm_compute. Qed.

Lemma lit_0_05_eq : lit_0_05 = S754_finite false 7205759403792794 (-57).
Proof. by vm_compute. Qed.

Lemma sval_nonneg f : 0 <= sval f.
Proof.
  destruct f as [s|s| |s m e]; simpl; try done.
  destruct (pow2_pos (e + 1074)) as [H|[_ ->]]; nia.
Qed.

Lemma num_compare_nval x y :
  fin_nonneg x -> fin_nonneg y -> num_compare x y = Some (nval x ?= nval y).
Proof.
  destruct x as [a|f], y as [b|g]; simpl; intros Hx Hy.
  - by rewrite compare_scaled.
  - by apply compare_Z_sval.
  - rewrite compare_Z_sval by done. simpl. f_equal. symmetry. apply Z.compare_antisym.
  - by apply SFcompare_sval.
Qed.

Lemma num_le_nval x y :
  fin_nonneg x -> fin_nonneg y -> num_le x y = true -> nval x <= nval y.
Proof.
  intros Hx Hy. unfold num_le. rewrite num_compare_nval by done.
  destruct (Z.compare_spec (nval x) (nval y)); try done; lia.
Qed.

Lemma num_gt_nval x k :
  fin_nonneg x -> 0 <= k -> (num_gt x (NInt k) = true <-> k * 2 ^ 1074 < nval x).
Proof.
  intros Hx Hk. unfold num_gt. rewrite num_compare_nval by done. simpl.
  destruct (Z.compare_spec (nval x) (k * 2 ^ 1074)); split; try done; lia.
Qed.

Lemma nval_nonneg x : fin_nonneg x -> 0 <= nval x.
Proof. destruct x as [n|f]; simpl; [lia | intros _; apply sval_nonneg]. Qed.

(** Whatever is at least a non-negative number is non-negative too. *)
Lemma le_nonneg x y :
  in_float_range y -> fin_nonneg x -> num_le x y = true ->
  fin_nonneg y \/ y = NFloat (S754_infinity false).
Proof.
  intros Hy Hx Hle. destruct y as [b|g].
  - left. simpl. destruct (Z.le_gt_cases 0 b) as [|Hneg]; [done|exfalso].
    pose proof (nval_nonneg x Hx) as Hnx. revert Hle. unfold num_le.
    destruct x as [a|f]; simpl in *.
    + destruct (Z.compare_spec a b); try done; lia.
    + rewrite compare_Z_sval by done. simpl.
      destruct (Z.compare_spec (b * 2 ^ 1074) (sval f)); try done; lia.
  - destruct g as [s|s| |s m e].
    + left. by split.
    + destruct s; [exfalso | by right].
      revert Hle. unfold num_le. destruct x as [a|f]; [done|].
      destruct Hx as [Hgood _]. destruct f; simpl in *; subst; done.
    + exfalso. revert Hle. unfold num_le. by destruct x as [a|[| | |]].
    + destruct s.
      * exfalso. revert Hle. unfold num_le. destruct x as [a|f]; simpl in *.
        -- assert (0 < 2 ^ e \/ e < 0) as He by (pose proof (pow2_pos e); lia).
           destruct (Z.leb_spec 0 e).
           ++ destruct (Z.compare_spec a (Z.neg m * 2 ^ e)); try done; nia.
           ++ pose proof (pow2_gt0 (- e) ltac:(lia)).
              destruct (Z.compare_spec (a * 2 ^ (- e)) (Z.neg m)); try done; nia.
        -- destruct Hx as [Hgood _].
           destruct f as [s1|s1| |s1 m1 e1]; simpl in Hgood; try done.
           ++ by subst.
           ++ by destruct Hgood as [-> _].
      * left. split; [by apply valid_good | done].
Qed.

Lemma num_le_inf_l y :
  num_le (NFloat (S754_infinity false)) y = true -> y = NFloat (S754_infinity false).
Proof.
  unfold num_le. destruct y as [b|[s|s| |s m e]]; simpl; try done.
  by destruct s.
Qed.

(** Conversion to [float] of the numbers in range. *)
Lemma to_float_returns x :
  in_float_range x -> fin_nonneg x ->
  exists f, to_float x = Returned f /\ finite_good f /\
            ord f = ordr (nval x * 2 ^ 57).
Proof.
  intros Hr Hx. destruct x as [n|f]; simpl in *.
  - pose proof (of_Z_finite n ltac:(lia)) as Hfin. rewrite Hfin.
    destruct (of_Z_ord n Hx) as [Hord Hgood].
    exists (F64.of_Z n). split; [done|]. split; [done|].
    rewrite Hord, <- Z.mul_assoc, <- Z.pow_add_r by lia. reflexivity.
  - exists f. split; [done|]. split; [done|]. by apply ord_good.
Qed.

Lemma discount_rate_cases x :
  (discount_rate x = lit_0_15 \/ discount_rate x = lit_0_10 \/
   discount_rate x = lit_0_05).
Proof.
  unfold discount_rate. destruct (num_gt x (NInt 100)); [by left|].
  destruct (num_gt x (NInt 50)); [right; by left | right; by right].
Qed.

Lemma discount_rate_lit x :
  exists mc ec, discount_rate x = S754_finite false mc ec /\
                2 ^ 52 <= Zpos mc /\ -57 <= ec.
Proof.
  destruct (discount_rate_cases x) as [-> | [-> | ->]].
  - rewrite lit_0_15_eq. by eexists _, _.
  - rewrite lit_0_10_eq. by eexists _, _.
  - rewrite lit_0_05_eq. by eexists _, _.
Qed.

Lemma discount_rate_mono x y :
  fin_nonneg x -> fin_nonneg y -> nval x <= nval y ->
  lit_scaled (discount_rate x) <= lit_scaled (discount_rate y).
Proof.
  intros Hx Hy Hle. unfold discount_rate.
  pose proof (num_gt_nval x 100 Hx ltac:(done)) as Hx100.
  pose proof (num_gt_nval x 50 Hx ltac:(done)) as Hx50.
  pose proof (num_gt_nval y 100 Hy ltac:(done)) as Hy100.
  pose proof (num_gt_nval y 50 Hy ltac:(done)) as Hy50.
  rewrite lit_0_15_eq, lit_0_10_eq, lit_0_05_eq.
  destruct (num_gt x (NInt 100)), (num_gt x (NInt 50)),
    (num_gt y (NInt 100)), (num_gt y (NInt 50)); try done.
  all: exfalso;
    repeat match goal with
           | H : true = true <-> _ |- _ => destruct H as [H _]; specialize (H eq_refl)
           | H : false = true <-> _ |- _ =>
               let H' := fresh in
               destruct H as [_ H];
               assert (H' := fun h => eq_ind false (fun b => if b then False else True) I true (H h));
               clear H
           end; lia.
Qed.

Lemma discount_rate_le x :
  lit_scaled (discount_rate x) <= lit_scaled lit_0_15.
Proof.
  destruct (discount_rate_cases x) as [-> | [-> | ->]];
    rewrite ?lit_0_15_eq, ?lit_0_10_eq, ?lit_0_05_eq; done.
Qed.

Lemma lit_scaled_nonneg c : 0 <= lit_scaled c.
Proof.
  destruct c as [s|s| |s m e]; simpl; try done.
  destruct (pow2_pos (e + 57)) as [H|[_ ->]]; nia.
Qed.

(** The discount on a finite non-negative float. *)
Lemma discount_ord x f :
  finite_good f ->
  ord (F64.mul f (discount_rate x)) = ordr (sval f * lit_scaled (discount_rate x)) /\
  good (F64.mul f (discount_rate x)).
Proof.
  intros Hf. destruct (discount_rate_lit x) as (mc & ec & -> & Hmc & Hec).
  by apply SFmul_ord.
Qed.

Lemma discount_inf x : F64.mul (S754_infinity false) (discount_rate x) = S754_infinity false.
Proof. by destruct (discount_rate_lit x) as (mc & ec & -> & _). Qed.

(** *** Running the discount *)

Lemma run_py_mul_float_r p x f c w :
  as_num p = Some x -> to_float x = Returned f ->
  run (py_mul p (VFloat c)) w = (Returned (VFloat (F64.mul f c)), w).
Proof.
  intros Hp Hf. unfold py_mul. rewrite Hp. simpl as_num.
  unfold run, lift, num_mul, float_binop. rewrite Hf. by destruct x.
Qed.

Lemma run_py_mul_float_l p x f c w :
  as_num p = Some x -> to_float x = Returned f ->
  run (py_mul (VFloat c) p) w = (Returned (VFloat (F64.mul c f)), w).
Proof.
  intros Hp Hf. unfold py_mul. rewrite Hp. simpl as_num.
  unfold run, lift, num_mul, float_binop. simpl to_float at 1. by rewrite Hf.
Qed.

Lemma run_calculate_discount p x f w :
  as_num p = Some x -> to_float x = Returned f ->
  run (calculate_discount p) w =
  (Returned (VFloat (F64.mul f (discount_rate x))), w).
Proof.
  intros Hp Hf. unfold calculate_discount, py_gt_int, discount_rate. rewrite Hp.
  rewrite run_bind, run_ret.
  destruct (num_gt x (NInt 100)); [by apply run_py_mul_float_r with x|].
  rewrite run_bind, run_ret.
  destruct (num_gt x (NInt 50)); by apply run_py_mul_float_r with x.
Qed.

(** A non-negative number in range converts to a good float; its
    discount is a good float, at least 0 and at most 0.15 times it. *)
Lemma discount_bounds x :
  in_float_range x ->
  fin_nonneg x \/ x = NFloat (S754_infinity false) ->
  exists f, to_float x = Returned f /\
    good (F64.mul f (discount_rate x)) /\
    SFleb (S754_zero false) (F64.mul f (discount_rate x)) = true /\
    SFleb (F64.mul f (discount_rate x)) (F64.mul lit_0_15 f) = true.
Proof.
  intros Hr [Hx | ->].
  - destruct (to_float_returns x Hr Hx) as (f & Hf & Hfg & Hord).
    exists f. split; [done|].
    destruct (discount_ord x f Hfg) as [Hd Hgood]. split; [done|]. split.
    + apply ord_le_SFleb; [done | done |]. simpl. by apply ord_nonneg.
    + rewrite (SFmul_comm lit_0_15 f).
      assert (ord (F64.mul f lit_0_15) = ordr (sval f * lit_scaled lit_0_15) /\
              good (F64.mul f lit_0_15)) as [Hu Hgu].
      { rewrite lit_0_15_eq. by apply SFmul_ord. }
      apply ord_le_SFleb; [done | done |]. rewrite Hd, Hu.
      pose proof (sval_nonneg f). pose proof (lit_scaled_nonneg (discount_rate x)).
      pose proof (discount_rate_le x).
      apply ordr_mono; nia.
  - exists (S754_infinity false). split; [done|].
    rewrite discount_inf. rewrite lit_0_15_eq. done.
Qed.

Lemma discount_le x1 x2 f1 f2 :
  in_float_range x1 -> in_float_range x2 ->
  fin_nonneg x1 \/ x1 = NFloat (S754_infinity false) ->
  num_le x1 x2 = true ->
  to_float x1 = Returned f1 -> to_float x2 = Returned f2 ->
  SFleb (F64.mul f1 (discount_rate x1)) (F64.mul f2 (discount_rate x2)) = true.
Proof.
  intros Hr1 Hr2 [Hx1 | ->] Hle Hf1 Hf2.
  - destruct (to_float_returns x1 Hr1 Hx1) as (f1' & Hf1' & Hfg1 & Hord1).
    rewrite Hf1 in Hf1'. injection Hf1' as <-.
    destruct (discount_ord x1 f1 Hfg1) as [Hd1 Hgood1].
    destruct (le_nonneg x1 x2 Hr2 Hx1 Hle) as [Hx2 | ->].
    + destruct (to_float_returns x2 Hr2 Hx2) as (f2' & Hf2' & Hfg2 & Hord2).
      rewrite Hf2 in Hf2'. injection Hf2' as <-.
      destruct (discount_ord x2 f2 Hfg2) as [Hd2 Hgood2].
      apply ord_le_SFleb; [done | done |]. rewrite Hd1, Hd2.
      pose proof (num_le_nval x1 x2 Hx1 Hx2 Hle) as Hn.
      pose proof (nval_nonneg x1 Hx1) as Hn1.
      assert (sval f1 <= sval f2) as Hs.
      { apply ord_le_sval; [done | done |]. rewrite Hord1, Hord2.
        apply ordr_mono; lia. }
      pose proof (discount_rate_mono x1 x2 Hx1 Hx2 Hn).
      pose proof (sval_nonneg f1). pose proof (lit_scaled_nonneg (discount_rate x1)).
      apply ordr_mono; nia.
    + injection Hf2 as <-. rewrite discount_inf.
      apply ord_le_SFleb; [done | done |]. simpl. rewrite Hd1. apply ordr_le_inf.
  - apply num_le_inf_l in Hle as ->. injection Hf1 as <-. injection Hf2 as <-.
    by rewrite discount_inf.
Qed.

(** A good float is at least the integer 0. *)
Lemma num_le_0_good d : good d -> num_le (NInt 0) (NFloat d) = true.
Proof.
  intros Hg. unfold num_le, num_compare, F64.compare_Z.
  destruct d as [s|s| |s m e]; try done.
  - simpl in Hg. by subst.
  - destruct Hg as (-> & He & _). destruct (Z.leb_spec 0 e) as [H0|H0]; [|done].
    pose proof (pow2_gt0 e H0).
    destruct (Z.compare_spec 0 (Z.pos m * 2 ^ e)); try done; nia.
Qed.

(** ** Completion on well-formed input *)

Lemma to_float_cases x :
  (exists f, to_float x = Returned f) \/ to_float x = Raised OverflowError.
Proof. destruct x as [n|f]; simpl; [destruct (F64.is_inf _)|]; eauto. Qed.

Lemma float_binop_ok op x y : number_or_overflow (float_binop op x y).
Proof.
  unfold float_binop.
  destruct (to_float_cases x) as [[f ->] | ->]; [|done].
  destruct (to_float_cases y) as [[g ->] | ->]; [|done].
  by eexists.
Qed.

Lemma num_add_ok x y : number_or_overflow (num_add x y).
Proof. destruct x, y; simpl; first [by eexists | apply float_binop_ok]. Qed.

Lemma num_mul_ok x y : number_or_overflow (num_mul x y).
Proof. destruct x, y; simpl; first [by eexists | apply float_binop_ok]. Qed.

Lemma to_float_2 : to_float (NInt 2) = Returned (S754_finite false 4503599627370496 (-51)).
Proof. by vm_compute. Qed.

Lemma num_truediv_2_ok x : number_or_overflow (num_truediv x (NInt 2)).
Proof.
  destruct x as [a|f].
  - simpl. destruct (F64.is_inf _); [done | by eexists].
  - unfold num_truediv. rewrite to_float_2. simpl. by eexists.
Qed.

Lemma run_py_add_num a b x y w :
  as_num a = Some x -> as_num b = Some y -> run (py_add a b) w = (num_add x y, w).
Proof. intros Ha Hb. unfold py_add. by rewrite Ha, Hb. Qed.

Lemma run_py_mul_num a b x y w :
  as_num a = Some x -> as_num b = Some y -> run (py_mul a b) w = (num_mul x y, w).
Proof. intros Ha Hb. unfold py_mul. by rewrite Ha, Hb. Qed.

Lemma run_py_truediv_num a b x y w :
  as_num a = Some x -> as_num b = Some y ->
  run (py_truediv a b) w = (num_truediv x y, w).
Proof. intros Ha Hb. unfold py_truediv. by rewrite Ha, Hb. Qed.


(** The sign of an integer plays no part in whether it converts. *)
Lemma binary_round_aux_is_inf sx m e l :
  F64.is_inf (binary_round_aux F64.prec F64.emax sx m e l) =
  F64.is_inf (binary_round_aux F64.prec F64.emax false m e l).
Proof.
  unfold binary_round_aux. destruct (shr_fexp _ _ m e l) as [mrs' e'].
  destruct (shr_fexp _ _ _ e' loc_Exact) as [mrs'' e''].
  destruct (shr_m mrs''); try done. by destruct (e'' <=? _).
Qed.

Lemma of_Z_opp_is_inf n : F64.is_inf (F64.of_Z (- n)) = F64.is_inf (F64.of_Z n).
Proof.
  destruct n as [|p|p]; [done | change (- Z.pos p) with (Z.neg p)
                              | change (- Z.neg p) with (Z.pos p)];
    unfold F64.of_Z, binary_normalize, binary_round;
    destruct (shl_align _ _ _) as [mz ez].
  - apply binary_round_aux_is_inf.
  - symmetry. apply binary_round_aux_is_inf.
Qed.

Lemma to_float_in_range x : in_float_range x -> exists f, to_float x = Returned f.
Proof.
  destruct x as [n|f]; simpl; [|by eexists]. intros Hn.
  assert (F64.is_inf (F64.of_Z n) = false) as ->; [|by eexists].
  destruct (Z.le_gt_cases 0 n).
  - apply of_Z_finite. lia.
  - rewrite <- (Z.opp_involutive n), of_Z_opp_is_inf. apply of_Z_finite. lia.
Qed.




Lemma sum_left_number pqs total w :
  Forall number_pair pqs -> is_number total ->
  exists r, run (sum_left total ((fun pq => py_mul pq.1 pq.2) <$> pqs)) w = (r, w) /\
            number_or_overflow r.
Proof.
  intros Hpqs. revert total. induction Hpqs as [|[p q] pqs [[np Hp] [nq Hq]] _ IH];
    intros total Htotal.
  - by exists (Returned total).
  - rewrite fmap_cons, sum_left_cons. simpl in Hp, Hq. cbn [fst snd].
    rewrite run_bind, (run_py_mul_num p q np nq w Hp Hq).
    pose proof (num_mul_ok np nq) as Hmul.
    destruct (num_mul np nq) as [pq|e]; simpl in Hmul; [|subst; by eexists].
    destruct Hmul as [npq Hpq]. destruct Htotal as [nt Ht]. cbv beta iota.
    rewrite run_bind, (run_py_add_num total pq nt npq w Ht Hpq).
    pose proof (num_add_ok nt npq) as Hadd.
    destruct (num_add nt npq) as [acc|e]; simpl in Hadd; [|subst; by eexists].
    cbv beta iota. by apply IH.
Qed.





(** *** Computations that return on a given store *)















(** ** The functions on concrete inputs *)

(** [calculate_discount(200) == 30.0], [calculate_discount(100) == 10.0],
    [calculate_discount(50) == 2.5]. *)
Example calculate_discount_200 :
  run (calculate_discount (VInt 200)) (World ∅ []) =
  (Returned (VFloat (S754_finite false 8444249301319680 (-48))), World ∅ []).
Proof. by vm_compute. Qed.

Example calculate_discount_100 :
  run (calculate_discount (VInt 100)) (World ∅ []) =
  (Returned (VFloat (S754_finite false 5629499534213120 (-49))), World ∅ []).
Proof. by vm_compute. Qed.

Example calculate_discount_50 :
  run (calculate_discount (VInt 50)) (World ∅ []) =
  (Returned (VFloat (S754_finite false 5629499534213120 (-51))), World ∅ []).
Proof. by vm_compute. Qed.

(** [calculate_discount("a")] raises [TypeError]. *)
Example calculate_discount_str :
  run (calculate_discount (VStr "a")) (World ∅ []) = (Raised TypeError, World ∅ []).
Proof. reflexivity. Qed.

(** [do_work(1, 2, 3) == 4.5]; [do_work("a", "b", 3)] raises [TypeError]
    at the division of ["ababab"] by 2. *)
Example do_work_1_2_3 :
  run (do_work (VInt 1) (VInt 2) (VInt 3)) (World ∅ []) =
  (Returned (VFloat (S754_finite false 5066549580791808 (-50))), World ∅ []).
Proof. by vm_compute. Qed.

Example do_work_str :
  run (do_work (VStr "a") (VStr "b") (VInt 3)) (World ∅ []) =
  (Raised TypeError, World ∅ []).
Proof. reflexivity. Qed.

(** One order with two variations, of prices 101 and 99. *)
Example process_order_prints :
  let h : gmap loc obj :=
    list_to_map
      [ (1%positive, OList [VRef 2%positive]);
        (2%positive, ODict [(VStr "variations", VRef 3%positive)]);
        (3%positive, OList [VRef 4%positive; VRef 5%positive]);
        (4%positive, ODict [(VStr "price", VInt 101)]);
        (5%positive, ODict [(VStr "price", VInt 99)]) ] in
  run (process_order (VInt 7) (VStr "Ann") (VStr "a@b.c") (VStr "555")
         (VStr "Main St") VNone VNone VNone (VRef 1%positive) VNone VNone)
      (World h []) =
  (Returned (VBool true),
   World h ["Processing order..."; "Expensive item"]%string).
Proof. by vm_compute. Qed.

(** With an empty [email] the items are not looked at, whatever they are. *)
Example process_order_short_circuit :
  run (process_order (VInt 7) (VStr "Ann") (VStr EmptyString) (VStr "555")
         (VStr "Main St") VNone VNone VNone (VInt 0) VNone VNone)
      (World ∅ []) =
  (Returned (VBool true), World ∅ ["Processing order..."%string]).
Proof. reflexivity. Qed.

(** An item without the key ['quantity'] raises [KeyError]. *)
Example calculate_total_missing_key :
  (run (calculate_total_a (VRef 1%positive))
     (World (list_to_map
        [ (1%positive, OList [VRef 2%positive]);
          (2%positive, ODict [(VStr "price", VInt 3)]) ]) [])).1 =
  Raised KeyError.
Proof. reflexivity. Qed.

(** * The specified properties *)

(** ** C1: the discount by ranges *)

(** C1. For a numeric [price], [calculate_discount(price)] is
    [price * 0.15] when [price > 100], [price * 0.10] when
    [50 < price <= 100], and [price * 0.05] otherwise; what is returned
    is the float product of [float(price)] and that rate. *)
Theorem calculate_discount_cases (price : value) (x : num) (w : world) :
  as_num price = Some x ->
  run (calculate_discount price) w =
    (if num_gt x (NInt 100) then run (py_mul price (VFloat lit_0_15)) w
     else if num_gt x (NInt 50) && num_le x (NInt 100)
          then run (py_mul price (VFloat lit_0_10)) w
          else run (py_mul price (VFloat lit_0_05)) w) /\
  forall f : spec_float, to_float x = Returned f ->
    run (calculate_discount price) w =
      (Returned (VFloat (F64.mul f
         (if num_gt x (NInt 100) then lit_0_15
          else if num_gt x (NInt 50) && num_le x (NInt 100) then lit_0_10
               else lit_0_05))), w).
Proof.
  intros Hx. split.
  - unfold calculate_discount, py_gt_int. rewrite Hx.
    rewrite run_bind, run_ret.
    destruct (num_gt x (NInt 100)) eqn:H100; [done|].
    rewrite run_bind, run_ret.
    destruct (num_gt x (NInt 50)) eqn:H50; [|done].
    by rewrite (num_gt_not_gt_le x 50 100 H50 H100).
  - intros f Hf. rewrite (run_calculate_discount price x f w Hx Hf).
    unfold discount_rate.
    destruct (num_gt x (NInt 100)) eqn:H100; [done|].
    destruct (num_gt x (NInt 50)) eqn:H50; [|done].
    by rewrite (num_gt_not_gt_le x 50 100 H50 H100).
Qed.

Lemma calculate_discount_cases_witness :
  run (calculate_discount (VInt 80)) (World ∅ []) =
    run (py_mul (VInt 80) (VFloat lit_0_10)) (World ∅ []) /\
  forall f : spec_float, to_float (NInt 80) = Returned f ->
    run (calculate_discount (VInt 80)) (World ∅ []) =
      (Returned (VFloat (F64.mul f lit_0_10)), World ∅ []).
Proof.
  apply (calculate_discount_cases (VInt 80) (NInt 80) (World ∅ [])).
  reflexivity.
Defined.

(** ** C2, C3: the two totals *)

(** C2. [calculate_total_a] and [calculate_total_b] agree on every
    argument: same result, same world afterwards. *)
Theorem calculate_total_a_b_equal (items : value) (w : world) :
  run (calculate_total_a items) w = run (calculate_total_b items) w.
Proof. reflexivity. Qed.

(** C3. On a list of items that each have the keys ['price'] and
    ['quantity'], [calculate_total_a] and [calculate_total_b] both give the
    sum, taken over the list in order, of [item['price'] * item['quantity']];
    when prices and quantities are integers this is the exact integer
    sum of the products. *)
Theorem calculate_total_is_sum
    (items : value) (pqs : list (value * value)) (w : world) :
  items_hold w items pqs ->
  run (calculate_total_a items) w = run (sum_of_products pqs) w /\
  run (calculate_total_b items) w = run (sum_of_products pqs) w /\
  forall zs : list (Z * Z), pqs = int_pair <$> zs ->
    run (calculate_total_a items) w = (Returned (VInt (Zsum_of_products zs)), w) /\
    run (calculate_total_b items) w = (Returned (VInt (Zsum_of_products zs)), w).
Proof.
  intros Hitems.
  pose proof (run_calculate_total_a items pqs w Hitems) as Ha.
  assert (run (calculate_total_b items) w = run (sum_of_products pqs) w) as Hb
    by exact Ha.
  split; [exact Ha|]. split; [exact Hb|].
  intros zs ->. rewrite Ha, Hb.
  unfold sum_of_products. by rewrite sum_left_ints.
Qed.

Lemma calculate_total_is_sum_witness :
  run (calculate_total_a (VRef 1%positive))
    (World (list_to_map
       [ (1%positive, OList [VRef 2%positive; VRef 3%positive]);
         (2%positive, ODict [(VStr "price", VInt 3); (VStr "quantity", VInt 4)]);
         (3%positive, ODict [(VStr "quantity", VInt 2); (VStr "price", VInt 5)]) ])
       []) =
  (Returned (VInt 22),
   World (list_to_map
       [ (1%positive, OList [VRef 2%positive; VRef 3%positive]);
         (2%positive, ODict [(VStr "price", VInt 3); (VStr "quantity", VInt 4)]);
         (3%positive, ODict [(VStr "quantity", VInt 2); (VStr "price", VInt 5)]) ])
       []).
Proof.
  refine (proj1 (proj2 (proj2
    (calculate_total_is_sum (VRef 1%positive) (int_pair <$> [(3, 4); (5, 2)]) _ _))
    [(3, 4); (5, 2)] eq_refl)).
  exists 1%positive, [VRef 2%positive; VRef 3%positive].
  split; [reflexivity|]. split; [reflexivity|].
  repeat constructor; eexists _, _; repeat split; reflexivity.
Defined.

(** ** C4: the arithmetic helper *)

(** C4. [do_work(x, y, z)] is [(x + y) * z / 2]: on any three values it
    behaves as that expression does; on integers the result is the
    quotient of [(x + y) * z] by 2 rounded to a float, on floats it is the
    float sum times [z], divided by 2.0. *)
Theorem do_work_formula :
  (forall (x y z : value) (w : world),
     run (do_work x y z) w =
     run (s ← py_add x y; p ← py_mul s z; py_truediv p (VInt 2)) w) /\
  (forall (a b c : Z) (w : world),
     run (do_work (VInt a) (VInt b) (VInt c)) w =
     (if F64.is_inf (F64.div_Z ((a + b) * c) 2) then Raised OverflowError
      else Returned (VFloat (F64.div_Z ((a + b) * c) 2)), w)) /\
  (forall (f g k : spec_float) (w : world),
     run (do_work (VFloat f) (VFloat g) (VFloat k)) w =
     (Returned (VFloat (F64.div (F64.mul (F64.add f g) k) (F64.of_Z 2))), w)).
Proof.
  split; [|split].
  - intros x y z w. unfold do_work. rewrite !run_bind.
    destruct (run (py_add x y) w) as [[s|e] w1]; [|done].
    rewrite !run_bind.
    destruct (run (py_mul s z) w1) as [[p|e] w2]; [|done].
    apply bind_ret_r.
  - intros a b c w. unfold do_work, run. simpl.
    unfold mbind, M_bind, lift. simpl.
    by destruct (F64.is_inf _).
  - intros f g k w. reflexivity.
Qed.

(** ** C5: the class *)

(** C5. The class [OrderManager] has 21 methods, with distinct names;
    each of them, on any instance, returns [None] and leaves the world,
    the instance's attributes included, as it was. *)
Theorem OrderManager_methods_do_nothing :
  length OrderManager.methods = 21%nat /\
  NoDup (OrderManager.methods.*1) /\
  Forall (fun m => forall (self : value) (w : world),
                     run (m.2 self) w = (Returned VNone, w))
    OrderManager.methods.
Proof.
  split; [reflexivity|]. split; [|apply methods_pass].
  apply (bool_decide_unpack _). vm_compute. exact I.
Qed.

(** ** C8: the order-processing function *)

Lemma process_order_body_reads_only
    (order_id customer_name email phone address items : value) :
  reads_only "Expensive item" (
    c1 ← py_truthy order_id;
    when c1 (
      c2 ← py_truthy customer_name;
      when c2 (
        c3 ← py_truthy email;
        when c3 (
          c4 ← py_truthy phone;
          when c4 (
            c5 ← py_truthy address;
            when c5 (
              xs ← py_iter items;
              for_each xs (fun item =>
                vars ← py_getitem item "variations";
                vs ← py_iter vars;
                for_each vs (fun variation =>
                  p ← py_getitem variation "price";
                  c ← py_gt_int p 100;
                  when c (print "Expensive item"))))))))).
Proof. repeat reads_only_step. Qed.




(** ** C9: monotonicity of the discount *)

(** C9, as amended. For prices [p1], [p2] that are binary64 floats or
    integers of magnitude below [2^1024 - 2^970] (those that convert to
    [float] without overflow), if [0 <= p1 <= p2] then both discounts are
    returned and [calculate_discount(p1) <= calculate_discount(p2)];
    moreover each discount [d] of such a price [p] satisfies
    [0 <= d <= 0.15 * p]. *)
Theorem calculate_discount_monotone
    (p1 p2 : value) (x1 x2 : num) (w : world) :
  as_num p1 = Some x1 -> as_num p2 = Some x2 ->
  in_float_range x1 -> in_float_range x2 ->
  num_le (NInt 0) x1 = true -> num_le x1 x2 = true ->
  exists d1 d2 u1 u2 : spec_float,
    run (calculate_discount p1) w = (Returned (VFloat d1), w) /\
    run (calculate_discount p2) w = (Returned (VFloat d2), w) /\
    run (py_mul (VFloat lit_0_15) p1) w = (Returned (VFloat u1), w) /\
    run (py_mul (VFloat lit_0_15) p2) w = (Returned (VFloat u2), w) /\
    num_le (NFloat d1) (NFloat d2) = true /\
    num_le (NInt 0) (NFloat d1) = true /\ num_le (NFloat d1) (NFloat u1) = true /\
    num_le (NInt 0) (NFloat d2) = true /\ num_le (NFloat d2) (NFloat u2) = true.
Proof.
  intros Hp1 Hp2 Hr1 Hr2 H0 H12.
  pose proof (le_nonneg (NInt 0) x1 Hr1 ltac:(done) H0) as Hx1.
  assert (fin_nonneg x2 \/ x2 = NFloat (S754_infinity false)) as Hx2.
  { destruct Hx1 as [Hx1 | ->]; [by apply le_nonneg with x1|].
    right. by apply num_le_inf_l. }
  destruct (discount_bounds x1 Hr1 Hx1) as (f1 & Hf1 & Hg1 & _ & Hu1).
  destruct (discount_bounds x2 Hr2 Hx2) as (f2 & Hf2 & Hg2 & _ & Hu2).
  exists (F64.mul f1 (discount_rate x1)), (F64.mul f2 (discount_rate x2)),
    (F64.mul lit_0_15 f1), (F64.mul lit_0_15 f2).
  split; [by apply run_calculate_discount|].
  split; [by apply run_calculate_discount|].
  split; [by apply run_py_mul_float_l with x1|].
  split; [by apply run_py_mul_float_l with x2|].
  split; [by apply discount_le|].
  split; [by apply num_le_0_good|]. split; [exact Hu1|].
  split; [by apply num_le_0_good | exact Hu2].
Qed.

Lemma calculate_discount_monotone_witness :
  exists d1 d2 u1 u2 : spec_float,
    run (calculate_discount (VInt 80)) (World ∅ []) =
      (Returned (VFloat d1), World ∅ []) /\
    run (calculate_discount (VFloat (F64.of_Z 120))) (World ∅ []) =
      (Returned (VFloat d2), World ∅ []) /\
    run (py_mul (VFloat lit_0_15) (VInt 80)) (World ∅ []) =
      (Returned (VFloat u1), World ∅ []) /\
    run (py_mul (VFloat lit_0_15) (VFloat (F64.of_Z 120))) (World ∅ []) =
      (Returned (VFloat u2), World ∅ []) /\
    num_le (NFloat d1) (NFloat d2) = true /\
    num_le (NInt 0) (NFloat d1) = true /\ num_le (NFloat d1) (NFloat u1) = true /\
    num_le (NInt 0) (NFloat d2) = true /\ num_le (NFloat d2) (NFloat u2) = true.
Proof.
  apply (calculate_discount_monotone (VInt 80) (VFloat (F64.of_Z 120))
           (NInt 80) (NFloat (F64.of_Z 120)) (World ∅ []));
    vm_compute; reflexivity.
Defined.

(** C9 fails as stated, for all prices: the integer [2^1024 - 2^970] is
    a price above 0, and its discount is an [OverflowError], not a
    value that the discount of 0 could be compared with. *)
Lemma calculate_discount_monotone_counterexample :
  num_le (NInt 0) (NInt 0) = true /\
  num_le (NInt 0) (NInt (2 ^ 1024 - 2 ^ 970)) = true /\
  run (calculate_discount (VInt (2 ^ 1024 - 2 ^ 970))) (World ∅ []) =
    (Raised OverflowError, World ∅ []) /\
  ~ exists (d1 d2 : spec_float) (w1 w2 : world),
      run (calculate_discount (VInt 0)) (World ∅ []) = (Returned (VFloat d1), w1) /\
      run (calculate_discount (VInt (2 ^ 1024 - 2 ^ 970))) (World ∅ []) =
        (Returned (VFloat d2), w2) /\
      num_le (NFloat d1) (NFloat d2) = true.
Proof.
  assert (run (calculate_discount (VInt (2 ^ 1024 - 2 ^ 970))) (World ∅ []) =
          (Raised OverflowError, World ∅ [])) as Hrun by (by vm_compute).
  split; [by vm_compute|]. split; [by vm_compute|]. split; [exact Hrun|].
  intros (d1 & d2 & w1 & w2 & _ & H2 & _). rewrite Hrun in H2. discriminate.
Qed.

(** ** C10: the empty collection *)

(** C10. On an empty items collection (an iterable that yields nothing)
    both totals return the integer 0. *)
Theorem calculate_total_empty (items : value) (w : world) :
  (run (py_iter items) w).1 = Returned [] ->
  run (calculate_total_a items) w = (Returned (VInt 0), w) /\
  run (calculate_total_b items) w = (Returned (VInt 0), w).
Proof.
  intros Hiter. pose proof (py_iter_world items w) as Hw.
  destruct (run (py_iter items) w) as [r w1] eqn:Hrun. simpl in *. subst r w1.
  unfold calculate_total_a, calculate_total_b.
  rewrite !(run_bind_returned _ _ _ _ _ Hrun). simpl. done.
Qed.

Lemma calculate_total_empty_witness :
  run (calculate_total_a (VRef 1%positive))
      (World {[ 1%positive := OList [] ]} []) =
    (Returned (VInt 0), World {[ 1%positive := OList [] ]} []) /\
  run (calculate_total_b (VRef 1%positive))
      (World {[ 1%positive := OList [] ]} []) =
    (Returned (VInt 0), World {[ 1%positive := OList [] ]} []).
Proof.
  apply (calculate_total_empty (VRef 1%positive)
           (World {[ 1%positive := OList [] ]} [])).
  reflexivity.
Defined.

(** * Further properties of the module *)

(** ** The discount: outcomes by kind of price *)

Lemma run_calculate_discount_none price w :
  as_num price = None -> run (calculate_discount price) w = (Raised TypeError, w).
Proof. intros Hp. unfold calculate_discount, py_gt_int. by rewrite Hp. Qed.

Lemma run_calculate_discount_overflow price x w :
  as_num price = Some x -> to_float x = Raised OverflowError ->
  run (calculate_discount price) w = (Raised OverflowError, w).
Proof.
  intros Hx Hf. unfold calculate_discount, py_gt_int. rewrite Hx.
  assert (forall c, run (py_mul price (VFloat c)) w = (Raised OverflowError, w)) as Hmul.
  { intros c. rewrite (run_py_mul_num _ _ x (NFloat c)) by done.
    unfold num_mul, float_binop. rewrite Hf. by destruct x. }
  rewrite run_bind, run_ret. destruct (num_gt x (NInt 100)); [done|].
  rewrite run_bind, run_ret. by destruct (num_gt x (NInt 50)).
Qed.

(** X1. A price that is not a number ([None], a string, a list, a dict,
    an instance) makes [calculate_discount] raise [TypeError] at the
    first comparison, with nothing printed and the store untouched. *)
Theorem calculate_discount_not_number (price : value) (w : world) :
  as_num price = None ->
  run (calculate_discount price) w = (Raised TypeError, w).
Proof.
  apply run_calculate_discount_none.
Qed.

Lemma calculate_discount_not_number_witness :
  run (calculate_discount (VStr "free")) (World ∅ []) = (Raised TypeError, World ∅ []).
Proof.
  apply (calculate_discount_not_number (VStr "free") (World ∅ [])). reflexivity.
Defined.

Lemma good_ord_inf f : good f -> ord f = ord_inf -> F64.is_inf f = true.
Proof.
  destruct f as [s|s| |s m e]; simpl; try done.
  intros Hg. pose proof (ord_finite_lt_inf s m e Hg) as Hlt. simpl in Hlt. lia.
Qed.

Lemma of_Z_overflow n :
  2 ^ 1024 - 2 ^ 970 <= n -> F64.is_inf (F64.of_Z n) = true.
Proof.
  intros Hn. destruct (of_Z_ord n ltac:(lia)) as [Hord Hgood].
  apply good_ord_inf; [done|]. rewrite Hord.
  apply Z.le_antisymm; [apply ordr_le_inf|].
  assert (ordr ((2 ^ 1024 - 2 ^ 970) * 2 ^ scale) = ord_inf) as <- by (by vm_compute).
  pose proof (pow2_gt0 scale ltac:(done)). apply ordr_mono; nia.
Qed.

Lemma of_Z_is_inf_iff n :
  F64.is_inf (F64.of_Z n) = true <-> 2 ^ 1024 - 2 ^ 970 <= Z.abs n.
Proof.
  destruct (Z.le_gt_cases 0 n) as [Hn|Hn].
  - rewrite Z.abs_eq by done. split.
    + intros Hinf. destruct (Z.le_gt_cases (2 ^ 1024 - 2 ^ 970) n) as [|Hlt]; [done|].
      rewrite of_Z_finite in Hinf by lia. done.
    + apply of_Z_overflow.
  - rewrite Z.abs_neq by lia. rewrite <- (Z.opp_involutive n) at 1.
    rewrite of_Z_opp_is_inf. split.
    + intros Hinf. destruct (Z.le_gt_cases (2 ^ 1024 - 2 ^ 970) (- n)) as [|Hlt]; [done|].
      rewrite of_Z_finite in Hinf by lia. done.
    + apply of_Z_overflow.
Qed.

(** X2. On an [int] price [calculate_discount] raises [OverflowError]
    exactly when the magnitude of the price is at least
    [2^1024 - 2^970], and returns a float exactly when it is below. *)
Theorem calculate_discount_int_overflow (n : Z) (w : world) :
  (run (calculate_discount (VInt n)) w = (Raised OverflowError, w) <->
   2 ^ 1024 - 2 ^ 970 <= Z.abs n) /\
  ((exists d, run (calculate_discount (VInt n)) w = (Returned (VFloat d), w)) <->
   Z.abs n < 2 ^ 1024 - 2 ^ 970).
Proof.
  pose proof (of_Z_is_inf_iff n) as Hiff.
  destruct (Z.le_gt_cases (2 ^ 1024 - 2 ^ 970) (Z.abs n)) as [Hge|Hlt].
  - assert (to_float (NInt n) = Raised OverflowError) as Hf.
    { unfold to_float. by rewrite (proj2 Hiff Hge). }
    rewrite (run_calculate_discount_overflow (VInt n) (NInt n) w eq_refl Hf).
    split; [done|]. split; [by intros [d Hd] | lia].
  - assert (F64.is_inf (F64.of_Z n) = false) as Hinf.
    { destruct (F64.is_inf (F64.of_Z n)); [|done].
      pose proof (proj1 Hiff eq_refl). lia. }
    assert (to_float (NInt n) = Returned (F64.of_Z n)) as Hf
      by (unfold to_float; by rewrite Hinf).
    rewrite (run_calculate_discount (VInt n) (NInt n) _ w eq_refl Hf).
    split; [split; [done | lia] | split; [done | by eexists]].
Qed.

Lemma calculate_discount_int_overflow_witness :
  run (calculate_discount (VInt (2 ^ 1024))) (World ∅ []) =
    (Raised OverflowError, World ∅ []) /\
  exists d, run (calculate_discount (VInt (- 2 ^ 1000))) (World ∅ []) =
    (Returned (VFloat d), World ∅ []).
Proof.
  split.
  - apply (proj1 (calculate_discount_int_overflow (2 ^ 1024) (World ∅ []))).
    vm_compute. discriminate.
  - apply (proj2 (calculate_discount_int_overflow (- 2 ^ 1000) (World ∅ []))).
    vm_compute. reflexivity.
Defined.

(** X3. For a price that is an [int], a [bool] or a [float], whatever
    [calculate_discount] returns is a float (also for an [int] or a
    [bool] price), and the world is as before. *)
Theorem calculate_discount_returns_float (price v : value) (w w' : world) :
  is_number price ->
  run (calculate_discount price) w = (Returned v, w') ->
  (exists d, v = VFloat d) /\ w' = w.
Proof.
  intros [x Hx]. destruct (to_float_cases x) as [[f Hf] | Hf].
  - rewrite (run_calculate_discount price x f w Hx Hf). intros [= <- <-].
    split; [by eexists | done].
  - by rewrite (run_calculate_discount_overflow price x w Hx Hf).
Qed.

Lemma calculate_discount_returns_float_witness :
  (exists d, VFloat (F64.mul (F64.of_Z 1) lit_0_05) = VFloat d) /\
  World ∅ [] = World ∅ [].
Proof.
  apply (calculate_discount_returns_float (VBool true) _ (World ∅ []) (World ∅ []));
    [by eexists | reflexivity].
Defined.

(** ** The discount: bounds *)

Lemma discount_rate_ge x : lit_scaled lit_0_05 <= lit_scaled (discount_rate x).
Proof.
  destruct (discount_rate_cases x) as [-> | [-> | ->]];
    rewrite ?lit_0_15_eq, ?lit_0_10_eq, ?lit_0_05_eq; done.
Qed.

Lemma discount_rate_lt_1 x : lit_scaled (discount_rate x) <= 2 ^ 57.
Proof.
  destruct (discount_rate_cases x) as [-> | [-> | ->]];
    rewrite ?lit_0_15_eq, ?lit_0_10_eq, ?lit_0_05_eq; done.
Qed.

(** Between 5% of the price and the price itself. *)
Lemma discount_sandwich x :
  in_float_range x ->
  fin_nonneg x \/ x = NFloat (S754_infinity false) ->
  exists f, to_float x = Returned f /\
    SFleb (F64.mul lit_0_05 f) (F64.mul f (discount_rate x)) = true /\
    SFleb (F64.mul f (discount_rate x)) f = true.
Proof.
  intros Hr [Hx | ->].
  - destruct (to_float_returns x Hr Hx) as (f & Hf & Hfg & Hord).
    exists f. split; [done|].
    destruct (discount_ord x f Hfg) as [Hd Hgood].
    pose proof (sval_nonneg f). pose proof (lit_scaled_nonneg (discount_rate x)).
    split.
    + rewrite (SFmul_comm lit_0_05 f).
      assert (ord (F64.mul f lit_0_05) = ordr (sval f * lit_scaled lit_0_05) /\
              good (F64.mul f lit_0_05)) as [Hl Hgl].
      { rewrite lit_0_05_eq. by apply SFmul_ord. }
      apply ord_le_SFleb; [done | done |]. rewrite Hd, Hl.
      pose proof (discount_rate_ge x). pose proof (lit_scaled_nonneg lit_0_05).
      apply ordr_mono; nia.
    + apply ord_le_SFleb; [done | by destruct Hfg |].
      rewrite Hd, (ord_good f Hfg).
      pose proof (discount_rate_lt_1 x). apply ordr_mono; nia.
  - exists (S754_infinity false). split; [done|].
    rewrite discount_inf. rewrite lit_0_05_eq. done.
Qed.

(** X4. For a price [p >= 0] that is a float or an integer in the range
    of a float, the discount is at least [0.05 * p]. *)
Theorem calculate_discount_at_least_5_percent (p : value) (x : num) (w : world) :
  as_num p = Some x -> in_float_range x -> num_le (NInt 0) x = true ->
  exists d l : spec_float,
    run (calculate_discount p) w = (Returned (VFloat d), w) /\
    run (py_mul (VFloat lit_0_05) p) w = (Returned (VFloat l), w) /\
    num_le (NFloat l) (NFloat d) = true.
Proof.
  intros Hp Hr H0.
  pose proof (le_nonneg (NInt 0) x Hr ltac:(done) H0) as Hx.
  destruct (discount_sandwich x Hr Hx) as (f & Hf & Hlo & _).
  exists (F64.mul f (discount_rate x)), (F64.mul lit_0_05 f).
  split; [by apply run_calculate_discount|].
  split; [by apply run_py_mul_float_l with x | exact Hlo].
Qed.

Lemma calculate_discount_at_least_5_percent_witness :
  exists d l : spec_float,
    run (calculate_discount (VInt 120)) (World ∅ []) =
      (Returned (VFloat d), World ∅ []) /\
    run (py_mul (VFloat lit_0_05) (VInt 120)) (World ∅ []) =
      (Returned (VFloat l), World ∅ []) /\
    num_le (NFloat l) (NFloat d) = true.
Proof.
  apply (calculate_discount_at_least_5_percent (VInt 120) (NInt 120) (World ∅ []));
    vm_compute; reflexivity.
Defined.

(** X5. For such a price the discount never exceeds the price:
    [calculate_discount(p) <= float(p)]. *)
Theorem calculate_discount_at_most_price (p : value) (x : num) (w : world) :
  as_num p = Some x -> in_float_range x -> num_le (NInt 0) x = true ->
  exists d f : spec_float,
    to_float x = Returned f /\
    run (calculate_discount p) w = (Returned (VFloat d), w) /\
    num_le (NFloat d) (NFloat f) = true.
Proof.
  intros Hp Hr H0.
  pose proof (le_nonneg (NInt 0) x Hr ltac:(done) H0) as Hx.
  destruct (discount_sandwich x Hr Hx) as (f & Hf & _ & Hhi).
  exists (F64.mul f (discount_rate x)), f.
  split; [done|]. split; [by apply run_calculate_discount | exact Hhi].
Qed.

Lemma calculate_discount_at_most_price_witness :
  exists d f : spec_float,
    to_float (NFloat (F64.of_Z 7)) = Returned f /\
    run (calculate_discount (VFloat (F64.of_Z 7))) (World ∅ []) =
      (Returned (VFloat d), World ∅ []) /\
    num_le (NFloat d) (NFloat f) = true.
Proof.
  apply (calculate_discount_at_most_price (VFloat (F64.of_Z 7))
           (NFloat (F64.of_Z 7)) (World ∅ []));
    vm_compute; reflexivity.
Defined.

(** ** The discount: prices that are not positive *)

Lemma binary_round_aux_opp m e l :
  binary_round_aux F64.prec F64.emax true m e l =
  SFopp (binary_round_aux F64.prec F64.emax false m e l).
Proof.
  unfold binary_round_aux. destruct (shr_fexp _ _ m e l) as [mrs' e'].
  destruct (shr_fexp _ _ _ e' loc_Exact) as [mrs'' e''].
  destruct (shr_m mrs''); try done. by destruct (e'' <=? _).
Qed.

Lemma SFopp_involutive f : SFopp (SFopp f) = f.
Proof. destruct f as [s|s| |s m e]; simpl; by rewrite ?negb_involutive. Qed.

Lemma SFmul_opp_l g mc ec :
  F64.mul (SFopp g) (S754_finite false mc ec) =
  SFopp (F64.mul g (S754_finite false mc ec)).
Proof.
  unfold F64.mul. destruct g as [s|s| |s m e]; cbn [SFopp SFmul];
    try done; try by destruct s.
  destruct s; cbn [negb xorb].
  - change (binary_round_aux 53 1024) with (binary_round_aux F64.prec F64.emax).
    by rewrite binary_round_aux_opp, SFopp_involutive.
  - change (binary_round_aux 53 1024) with (binary_round_aux F64.prec F64.emax).
    by rewrite binary_round_aux_opp.
Qed.

Lemma of_Z_neg p : F64.of_Z (Z.neg p) = SFopp (F64.of_Z (Z.pos p)).
Proof.
  unfold F64.of_Z, binary_normalize, binary_round.
  destruct (shl_align _ _ _) as [mz ez]. apply binary_round_aux_opp.
Qed.

Lemma good_opp_nonpos g : good g -> nonpos (SFopp g).
Proof. destruct g as [s|s| |s m e]; simpl; try done; [by intros -> | by intros [-> _]]. Qed.

Lemma compare_Z_neg k m e :
  0 <= k -> F64.compare_Z k (S754_finite true m e) = Some Gt.
Proof.
  intros Hk. unfold F64.compare_Z. f_equal.
  destruct (Z.leb_spec 0 e) as [H0|H0].
  - pose proof (pow2_gt0 e H0). apply Z.compare_gt_iff. nia.
  - pose proof (pow2_gt0 (- e) ltac:(lia)). apply Z.compare_gt_iff. nia.
Qed.

Lemma compare_Z_0_pos m e : F64.compare_Z 0 (S754_finite false m e) = Some Lt.
Proof.
  unfold F64.compare_Z. f_equal.
  destruct (Z.leb_spec 0 e) as [H0|H0].
  - pose proof (pow2_gt0 e H0). apply Z.compare_lt_iff. nia.
  - apply Z.compare_lt_iff. lia.
Qed.

Lemma nonpos_le_0 d : nonpos d -> num_le (NFloat d) (NInt 0) = true.
Proof.
  unfold num_le, num_compare.
  destruct d as [s|s| |s m e]; cbn [nonpos]; try done; intros ->; [done|].
  by rewrite compare_Z_neg.
Qed.

Lemma num_le_0_not_gt x k :
  0 < k -> num_le x (NInt 0) = true -> num_gt x (NInt k) = false.
Proof.
  intros Hk. unfold num_le, num_gt, num_compare.
  destruct x as [a|[s|s| |s m e]].
  - destruct (Z.compare_spec a 0); try done; destruct (Z.compare_spec a k); try done; lia.
  - intros _. unfold F64.compare_Z. cbn [fmap option_fmap option_map].
    destruct (Z.compare_spec k 0); try done; lia.
  - by destruct s.
  - done.
  - destruct s.
    + intros _. by rewrite compare_Z_neg by lia.
    + by rewrite compare_Z_0_pos.
Qed.

(** A number that is at most 0 converts to the opposite of a good float. *)
Lemma to_float_nonpos x :
  in_float_range x -> num_le x (NInt 0) = true ->
  exists g, to_float x = Returned (SFopp g) /\ good g.
Proof.
  intros Hr Hle. destruct x as [n|f].
  - assert (n <= 0) as Hn.
    { revert Hle. unfold num_le, num_compare.
      destruct (Z.compare_spec n 0); try done; lia. }
    destruct (to_float_in_range (NInt n) Hr) as [f Hf].
    destruct n as [|p|p]; [| lia |].
    + exists (S754_zero true). by split.
    + exists (F64.of_Z (Z.pos p)). split; [|by apply of_Z_ord].
      revert Hf. unfold to_float. destruct (F64.is_inf _); [done|].
      intros _. by rewrite of_Z_neg.
  - revert Hle. unfold num_le, num_compare.
    destruct f as [s|s| |s m e]; try done.
    + intros _. exists (S754_zero (negb s)). simpl. by rewrite negb_involutive.
    + destruct s; [|done]. intros _. by exists (S754_infinity false).
    + destruct s.
      * intros _. exists (S754_finite false m e). split; [done|].
        by apply valid_good.
      * by rewrite compare_Z_0_pos.
Qed.

Lemma good_mul_rate g x : good g -> good (F64.mul g (discount_rate x)).
Proof.
  intros Hg. destruct (F64.is_inf g) eqn:Hinf.
  - destruct g as [s|s| |s m e]; try done. simpl in Hg. subst.
    by rewrite discount_inf.
  - by apply discount_ord.
Qed.

(** X6. A price that is at most 0 (a float, or an integer in the range
    of a float) is not rejected: [calculate_discount] returns
    [price * 0.05], which is at most 0. *)
Theorem calculate_discount_nonpositive (p : value) (x : num) (w : world) :
  as_num p = Some x -> in_float_range x -> num_le x (NInt 0) = true ->
  exists d : spec_float,
    run (calculate_discount p) w = (Returned (VFloat d), w) /\
    run (py_mul p (VFloat lit_0_05)) w = (Returned (VFloat d), w) /\
    num_le (NFloat d) (NInt 0) = true.
Proof.
  intros Hp Hr Hle.
  destruct (to_float_nonpos x Hr Hle) as (g & Hf & Hg).
  assert (discount_rate x = lit_0_05) as Hrate.
  { unfold discount_rate.
    rewrite (num_le_0_not_gt x 100 ltac:(done) Hle).
    by rewrite (num_le_0_not_gt x 50 ltac:(done) Hle). }
  exists (F64.mul (SFopp g) lit_0_05).
  split; [|split].
  - rewrite (run_calculate_discount p x _ w Hp Hf). by rewrite Hrate.
  - by apply run_py_mul_float_r with x.
  - apply nonpos_le_0. rewrite lit_0_05_eq, SFmul_opp_l, <- lit_0_05_eq, <- Hrate.
    by apply good_opp_nonpos, good_mul_rate.
Qed.

Lemma calculate_discount_nonpositive_witness :
  exists d : spec_float,
    run (calculate_discount (VInt (-40))) (World ∅ []) =
      (Returned (VFloat d), World ∅ []) /\
    run (py_mul (VInt (-40)) (VFloat lit_0_05)) (World ∅ []) =
      (Returned (VFloat d), World ∅ []) /\
    num_le (NFloat d) (NInt 0) = true.
Proof.
  apply (calculate_discount_nonpositive (VInt (-40)) (NInt (-40)) (World ∅ []));
    vm_compute; reflexivity.
Defined.

(** ** The order-processing function: what is printed *)

Lemma run_py_truthy v w : run (py_truthy v) w = (truthy_on (heap w) v, w).
Proof.
  unfold truthy_on, py_truthy, run. destruct v; try reflexivity.
  unfold mbind, M_bind, deref. simpl.
  destruct (heap w !! l) as [[xs|kvs|cls attrs|d kvs]|]; reflexivity.
Qed.

Lemma run_if_truthy v (body : M unit) w :
  run (c ← py_truthy v; when c body) w =
  match truthy_on (heap w) v with
  | Returned true => run body w
  | Returned false => (Returned tt, w)
  | Raised e => (Raised e, w)
  end.
Proof.
  rewrite run_bind, run_py_truthy. by destruct (truthy_on _ _) as [[]|e].
Qed.

(** [process_order] in one step: the line printed first, the five
    conditions, then the loops. *)
Lemma run_process_order
    (order_id customer_name email phone address city state zip_code
     items payment_method shipping_method : value) (w : world) :
  run (process_order order_id customer_name email phone address city state
         zip_code items payment_method shipping_method) w =
  let w1 := World (heap w) (stdout w ++ ["Processing order..."%string]) in
  match conds_hold (heap w) [order_id; customer_name; email; phone; address] with
  | Returned true =>
      match run (order_loops items) w1 with
      | (Returned _, w2) => (Returned (VBool true), w2)
      | (Raised e, w2) => (Raised e, w2)
      end
  | Returned false => (Returned (VBool true), w1)
  | Raised e => (Raised e, w1)
  end.
Proof.
  unfold process_order.
  rewrite (run_bind_returned (print _) _ w tt
             (World (heap w) (stdout w ++ ["Processing order..."%string])) eq_refl).
  rewrite run_bind. cbn [conds_hold]. cbv zeta.
  set (w1 := World (heap w) _).
  change (heap w) with (heap w1).
  rewrite run_if_truthy. destruct (truthy_on (heap w1) order_id) as [[]|e]; [|done..].
  rewrite run_if_truthy. destruct (truthy_on (heap w1) customer_name) as [[]|e]; [|done..].
  rewrite run_if_truthy. destruct (truthy_on (heap w1) email) as [[]|e]; [|done..].
  rewrite run_if_truthy. destruct (truthy_on (heap w1) phone) as [[]|e]; [|done..].
  rewrite run_if_truthy. destruct (truthy_on (heap w1) address) as [[]|e]; [|done..].
  fold (order_loops items).
  by destruct (run (order_loops items) w1) as [[[]|e] w2].
Qed.

(** X7. If one of [order_id], [customer_name], [email], [phone],
    [address] is false (those tested before it being true),
    [process_order] prints "Processing order..." and nothing else, returns
    [True] and does not look at the items, whatever they are. *)
Theorem process_order_skips_items
    (order_id customer_name email phone address city state zip_code
     items payment_method shipping_method : value) (w : world) :
  conds_hold (heap w) [order_id; customer_name; email; phone; address] =
    Returned false ->
  run (process_order order_id customer_name email phone address city state
         zip_code items payment_method shipping_method) w =
  (Returned (VBool true),
   World (heap w) (stdout w ++ ["Processing order..."%string])).
Proof. intros Hconds. by rewrite run_process_order, Hconds. Qed.

Lemma process_order_skips_items_witness :
  run (process_order (VInt 7) (VStr "Ann") VNone (VStr "555") (VStr "Main St")
         VNone VNone VNone (VInt 3) VNone VNone) (World ∅ []) =
  (Returned (VBool true), World ∅ ["Processing order..."%string]).
Proof.
  apply (process_order_skips_items (VInt 7) (VStr "Ann") VNone (VStr "555")
           (VStr "Main St") VNone VNone VNone (VInt 3) VNone VNone (World ∅ [])).
  reflexivity.
Defined.

Lemma run_for_each_cons x xs (body : value -> M unit) w :
  run (for_each (x :: xs) body) w =
  match run (body x) w with
  | (Returned _, w') => run (for_each xs body) w'
  | (Raised e, w') => (Raised e, w')
  end.
Proof.
  unfold for_each. rewrite for_in_cons, run_bind.
  by destruct (run (body x) w) as [[[]|e] w'].
Qed.

Lemma run_for_each_nil (body : value -> M unit) w :
  run (for_each [] body) w = (Returned tt, w).
Proof. reflexivity. Qed.

Lemma run_variation h variation out :
  is_variation h variation ->
  run (p ← py_getitem variation "price";
       c ← py_gt_int p 100;
       when c (print "Expensive item")) (World h out) =
  (Returned tt,
   World h (out ++ if is_expensive h variation then ["Expensive item"%string] else [])).
Proof.
  intros (l & kvs & p & -> & Hl & Hp & [x Hx]).
  rewrite (run_bind_returned _ _ _ _ _
             (run_py_getitem_dict (World h out) l kvs "price" p Hl Hp)).
  unfold py_gt_int, is_expensive. rewrite Hx, Hl, Hp, Hx.
  rewrite run_bind, run_ret. destruct (num_gt x (NInt 100)); simpl.
  - reflexivity.
  - by rewrite app_nil_r.
Qed.

Lemma run_variations h vs out :
  Forall (is_variation h) vs ->
  run (for_each vs (fun variation =>
         p ← py_getitem variation "price";
         c ← py_gt_int p 100;
         when c (print "Expensive item"))) (World h out) =
  (Returned tt,
   World h (out ++ replicate (length (filter (fun v => is_expensive h v = true) vs))
                     "Expensive item"%string)).
Proof.
  intros Hvs. revert out. induction Hvs as [|v vs Hv _ IH]; intros out.
  - rewrite run_for_each_nil. simpl. by rewrite app_nil_r.
  - rewrite run_for_each_cons, (run_variation h v out Hv), IH, filter_cons.
    case_decide as He.
    + rewrite He. simpl. by rewrite <- app_assoc.
    + destruct (is_expensive h v); [done|]. by rewrite app_nil_r.
Qed.

Lemma run_order_item h item out :
  is_order_item h item ->
  run (vars ← py_getitem item "variations";
       vs ← py_iter vars;
       for_each vs (fun variation =>
         p ← py_getitem variation "price";
         c ← py_gt_int p 100;
         when c (print "Expensive item"))) (World h out) =
  (Returned tt,
   World h (out ++ replicate
              (length (filter (fun v => is_expensive h v = true) (variations_of h item)))
              "Expensive item"%string)).
Proof.
  intros (l & kvs & lv & vs & -> & Hl & Hvars & Hlv & Hvs).
  rewrite (run_bind_returned _ _ _ _ _
             (run_py_getitem_dict (World h out) l kvs "variations" _ Hl Hvars)).
  rewrite (run_bind_returned _ _ _ _ _ (run_py_iter_list (World h out) lv vs Hlv)).
  unfold variations_of. rewrite Hl, Hvars, Hlv. by apply run_variations.
Qed.

Lemma run_order_items h xs out :
  Forall (is_order_item h) xs ->
  run (for_each xs (fun item =>
         vars ← py_getitem item "variations";
         vs ← py_iter vars;
         for_each vs (fun variation =>
           p ← py_getitem variation "price";
           c ← py_gt_int p 100;
           when c (print "Expensive item")))) (World h out) =
  (Returned tt,
   World h (out ++ replicate (expensive_count h xs) "Expensive item"%string)).
Proof.
  intros Hxs. revert out. induction Hxs as [|item xs Hitem _ IH]; intros out.
  - rewrite run_for_each_nil. simpl. by rewrite app_nil_r.
  - rewrite run_for_each_cons, (run_order_item h item out Hitem), IH.
    unfold expensive_count. rewrite fmap_cons. simpl sum_list.
    by rewrite replicate_add, app_assoc.
Qed.

(** X8. When the five conditions are true and the items are a list of
    dicts whose ['variations'] is a list of dicts with a numeric
    ['price'], [process_order] prints "Processing order..." followed by
    "Expensive item" exactly once for each variation whose price is above
    100, returns [True] and leaves the store as it is. *)
Theorem process_order_output
    (order_id customer_name email phone address city state zip_code
     items payment_method shipping_method : value) (w : world)
    (l : loc) (xs : list value) :
  conds_hold (heap w) [order_id; customer_name; email; phone; address] =
    Returned true ->
  items = VRef l -> heap w !! l = Some (OList xs) ->
  Forall (is_order_item (heap w)) xs ->
  run (process_order order_id customer_name email phone address city state
         zip_code items payment_method shipping_method) w =
  (Returned (VBool true),
   World (heap w)
     (stdout w ++ "Processing order..."%string ::
        replicate (expensive_count (heap w) xs) "Expensive item"%string)).
Proof.
  intros Hconds -> Hl Hxs. rewrite run_process_order, Hconds. cbv zeta.
  unfold order_loops.
  rewrite (run_bind_returned _ _ _ _ _ (run_py_iter_list (World (heap w) _) l xs Hl)).
  rewrite (run_order_items (heap w) xs _ Hxs). by rewrite <- app_assoc.
Qed.

Lemma sample_store_order_item : is_order_item sample_store (VRef 2%positive).
Proof.
  exists 2%positive, [(VStr "variations", VRef 3%positive)], 3%positive,
    [VRef 4%positive; VRef 5%positive; VRef 6%positive].
  repeat split; try reflexivity.
  repeat constructor; eexists _, _, _; repeat split; try reflexivity; by eexists.
Qed.

Lemma process_order_output_witness :
  run (process_order (VInt 7) (VStr "Ann") (VStr "a@b.c") (VStr "555")
         (VStr "Main St") VNone VNone VNone (VRef 1%positive) VNone VNone)
      (World sample_store []) =
  (Returned (VBool true),
   World sample_store
     ([] ++ "Processing order..."%string ::
        replicate (expensive_count sample_store [VRef 2%positive])
          "Expensive item"%string)).
Proof.
  apply (process_order_output (VInt 7) (VStr "Ann") (VStr "a@b.c") (VStr "555")
           (VStr "Main St") VNone VNone VNone (VRef 1%positive) VNone VNone
           (World sample_store []) 1%positive [VRef 2%positive]);
    try reflexivity.
  repeat constructor. apply sample_store_order_item.
Defined.

(** ** The order-processing function: errors *)

Lemma run_bind_raised_eq {A B} (c : M A) (k : A -> M B) w e w' :
  run c w = (Raised e, w') -> run (c ≫= k) w = (Raised e, w').
Proof. intros H. by rewrite run_bind, H. Qed.





(** ** The totals: errors *)

(** The loop over a prefix of well-formed numeric items is their sum;
    the loop then goes on with the rest. *)
Lemma total_loop_prefix xs pqs rest total w :
  Forall2 (is_item w) xs pqs -> Forall number_pair pqs -> is_number total ->
  run (for_in (xs ++ rest) (fun item total =>
         p ← py_getitem item "price";
         q ← py_getitem item "quantity";
         pq ← py_mul p q;
         py_iadd total pq) total) w =
  match run (sum_left total ((fun pq => py_mul pq.1 pq.2) <$> pqs)) w with
  | (Returned t, _) =>
      run (for_in rest (fun item total =>
             p ← py_getitem item "price";
             q ← py_getitem item "quantity";
             pq ← py_mul p q;
             py_iadd total pq) t) w
  | (Raised e, _) => (Raised e, w)
  end.
Proof.
  intros Hitems. revert total.
  induction Hitems as [|item [p q] xs pqs Hitem _ IH]; intros total Hpqs Htotal.
  - reflexivity.
  - apply Forall_cons in Hpqs as [[[np Hp] [nq Hq]] Hpqs]. simpl in Hp, Hq.
    destruct Hitem as (l & kvs & -> & Hl & Hp' & Hq'). simpl in Hp', Hq'.
    rewrite <- app_comm_cons, for_in_cons, fmap_cons, sum_left_cons. cbn [fst snd].
    rewrite (run_bind (_ ≫= _)).
    rewrite (run_bind_returned _ _ _ _ _ (run_py_getitem_dict w l kvs _ p Hl Hp')).
    rewrite (run_bind_returned _ _ _ _ _ (run_py_getitem_dict w l kvs _ q Hl Hq')).
    rewrite !(run_bind (py_mul p q)), (run_py_mul_num p q np nq w Hp Hq).
    pose proof (num_mul_ok np nq) as Hmul.
    destruct (num_mul np nq) as [pq|e]; [|done]. destruct Hmul as [npq Hpq].
    destruct Htotal as [nt Ht].
    rewrite !run_bind, (py_iadd_number_eq total pq w ltac:(by eexists)).
    rewrite (run_py_add_num total pq nt npq w Ht Hpq).
    pose proof (num_add_ok nt npq) as Hadd.
    destruct (num_add nt npq) as [acc|e]; [|done].
    by apply IH.
Qed.

Lemma run_sum_left_world pqs total w r w' :
  Forall number_pair pqs -> is_number total ->
  run (sum_left total ((fun pq => py_mul pq.1 pq.2) <$> pqs)) w = (r, w') ->
  w' = w /\ number_or_overflow r.
Proof.
  intros Hpqs Htotal Hrun.
  destruct (sum_left_number pqs total w Hpqs Htotal) as (r0 & Hrun0 & Hr0).
  rewrite Hrun in Hrun0. by injection Hrun0 as -> ->.
Qed.

Lemma run_py_getitem_not_dict w v key :
  bound (heap w) v -> ~ is_dict (heap w) v ->
  run (py_getitem v key) w = (Raised TypeError, w).
Proof.
  intros Hb Hd. destruct v; try reflexivity.
  destruct Hb as [o Ho]. unfold py_getitem, run, mbind, M_bind, deref. rewrite Ho.
  destruct o; try reflexivity; exfalso; apply Hd; by eexists _, _.
Qed.

(** Both totals stop at the first item on which reading the keys
    raises, the items before it adding up without overflow. *)
Lemma calculate_total_stops_at
    (w : world) (l : loc) (xs ys : list value) (bad : value)
    (pqs : list (value * value)) (t : value) (w1 : world) (e : exn) :
  heap w !! l = Some (OList (xs ++ bad :: ys)) ->
  Forall2 (is_item w) xs pqs -> Forall number_pair pqs ->
  run (sum_of_products pqs) w = (Returned t, w1) ->
  (forall total, run (p ← py_getitem bad "price";
                      q ← py_getitem bad "quantity";
                      pq ← py_mul p q;
                      py_iadd total pq) w = (Raised e, w)) ->
  run (calculate_total_a (VRef l)) w = (Raised e, w) /\
  run (calculate_total_b (VRef l)) w = (Raised e, w).
Proof.
  intros Hl Hxs Hpqs Hsum Hbad.
  assert (run (calculate_total_a (VRef l)) w = (Raised e, w)) as Ha; [|by split].
  unfold calculate_total_a.
  rewrite (run_bind_returned _ _ _ _ _ (run_py_iter_list w l _ Hl)).
  rewrite run_bind, (total_loop_prefix xs pqs _ (VInt 0) w Hxs Hpqs ltac:(by eexists)).
  unfold sum_of_products in Hsum. rewrite Hsum.
  by rewrite for_in_cons, run_bind, Hbad.
Qed.


Lemma sample_store_item_9 :
  is_item (World sample_store []) (VRef 9%positive) (int_pair (3, 4)).
Proof. eexists _, _. repeat split; reflexivity. Defined.

Lemma sample_store_item_13 :
  is_item (World sample_store []) (VRef 13%positive) (int_pair (5, 2)).
Proof. eexists _, _. repeat split; reflexivity. Defined.


(** X11. Under the same condition on the items before it, the first
    item that is not a dict (a number, [None], a string, a list) makes
    both totals raise [TypeError]. *)
Theorem calculate_total_not_a_dict_raises
    (items : value) (w : world) (l : loc) (xs ys : list value) (bad : value)
    (pqs : list (value * value)) (t : value) (w1 : world) :
  items = VRef l -> heap w !! l = Some (OList (xs ++ bad :: ys)) ->
  Forall2 (is_item w) xs pqs -> Forall number_pair pqs ->
  run (sum_of_products pqs) w = (Returned t, w1) ->
  bound (heap w) bad -> ~ is_dict (heap w) bad ->
  run (calculate_total_a items) w = (Raised TypeError, w) /\
  run (calculate_total_b items) w = (Raised TypeError, w).
Proof.
  intros -> Hl Hxs Hpqs Hsum Hb Hd.
  apply (calculate_total_stops_at w l xs ys bad pqs t w1); try done.
  intros total.
  by rewrite (run_bind_raised_eq _ _ _ _ _ (run_py_getitem_not_dict w bad _ Hb Hd)).
Qed.

Lemma calculate_total_not_a_dict_raises_witness :
  run (calculate_total_a (VRef 12%positive)) (World sample_store []) =
    (Raised TypeError, World sample_store []) /\
  run (calculate_total_b (VRef 12%positive)) (World sample_store []) =
    (Raised TypeError, World sample_store []).
Proof.
  apply (calculate_total_not_a_dict_raises (VRef 12%positive)
           (World sample_store []) 12%positive
           [VRef 9%positive] [VRef 9%positive] (VInt 5)
           [int_pair (3, 4)] (VInt 12) (World sample_store []));
    try reflexivity.
  - repeat constructor. apply sample_store_item_9.
  - repeat constructor; by eexists.
  - intros (l & kvs & Hl & _). discriminate.
Defined.

Lemma run_py_iter_not_iterable items w :
  bound (heap w) items -> ~ iterable (heap w) items ->
  run (py_iter items) w = (Raised TypeError, w).
Proof.
  intros Hb Hit. destruct items; simpl in Hit; try done.
  destruct Hb as [o Ho]. rewrite Ho in Hit.
  unfold py_iter, run, mbind, M_bind, deref. rewrite Ho. by destruct o.
Qed.

(** X12. Items that cannot be iterated over ([None], a number, an
    instance) make both totals raise [TypeError] before anything else
    happens. *)
Theorem calculate_total_not_iterable (items : value) (w : world) :
  bound (heap w) items -> ~ iterable (heap w) items ->
  run (calculate_total_a items) w = (Raised TypeError, w) /\
  run (calculate_total_b items) w = (Raised TypeError, w).
Proof.
  intros Hb Hit. pose proof (run_py_iter_not_iterable items w Hb Hit) as Hiter.
  assert (run (calculate_total_a items) w = (Raised TypeError, w)) as Ha; [|by split].
  unfold calculate_total_a. by rewrite (run_bind_raised_eq _ _ _ _ _ Hiter).
Qed.

Lemma calculate_total_not_iterable_witness :
  run (calculate_total_a VNone) (World ∅ []) = (Raised TypeError, World ∅ []) /\
  run (calculate_total_b VNone) (World ∅ []) = (Raised TypeError, World ∅ []).
Proof.
  apply (calculate_total_not_iterable VNone (World ∅ [])); [exact I | by intros []].
Defined.

(** ** The totals: integer items *)

Lemma Zsum_of_products_perm (zs1 zs2 : list (Z * Z)) :
  zs1 ≡ₚ zs2 -> Zsum_of_products zs1 = Zsum_of_products zs2.
Proof.
  induction 1 as [|z zs1 zs2 _ IH|y z zs|zs1 zs2 zs3 _ IH1 _ IH2]; simpl.
  - done.
  - by rewrite IH.
  - lia.
  - by rewrite IH1.
Qed.

Lemma Zsum_of_products_app (zs1 zs2 : list (Z * Z)) :
  Zsum_of_products (zs1 ++ zs2) = Zsum_of_products zs1 + Zsum_of_products zs2.
Proof. induction zs1 as [|z zs1 IH]; simpl; [done | rewrite IH; lia]. Qed.

Lemma run_calculate_total_ints items zs w :
  items_hold w items (int_pair <$> zs) ->
  run (calculate_total_a items) w = (Returned (VInt (Zsum_of_products zs)), w) /\
  run (calculate_total_b items) w = (Returned (VInt (Zsum_of_products zs)), w).
Proof.
  intros Hitems.
  assert (run (calculate_total_a items) w =
          (Returned (VInt (Zsum_of_products zs)), w)) as Ha; [|by split].
  rewrite (run_calculate_total_a items _ w Hitems).
  unfold sum_of_products. by rewrite sum_left_ints.
Qed.

(** X13. With integer prices and quantities the order of the items does
    not matter: two lists holding the same items in different orders get
    the same total, from either function. *)
Theorem calculate_total_order_independent
    (items1 items2 : value) (zs1 zs2 : list (Z * Z)) (w : world) :
  items_hold w items1 (int_pair <$> zs1) ->
  items_hold w items2 (int_pair <$> zs2) ->
  zs1 ≡ₚ zs2 ->
  run (calculate_total_a items1) w = run (calculate_total_a items2) w /\
  run (calculate_total_b items1) w = run (calculate_total_b items2) w.
Proof.
  intros H1 H2 Hperm.
  destruct (run_calculate_total_ints items1 zs1 w H1) as [-> ->].
  destruct (run_calculate_total_ints items2 zs2 w H2) as [-> ->].
  by rewrite (Zsum_of_products_perm zs1 zs2 Hperm).
Qed.

Lemma calculate_total_order_independent_witness :
  run (calculate_total_a (VRef 14%positive)) (World sample_store []) =
  run (calculate_total_a (VRef 15%positive)) (World sample_store []) /\
  run (calculate_total_b (VRef 14%positive)) (World sample_store []) =
  run (calculate_total_b (VRef 15%positive)) (World sample_store []).
Proof.
  apply (calculate_total_order_independent (VRef 14%positive) (VRef 15%positive)
           [(3, 4); (5, 2)] [(5, 2); (3, 4)] (World sample_store [])).
  - eexists _, _. split; [reflexivity|]. split; [reflexivity|].
    repeat constructor; [apply sample_store_item_9 | apply sample_store_item_13].
  - eexists _, _. split; [reflexivity|]. split; [reflexivity|].
    repeat constructor; [apply sample_store_item_13 | apply sample_store_item_9].
  - apply perm_swap.
Defined.

(** X14. With integer prices and quantities the total of a list that is
    two lists one after the other is the sum of the two totals. *)
Theorem calculate_total_of_concatenation
    (items items1 items2 : value) (zs1 zs2 : list (Z * Z)) (w : world) :
  items_hold w items1 (int_pair <$> zs1) ->
  items_hold w items2 (int_pair <$> zs2) ->
  items_hold w items (int_pair <$> (zs1 ++ zs2)) ->
  exists t1 t2 : Z,
    run (calculate_total_a items1) w = (Returned (VInt t1), w) /\
    run (calculate_total_a items2) w = (Returned (VInt t2), w) /\
    run (calculate_total_a items) w = (Returned (VInt (t1 + t2)), w) /\
    run (calculate_total_b items) w = (Returned (VInt (t1 + t2)), w).
Proof.
  intros H1 H2 H.
  exists (Zsum_of_products zs1), (Zsum_of_products zs2).
  destruct (run_calculate_total_ints items1 zs1 w H1) as [-> _].
  destruct (run_calculate_total_ints items2 zs2 w H2) as [-> _].
  destruct (run_calculate_total_ints items _ w H) as [-> ->].
  by rewrite Zsum_of_products_app.
Qed.

Lemma calculate_total_of_concatenation_witness :
  exists t1 t2 : Z,
    run (calculate_total_a (VRef 14%positive)) (World sample_store []) =
      (Returned (VInt t1), World sample_store []) /\
    run (calculate_total_a (VRef 15%positive)) (World sample_store []) =
      (Returned (VInt t2), World sample_store []) /\
    run (calculate_total_a (VRef 16%positive)) (World sample_store []) =
      (Returned (VInt (t1 + t2)), World sample_store []) /\
    run (calculate_total_b (VRef 16%positive)) (World sample_store []) =
      (Returned (VInt (t1 + t2)), World sample_store []).
Proof.
  apply (calculate_total_of_concatenation (VRef 16%positive) (VRef 14%positive)
           (VRef 15%positive) [(3, 4); (5, 2)] [(5, 2); (3, 4)]
           (World sample_store [])).
  - eexists _, _. split; [reflexivity|]. split; [reflexivity|].
    repeat constructor; [apply sample_store_item_9 | apply sample_store_item_13].
  - eexists _, _. split; [reflexivity|]. split; [reflexivity|].
    repeat constructor; [apply sample_store_item_13 | apply sample_store_item_9].
  - eexists _, _. split; [reflexivity|]. split; [reflexivity|].
    repeat constructor;
      [apply sample_store_item_9 | apply sample_store_item_13
      |apply sample_store_item_13 | apply sample_store_item_9].
Defined.

(** ** The totals: the type of the result *)

Lemma int_like_as_num v : int_like v -> exists n, as_num v = Some (NInt n).
Proof. intros [n Hn]. destruct v; try discriminate; by eexists. Qed.

Lemma sum_left_int_like pqs acc w :
  Forall int_like_pair pqs ->
  exists n, run (sum_left (VInt acc) ((fun pq => py_mul pq.1 pq.2) <$> pqs)) w =
            (Returned (VInt n), w).
Proof.
  intros Hpqs. revert acc.
  induction Hpqs as [|[p q] pqs [Hp Hq] _ IH]; intros acc.
  - by exists acc.
  - destruct (int_like_as_num p Hp) as [a Ha], (int_like_as_num q Hq) as [b Hb].
    rewrite fmap_cons, sum_left_cons. cbn [fst snd].
    rewrite run_bind, (run_py_mul_num p q _ _ w Ha Hb). cbn [num_mul].
    rewrite run_bind,
      (run_py_add_num (VInt acc) (VInt (a * b)) _ _ w eq_refl eq_refl).
    cbn [num_add]. apply IH.
Qed.

Lemma float_binop_float op x y v : float_binop op x y = Returned v -> is_float v.
Proof.
  unfold float_binop. destruct (to_float x); [|done]. destruct (to_float y); [|done].
  intros [= <-]. by eexists.
Qed.

Lemma num_mul_float p q x y v :
  as_num p = Some x -> as_num q = Some y -> has_float (p, q) ->
  num_mul x y = Returned v -> is_float v.
Proof.
  intros Hp Hq [[f Hf] | [f Hf]]; simpl in Hf; subst; simpl in *.
  - injection Hp as <-. apply float_binop_float.
  - injection Hq as <-. destruct x; apply float_binop_float.
Qed.

Lemma num_add_float_l f y v : num_add (NFloat f) y = Returned v -> is_float v.
Proof. apply float_binop_float. Qed.

Lemma num_add_float_r x f v : num_add x (NFloat f) = Returned v -> is_float v.
Proof. destruct x; apply float_binop_float. Qed.

Lemma sum_left_has_float pqs total w v w' :
  Forall number_pair pqs -> is_number total ->
  is_float total \/ Exists has_float pqs ->
  run (sum_left total ((fun pq => py_mul pq.1 pq.2) <$> pqs)) w = (Returned v, w') ->
  is_float v.
Proof.
  intros Hpqs. revert total.
  induction Hpqs as [|[p q] pqs [[np Hp] [nq Hq]] _ IH]; intros total Htotal Hf.
  - destruct Hf as [Hf | Hf]; [|by apply Exists_nil in Hf].
    simpl. unfold run, mret, M_ret. by intros [= <- _].
  - rewrite fmap_cons, sum_left_cons. simpl in Hp, Hq. cbn [fst snd].
    rewrite run_bind, (run_py_mul_num p q np nq w Hp Hq).
    pose proof (num_mul_ok np nq) as Hmul.
    pose proof (num_mul_float p q np nq) as Hmulf.
    destruct (num_mul np nq) as [pq|e]; [|done].
    destruct Hmul as [npq Hpq]. destruct Htotal as [nt Ht]. cbv beta iota.
    rewrite run_bind, (run_py_add_num total pq nt npq w Ht Hpq).
    pose proof (num_add_ok nt npq) as Hadd.
    pose proof (num_add_float_l) as Haddl. pose proof (num_add_float_r) as Haddr.
    destruct (num_add nt npq) as [acc|e] eqn:Hacc; [|done].
    cbv beta iota. apply IH; [done|].
    destruct Hf as [[f ->] | Hf].
    + left. injection Ht as <-. by apply (Haddl f npq).
    + apply Exists_cons in Hf as [Hf | Hf]; [|by right].
      left. destruct (Hmulf pq Hp Hq Hf eq_refl) as [g ->]. injection Hpq as <-.
      by apply (Haddr nt g).
Qed.

(** X15. The type of the total follows the items: when every price and
    quantity is an [int] or a [bool] both functions return an [int] and
    never raise; when they are all numbers and some price or quantity is
    a [float], whatever is returned is a [float]. *)
Theorem calculate_total_result_type
    (items : value) (pqs : list (value * value)) (w : world) :
  items_hold w items pqs ->
  (Forall int_like_pair pqs ->
   exists n, run (calculate_total_a items) w = (Returned (VInt n), w) /\
             run (calculate_total_b items) w = (Returned (VInt n), w)) /\
  (Forall number_pair pqs -> Exists has_float pqs ->
   forall v w', run (calculate_total_a items) w = (Returned v, w') \/
                run (calculate_total_b items) w = (Returned v, w') ->
                is_float v).
Proof.
  intros Hitems.
  pose proof (run_calculate_total_a items pqs w Hitems) as Ha.
  assert (run (calculate_total_b items) w = run (sum_of_products pqs) w) as Hb
    by exact Ha.
  split.
  - intros Hpqs. rewrite Ha, Hb.
    destruct (sum_left_int_like pqs 0 w Hpqs) as [n Hn]. by exists n.
  - intros Hpqs Hf v w' Hrun.
    assert (run (sum_of_products pqs) w = (Returned v, w')) as Hsum.
    { destruct Hrun as [Hrun | Hrun]; congruence. }
    apply (sum_left_has_float pqs (VInt 0) w v w' Hpqs); [by eexists | by right | done].
Qed.

Lemma sample_store_item_17 :
  is_item (World sample_store []) (VRef 17%positive)
    (VFloat (F64.literal 25 1), VBool true).
Proof. eexists _, _. repeat split; reflexivity. Defined.

Lemma calculate_total_result_type_witness :
  run (calculate_total_a (VRef 18%positive)) (World sample_store []) =
    (Returned (VFloat (S754_finite false 8162774324609024 (-49))),
     World sample_store []) /\
  is_float (VFloat (S754_finite false 8162774324609024 (-49))).
Proof.
  split; [by vm_compute|].
  refine (proj2 (calculate_total_result_type (VRef 18%positive)
            [int_pair (3, 4); (VFloat (F64.literal 25 1), VBool true)]
            (World sample_store []) _) _ _ _ (World sample_store []) _).
  - eexists _, _. split; [reflexivity|]. split; [reflexivity|].
    repeat constructor; [apply sample_store_item_9 | apply sample_store_item_17].
  - repeat constructor; by eexists.
  - apply Exists_cons_tl, Exists_cons_hd. left. by eexists.
  - left. vm_compute. reflexivity.
Defined.

(** ** [do_work]: which arguments it accepts *)

Lemma run_bind_inv {A B} (c : M A) (k : A -> M B) w b w2 :
  run (a ← c; k a) w = (Returned b, w2) ->
  exists a w1, run c w = (Returned a, w1) /\ run (k a) w1 = (Returned b, w2).
Proof.
  rewrite run_bind. destruct (run c w) as [[a|e] w1]; [|done]. by exists a, w1.
Qed.

Lemma str_mul_returns s n w v w' :
  run (str_mul s n) w = (Returned v, w') -> exists t, v = VStr t.
Proof.
  unfold str_mul.
  repeat match goal with |- context [if ?b then _ else _] => destruct b end;
    unfold run, raise, mret, M_ret; intros [= <- _]; by eexists.
Qed.

Lemma list_mul_returns xs n w v w' :
  run (list_mul xs n) w = (Returned v, w') -> exists l, v = VRef l.
Proof.
  unfold list_mul.
  repeat match goal with |- context [if ?b then _ else _] => destruct b end;
    unfold run, raise, alloc; intros [= <- _]; by eexists.
Qed.

(** What [+] and [*] return on an operand that is not a number is a
    string or a list. *)
Ltac returns_no_number Hrun :=
  first
    [ discriminate Hrun
    | by (apply str_mul_returns in Hrun as [? ->])
    | by (apply list_mul_returns in Hrun as [? ->])
    | by (unfold run, mret, M_ret, raise, alloc in Hrun; simplify_eq/=)
    | apply run_bind_inv in Hrun as (? & ? & _ & Hrun); returns_no_number Hrun ].

Lemma py_add_returns_number a b w v w' :
  run (py_add a b) w = (Returned v, w') -> is_number v ->
  is_number a /\ is_number b /\ w' = w.
Proof.
  unfold py_add. destruct (as_num a) as [x|] eqn:Ha, (as_num b) as [y|] eqn:Hb.
  { unfold run, lift, is_number. intros [= _ <-] _. by repeat split. }
  all: intros Hrun [n Hn]; exfalso.
  all: destruct a; try discriminate; destruct b; try discriminate;
    returns_no_number Hrun.
Qed.

Lemma py_mul_returns_number a b w v w' :
  run (py_mul a b) w = (Returned v, w') -> is_number v ->
  is_number a /\ is_number b /\ w' = w.
Proof.
  unfold py_mul. destruct (as_num a) as [x|] eqn:Ha, (as_num b) as [y|] eqn:Hb.
  { unfold run, lift, is_number. intros [= _ <-] _. by repeat split. }
  all: intros Hrun [n Hn]; exfalso.
  all: destruct a; try discriminate; destruct b; try discriminate;
    cbn [as_index] in Hrun; returns_no_number Hrun.
Qed.

Lemma num_truediv_float x y v : num_truediv x y = Returned v -> is_float v.
Proof.
  unfold num_truediv. intros Hv.
  destruct x as [a|f], y as [b|g];
    repeat match type of Hv with
           | context [if ?c then _ else _] => destruct c
           | context [to_float ?n] => destruct (to_float n)
           end;
    try discriminate; injection Hv as <-; by eexists.
Qed.

Lemma py_truediv_returns a b w v w' :
  run (py_truediv a b) w = (Returned v, w') ->
  is_number a /\ is_number b /\ is_float v /\ w' = w.
Proof.
  unfold py_truediv. destruct (as_num a) as [x|] eqn:Ha, (as_num b) as [y|] eqn:Hb;
    try done.
  unfold run, lift, is_number. intros [= Hv <-]. repeat split; try done.
  by apply (num_truediv_float x y).
Qed.

Lemma do_work_returns_inv (x y z v : value) (w w' : world) :
  run (do_work x y z) w = (Returned v, w') ->
  is_number x /\ is_number y /\ is_number z /\ is_float v /\ w' = w.
Proof.
  unfold do_work. intros Hrun.
  apply run_bind_inv in Hrun as (temp & w1 & Hadd & Hrun).
  apply run_bind_inv in Hrun as (data & w2 & Hmul & Hrun).
  apply run_bind_inv in Hrun as (val & w3 & Hdiv & Hret).
  unfold run, mret, M_ret in Hret. injection Hret as -> ->.
  apply py_truediv_returns in Hdiv as (Hdata & _ & Hv & ->).
  apply py_mul_returns_number in Hmul as (Htemp & Hz & ->); [|done].
  apply py_add_returns_number in Hadd as (Hx & Hy & ->); [|done].
  done.
Qed.

(** X16. [do_work] gets through on numbers only, and gives floats: when
    one of [x], [y], [z] is [None], a string, a list, a dict or an
    instance of a plain class the call does not return (it raises);
    when they are [int]s, [bool]s or [float]s, whatever is returned is a
    [float], and the store and the console are as before. *)
Theorem do_work_returns_only_on_numbers (x y z : value) (w : world) :
  (as_num x = None \/ as_num y = None \/ as_num z = None ->
   ~ completes (do_work x y z) w) /\
  (is_number x -> is_number y -> is_number z ->
   forall v w', run (do_work x y z) w = (Returned v, w') -> is_float v /\ w' = w).
Proof.
  split.
  - intros Hnone (v & w' & Hrun).
    apply do_work_returns_inv in Hrun as ([nx Hx] & [ny Hy] & [nz Hz] & _).
    destruct Hnone as [H | [H | H]]; congruence.
  - intros _ _ _ v w' Hrun.
    by apply do_work_returns_inv in Hrun as (_ & _ & _ & Hv & ->).
Qed.

Lemma do_work_returns_only_on_numbers_witness :
  ~ completes (do_work (VStr "a") (VStr "b") (VInt 3)) (World ∅ []) /\
  is_float (VFloat (F64.literal 15 1)) /\ World ∅ [] = World ∅ [].
Proof.
  split.
  - apply (proj1 (do_work_returns_only_on_numbers (VStr "a") (VStr "b") (VInt 3)
                    (World ∅ []))).
    by left.
  - apply (proj2 (do_work_returns_only_on_numbers (VInt 1) (VBool true)
                    (VFloat (F64.literal 15 1)) (World ∅ []))
             ltac:(by eexists) ltac:(by eexists) ltac:(by eexists)
             (VFloat (F64.literal 15 1)) (World ∅ [])).
    by vm_compute.
Defined.

(** ** [do_work]: what it raises *)

Lemma bound_mono h h' v : h ⊆ h' -> bound h v -> bound h' v.
Proof.
  intros Hsub. destruct v; simpl; try done.
  intros [o Ho]. exists o. by eapply lookup_weaken.
Qed.

Lemma is_number_bound h v : is_number v -> bound h v.
Proof. intros [x Hx]. by destruct v. Qed.

Lemma lift_number_sound w r :
  number_or_overflow r -> sound_outcome w (run (lift r) w).
Proof.
  intros Hr. split; [done|]. destruct r as [v|e]; simpl in *.
  - by apply is_number_bound.
  - right. by left.
Qed.

Lemma run_deref_list_bound w l :
  is_Some (heap w !! l) ->
  (exists xs, run (deref_list l) w = (Returned xs, w)) \/
  run (deref_list l) w = (Raised TypeError, w).
Proof.
  intros [o Ho]. unfold deref_list, run, mbind, M_bind, deref. rewrite Ho.
  destruct o; eauto.
Qed.

Lemma alloc_sound w o : sound_outcome w (run (alloc o) w).
Proof.
  unfold run, alloc, sound_outcome. simpl.
  pose proof (is_fresh (dom (heap w))) as Hfresh.
  apply not_elem_of_dom in Hfresh. split.
  - by apply insert_subseteq.
  - rewrite lookup_insert_eq. by eexists.
Qed.

Lemma raise_sound w e : operator_error e -> sound_outcome w (run (raise e) w).
Proof. intros He. by split. Qed.

Lemma str_mul_sound w s n : sound_outcome w (run (str_mul s n) w).
Proof.
  unfold str_mul.
  repeat match goal with |- context [if ?b then _ else _] => destruct b end;
    first [ apply raise_sound; right; by left | split; [done | exact I] ].
Qed.

Lemma list_mul_sound w xs n : sound_outcome w (run (list_mul xs n) w).
Proof.
  unfold list_mul.
  repeat match goal with |- context [if ?b then _ else _] => destruct b end;
    first [ apply alloc_sound
          | apply raise_sound; right; by left
          | apply raise_sound; right; by right ].
Qed.

Lemma repeat_sound w l n :
  is_Some (heap w !! l) ->
  sound_outcome w (run (xs ← deref_list l; list_mul xs n) w).
Proof.
  intros Hl. rewrite run_bind.
  destruct (run_deref_list_bound w l Hl) as [[xs ->] | ->].
  - apply list_mul_sound.
  - apply raise_sound. by left.
Qed.

Lemma py_add_sound a b w :
  bound (heap w) a -> bound (heap w) b -> sound_outcome w (run (py_add a b) w).
Proof.
  intros Ha Hb. unfold py_add.
  destruct (as_num a) as [x|] eqn:Hx, (as_num b) as [y|] eqn:Hy.
  { apply lift_number_sound, num_add_ok. }
  all: destruct a; try discriminate; destruct b; try discriminate;
    try (apply raise_sound; by left); try (split; [done | exact I]).
  all: rewrite run_bind;
    destruct (run_deref_list_bound w _ Ha) as [[xs ->] | ->];
    [|apply raise_sound; by left];
    rewrite run_bind;
    destruct (run_deref_list_bound w _ Hb) as [[ys ->] | ->];
    [apply alloc_sound | apply raise_sound; by left].
Qed.

Lemma py_mul_sound a b w :
  bound (heap w) a -> bound (heap w) b -> sound_outcome w (run (py_mul a b) w).
Proof.
  intros Ha Hb. unfold py_mul.
  destruct (as_num a) as [x|] eqn:Hx, (as_num b) as [y|] eqn:Hy.
  { apply lift_number_sound, num_mul_ok. }
  all: destruct a; try discriminate; destruct b; try discriminate;
    cbn [as_index];
    first [ apply raise_sound; by left
          | by apply repeat_sound
          | apply str_mul_sound ].
Qed.

Lemma py_truediv_2_raises a w e w' :
  run (py_truediv a (VInt 2)) w = (Raised e, w') -> operator_error e.
Proof.
  unfold py_truediv. destruct (as_num a) as [x|]; cbn [as_num].
  - pose proof (num_truediv_2_ok x) as Hdiv. unfold run, lift.
    intros [= Hr _]. rewrite Hr in Hdiv. right. by left.
  - unfold run, raise. intros [= <- _]. by left.
Qed.

(** X17. For [x], [y], [z] that are each [None], a [bool], an [int], a
    [float], a [str], a list, a dict or an instance of a plain class,
    [do_work] raises nothing but [TypeError], [OverflowError] and
    [MemoryError]: the divisor is the literal 2, so no argument, [z = 0]
    included, leads to [ZeroDivisionError]. *)
Theorem do_work_raises_operator_errors
    (x y z : value) (w w' : world) (e : exn) :
  bound (heap w) x -> bound (heap w) y -> bound (heap w) z ->
  run (do_work x y z) w = (Raised e, w') ->
  e = TypeError \/ e = OverflowError \/ e = MemoryError.
Proof.
  intros Hx Hy Hz. unfold do_work. rewrite run_bind.
  destruct (py_add_sound x y w Hx Hy) as [Hsub1 Hadd].
  destruct (run (py_add x y) w) as [[temp|e1] w1]; simpl in Hsub1, Hadd;
    [|by intros [= <- _]].
  rewrite run_bind.
  destruct (py_mul_sound temp z w1 Hadd (bound_mono _ _ z Hsub1 Hz)) as [Hsub2 Hmul].
  destruct (run (py_mul temp z) w1) as [[data|e2] w2]; simpl in Hsub2, Hmul;
    [|by intros [= <- _]].
  rewrite run_bind.
  pose proof (py_truediv_2_raises data w2) as Hdiv.
  destruct (run (py_truediv data (VInt 2)) w2) as [[val|e3] w3]; [done|].
  intros [= <- _]. by apply (Hdiv e3 w3).
Qed.

Lemma do_work_raises_operator_errors_witness :
  OverflowError = TypeError \/ OverflowError = OverflowError \/
  OverflowError = MemoryError.
Proof.
  apply (do_work_raises_operator_errors (VStr "a") (VStr "b") (VInt (- 10 ^ 30))
           (World ∅ []) (World ∅ []) OverflowError); try exact I.
  by vm_compute.
Defined.

(** ** [do_work]: the order of [x] and [y] *)

Lemma SFadd_comm x y : F64.add x y = F64.add y x.
Proof.
  unfold F64.add.
  destruct x as [sx|sx| |sx mx ex], y as [sy|sy| |sy my ey];
    try reflexivity; try (by destruct sx, sy).
  unfold SFadd. change IntDef.Z.min with Z.min.
  by rewrite (Z.min_comm ey ex), Z.add_comm.
Qed.

Lemma float_binop_add_comm x y :
  float_binop F64.add x y = float_binop F64.add y x.
Proof.
  unfold float_binop.
  destruct (to_float_cases x) as [[f ->] | ->], (to_float_cases y) as [[g ->] | ->];
    try reflexivity.
  by rewrite SFadd_comm.
Qed.

Lemma num_add_comm x y : num_add x y = num_add y x.
Proof.
  destruct x as [a|f], y as [b|g]; unfold num_add;
    [by rewrite Z.add_comm | apply float_binop_add_comm ..].
Qed.

(** X18. On numbers [do_work] does not depend on the order of [x] and
    [y]: [do_work(x, y, z)] and [do_work(y, x, z)] return the same value
    or raise the same exception. *)
Theorem do_work_symmetric (x y z : value) (w : world) :
  is_number x -> is_number y ->
  run (do_work x y z) w = run (do_work y x z) w.
Proof.
  intros [nx Hx] [ny Hy]. unfold do_work.
  rewrite !run_bind, (run_py_add_num x y nx ny w Hx Hy),
    (run_py_add_num y x ny nx w Hy Hx).
  by rewrite num_add_comm.
Qed.

Lemma do_work_symmetric_witness :
  run (do_work (VInt 7) (VFloat (F64.literal 25 1)) (VInt 3)) (World ∅ []) =
  run (do_work (VFloat (F64.literal 25 1)) (VInt 7) (VInt 3)) (World ∅ []).
Proof.
  apply (do_work_symmetric (VInt 7) (VFloat (F64.literal 25 1)) (VInt 3) (World ∅ []));
    by eexists.
Defined.

(** ** [do_work] on integers: the division by 2 *)

Lemma div_eucl_eq a b : Z.div_eucl a b = (a / b, a mod b).
Proof. unfold Z.div, Z.modulo. by destruct (Z.div_eucl a b). Qed.

Lemma Zdigits2_ge_1 p : 1 <= Zdigits2 (Zpos p).
Proof. rewrite Zdigits2_log2. pose proof (Z.log2_nonneg (Zpos p)). lia. Qed.

(** Below [2^54] the dividend is shifted to 55 bits and the quotient is
    exact. *)
Lemma div_core_small p :
  Zpos p < 2 ^ 54 ->
  SFdiv_core_binary F64.prec F64.emax (Zpos p) 0 2 0 =
  (Zpos p * 2 ^ (54 - Zdigits2 (Zpos p)), Zdigits2 (Zpos p) - 55, loc_Exact).
Proof.
  intros Hp. unfold SFdiv_core_binary. rewrite fexp64.
  change (Zdigits2 2) with 2.
  change IntDef.Z.min with Z.min. change IntDef.Z.shiftl with Z.shiftl.
  change IntDef.Z.div_eucl with Z.div_eucl.
  pose proof (Zdigits2_ge_1 p) as Hd1.
  assert (Zdigits2 (Zpos p) <= 54) as Hd2.
  { rewrite Zdigits2_log2.
    assert (Z.log2 (Zpos p) < 54) by (apply Z.log2_lt_pow2; lia). lia. }
  set (d := Zdigits2 (Zpos p)) in *.
  replace (Z.min (Z.max (d + 0 - (2 + 0) - 53) (-1074)) (0 - 0)) with (d - 55) by lia.
  cbv zeta.
  destruct (0 - 0 - (d - 55)) as [|s|s] eqn:Hs; try lia.
  rewrite Z.shiftl_mul_pow2, div_eucl_eq by lia.
  replace (Z.pos s) with (54 - d + 1) by lia.
  rewrite Z.pow_add_r, Z.pow_1_r, Z.mul_assoc by lia.
  rewrite Z.div_mul, Z.mod_mul by lia. reflexivity.
Qed.

(** From [2^54] on the dividend is divided as it is. *)
Lemma div_core_large p :
  2 ^ 54 <= Zpos p ->
  SFdiv_core_binary F64.prec F64.emax (Zpos p) 0 2 0 =
  (Zpos p / 2, 0, if Zpos p mod 2 =? 0 then loc_Exact else loc_Inexact Eq).
Proof.
  intros Hp. unfold SFdiv_core_binary. rewrite fexp64.
  change (Zdigits2 2) with 2.
  change IntDef.Z.min with Z.min. change IntDef.Z.shiftl with Z.shiftl.
  change IntDef.Z.div_eucl with Z.div_eucl.
  assert (55 <= Zdigits2 (Zpos p)) as Hd.
  { rewrite Zdigits2_log2.
    assert (54 <= Z.log2 (Zpos p)) by (apply Z.log2_le_pow2; lia). lia. }
  set (d := Zdigits2 (Zpos p)) in *.
  replace (Z.min (Z.max (d + 0 - (2 + 0) - 53) (-1074)) (0 - 0)) with 0 by lia.
  cbv zeta. change (0 - 0 - 0) with 0. cbv iota.
  rewrite div_eucl_eq. f_equal.
  pose proof (Z.mod_pos_bound (Zpos p) 2 ltac:(lia)) as Hr.
  unfold new_location. change (IntDef.Z.even 2) with true. cbv iota.
  unfold new_location_even.
  destruct (Z.eqb_spec (Zpos p mod 2) 0) as [E|E]; [done|].
  replace (Z.pos p mod 2) with 1 by lia. reflexivity.
Qed.

(** Rounding a quotient with a remainder of one half: the result is the
    rounding of the odd dividend [2 q + 1] halved. *)
Lemma binary_round_aux_half q :
  2 ^ 53 <= Zpos q ->
  binary_round_aux F64.prec F64.emax false (Zpos q) 0 (loc_Inexact Eq) =
  decode (Zdigits2 (Zpos q) - 53)
         (rne (2 * Zpos q + 1) (1 + (Zdigits2 (Zpos q) - 53))).
Proof.
  intros Hq. rewrite Zdigits2_log2.
  assert (53 <= Z.log2 (Zpos q)) as Hlog by (apply Z.log2_le_pow2; lia).
  set (c := Z.log2 (Zpos q) + 1 - 53). set (M := 2 * Zpos q + 1).
  assert (Z.log2 M = Z.log2 (Zpos q) + 1) as HlogM
    by (unfold M; apply Z.log2_succ_double; lia).
  unfold binary_round_aux, shr_fexp. rewrite fexp64, Zdigits2_log2.
  replace (Z.max (Z.log2 (Zpos q) + 1 + 0 - 53) (-1074) - 0) with c by lia.
  simpl shr_record_of_loc at 1.
  assert (shr_inv M 1 (Build_shr_record (Zpos q) true false)) as Hinv0.
  { unfold shr_inv, loc_of. simpl shr_m. simpl loc_of_shr_record.
    rewrite Z.pow_1_r.
    assert (M / 2 = Zpos q) as -> by (symmetry; apply (Z.div_unique M 2 _ 1); lia).
    assert (M mod 2 = 1) as -> by (symmetry; apply (Z.mod_unique M 2 (Zpos q) 1); lia).
    done. }
  destruct c as [|pc|pc] eqn:Hc; try lia.
  pose proof (iter_shr_1_inv M pc 1 _ ltac:(lia) ltac:(lia) Hinv0) as Hinv.
  unfold shr at 1.
  rewrite (round_nearest_even_rne M (1 + Zpos pc) _ ltac:(lia) Hinv).
  pose proof (rne_upper M (1 + Zpos pc) ltac:(lia) ltac:(lia) ltac:(lia)) as Hup.
  pose proof (rne_nonneg M (1 + Zpos pc) ltac:(lia) ltac:(lia)) as Hlo.
  set (k := rne _ _) in *. rewrite fexp64. rewrite Z.add_0_l.
  simpl shr_record_of_loc.
  destruct (Z.eq_dec k (2 ^ 53)) as [->|Hne].
  - change (Zdigits2 (2 ^ 53)) with 54.
    replace (Z.max (54 + Zpos pc - 53) (-1074) - Zpos pc) with 1 by lia.
    cbn -[Z.leb]. reflexivity.
  - rewrite decode_small by lia. rewrite shr_nonpos.
    + simpl shr_m. by destruct k.
    + destruct k as [|m|m]; [simpl; lia| |lia].
      rewrite Zdigits2_log2.
      assert (Z.log2 (Z.pos m) < 53) by (apply Z.log2_lt_pow2; lia). lia.
Qed.

(** Halving a positive integer: the quotient is a good float, at the
    position of the rounding of [n / 2]. *)
Lemma div_Z_2_ord p :
  ord (F64.div_Z (Zpos p) 2) = ordr (Zpos p * 2 ^ (scale - 1)) /\
  good (F64.div_Z (Zpos p) 2).
Proof.
  unfold F64.div_Z, F64.div, F64.exact, SFdiv. cbn [xorb].
  pose proof (Zdigits2_log2 p) as Hd.
  pose proof (Z.log2_nonneg (Zpos p)) as Hl0.
  destruct (Z.lt_ge_cases (Zpos p) (2 ^ 54)) as [Hp|Hp].
  - rewrite div_core_small by done.
    assert (Z.log2 (Zpos p) < 54) as Hl by (apply Z.log2_lt_pow2; lia).
    set (d := Zdigits2 (Zpos p)) in *.
    pose proof (pow2_gt0 (54 - d) ltac:(lia)) as Hpow.
    destruct (Zpos p * 2 ^ (54 - d)) as [|M|M] eqn:HM; try nia.
    assert (Zpos p * 2 ^ (scale - 1) = Zpos M * 2 ^ (d - 55 + scale)) as ->.
    { rewrite <- HM, <- Z.mul_assoc, <- Z.pow_add_r by (unfold scale; lia).
      do 2 f_equal. lia. }
    apply binary_round_aux_ord; [unfold scale; lia|].
    rewrite fexp64, Zdigits2_log2, <- HM, Z.log2_mul_pow2 by lia. lia.
  - rewrite div_core_large by done.
    assert (54 <= Z.log2 (Zpos p)) as Hl by (apply Z.log2_le_pow2; lia).
    pose proof (Z.div_mod (Zpos p) 2 ltac:(lia)) as Hdm.
    pose proof (Z.mod_pos_bound (Zpos p) 2 ltac:(lia)) as Hr.
    destruct (Zpos p / 2) as [|M|M] eqn:HM; try lia.
    assert (2 ^ 53 <= Zpos M) as HM53 by (change (2 ^ 54) with (2 * 2 ^ 53) in Hp; lia).
    assert (53 <= Z.log2 (Zpos M)) as HlM by (apply Z.log2_le_pow2; lia).
    destruct (Z.eqb_spec (Zpos p mod 2) 0) as [E|E].
    + assert (Zpos p * 2 ^ (scale - 1) = Zpos M * 2 ^ (0 + scale)) as ->.
      { replace (0 + scale) with (1 + (scale - 1)) by lia.
        rewrite Z.pow_add_r, Z.pow_1_r by (unfold scale; lia). lia. }
      apply binary_round_aux_ord; [unfold scale; lia|].
      rewrite fexp64, Zdigits2_log2. lia.
    + assert (Zpos p = 2 * Zpos M + 1) as Hodd by lia.
      rewrite binary_round_aux_half by done.
      rewrite Zdigits2_log2. set (c := Z.log2 (Zpos M) + 1 - 53).
      assert (Z.log2 (2 * Zpos M + 1) = Z.log2 (Zpos M) + 1) as HlogM
        by (apply Z.log2_succ_double; lia).
      unfold ordr.
      pose proof (pow2_gt0 (scale - 1) ltac:(unfold scale; lia)) as Hpow.
      destruct (Z.eqb_spec (Zpos p * 2 ^ (scale - 1)) 0) as [E0|_]; [nia|].
      assert (cexp (Zpos p * 2 ^ (scale - 1)) = c) as ->.
      { unfold cexp. rewrite Z.log2_mul_pow2 by (unfold scale; lia).
        rewrite Hodd, HlogM. unfold c, scale. lia. }
      replace (c + scale) with (1 + c + (scale - 1)) by lia.
      rewrite rne_scale by (unfold scale, c; lia). rewrite Hodd.
      apply ord_decode; [unfold c; lia | |].
      * split; [apply rne_nonneg; unfold c; lia | apply rne_upper; unfold c; lia].
      * intros _. apply rne_lower; unfold c; lia.
Qed.

Lemma div_Z_2_neg p : F64.div_Z (Zneg p) 2 = SFopp (F64.div_Z (Zpos p) 2).
Proof.
  unfold F64.div_Z, F64.div, F64.exact, SFdiv. cbn [xorb].
  destruct (SFdiv_core_binary _ _ _ _ _ _) as [[mz ez] lz].
  apply binary_round_aux_opp.
Qed.

(** Good floats other than zero are told apart by their positions. *)
Lemma ord_inj f g : good f -> good g -> 0 < ord f -> ord f = ord g -> f = g.
Proof.
  intros Hf Hg Hpos Heq.
  destruct f as [s1|s1| |s1 m1 e1]; simpl in Hf; try done.
  - subst s1. destruct g as [s2|s2| |s2 m2 e2]; simpl in Hg; try done.
    + by subst.
    + pose proof (ord_finite_lt_inf s2 m2 e2 Hg) as Hlt. simpl in Heq, Hlt. lia.
  - destruct g as [s2|s2| |s2 m2 e2]; simpl in Hg; try done.
    + simpl in Hpos, Heq. lia.
    + pose proof (ord_finite_lt_inf s1 m1 e1 Hf) as Hlt. simpl in Heq, Hlt. lia.
    + destruct Hf as (-> & He1 & Hm1 & Hn1), Hg as (-> & He2 & Hm2 & Hn2).
      simpl in Heq.
      assert (e1 = e2) as -> by lia. f_equal. lia.
Qed.

Lemma ordr_pos X : 2 ^ (scale - 1) <= X -> 0 < ordr X.
Proof.
  intros HX. pose proof (pow2_gt0 (scale - 1) ltac:(done)) as Hpow.
  unfold ordr. destruct (Z.eqb_spec X 0) as [E|_]; [lia|].
  assert (scale - 1 <= Z.log2 X) as Hl by (apply Z.log2_le_pow2; lia).
  assert (-1074 < cexp X) as Hc by (unfold cexp, scale in *; lia).
  pose proof (rne_nonneg X (cexp X + scale) ltac:(lia) (cexp_shift X)) as Hr.
  unfold ord_inf. apply Z.min_glb_lt; [nia | done].
Qed.

(** Halving an even integer is exact: [2 k / 2] is [float(k)]. *)
Lemma div_Z_2_even k : F64.div_Z (2 * k) 2 = F64.of_Z k.
Proof.
  assert (forall p, F64.div_Z (Zpos p~0) 2 = F64.of_Z (Zpos p)) as Hpos.
  { intros p. destruct (div_Z_2_ord p~0) as [Hord Hgood].
    destruct (of_Z_ord (Zpos p) ltac:(lia)) as [Hord' Hgood'].
    pose proof (pow2_gt0 scale ltac:(done)) as Hpow.
    assert (Zpos p~0 * 2 ^ (scale - 1) = Zpos p * 2 ^ scale) as Hval.
    { replace scale with (1 + (scale - 1)) at 2 by lia.
      rewrite Z.pow_add_r, Z.pow_1_r by (unfold scale; lia). lia. }
    symmetry. apply ord_inj; [done | done | |].
    - rewrite Hord'. apply ordr_pos.
      replace scale with (1 + (scale - 1)) at 2 by lia.
      rewrite Z.pow_add_r, Z.pow_1_r by (unfold scale; lia).
      pose proof (pow2_gt0 (scale - 1) ltac:(done)). nia.
    - by rewrite Hord, Hord', Hval. }
  destruct k as [|p|p]; [reflexivity | apply Hpos |].
  change (2 * Zneg p) with (Zneg p~0).
  by rewrite div_Z_2_neg, of_Z_neg, Hpos.
Qed.

Lemma is_inf_opp f : F64.is_inf (SFopp f) = F64.is_inf f.
Proof. by destruct f. Qed.

(** The quotient overflows from [2^1025 - 2^971] on. *)
Lemma div_Z_2_is_inf_iff n :
  F64.is_inf (F64.div_Z n 2) = true <-> 2 ^ 1025 - 2 ^ 971 <= Z.abs n.
Proof.
  assert (forall p, F64.is_inf (F64.div_Z (Zpos p) 2) = true <->
                    2 ^ 1025 - 2 ^ 971 <= Zpos p) as Hpos.
  { intros p. destruct (div_Z_2_ord p) as [Hord Hgood].
    pose proof (pow2_gt0 (scale - 1) ltac:(done)) as Hpow.
    split.
    - intros Hinf.
      destruct (Z.le_gt_cases (2 ^ 1025 - 2 ^ 971) (Zpos p)) as [|Hlt]; [done|].
      rewrite good_ord_lt_inf in Hinf; [done | done |]. rewrite Hord.
      eapply Z.le_lt_trans.
      + apply (ordr_mono _ ((2 ^ 1025 - 2 ^ 971 - 1) * 2 ^ (scale - 1))); nia.
      + by vm_compute.
    - intros Hle. apply good_ord_inf; [done|]. rewrite Hord.
      apply Z.le_antisymm; [apply ordr_le_inf|].
      assert (ordr ((2 ^ 1025 - 2 ^ 971) * 2 ^ (scale - 1)) = ord_inf) as <-
        by (by vm_compute).
      apply ordr_mono; nia. }
  destruct n as [|p|p].
  - split; [done | intros H; by vm_compute in H].
  - apply Hpos.
  - rewrite div_Z_2_neg, is_inf_opp. apply Hpos.
Qed.

Lemma run_do_work_ints x y z w :
  run (do_work (VInt x) (VInt y) (VInt z)) w =
  (if F64.is_inf (F64.div_Z ((x + y) * z) 2) then Raised OverflowError
   else Returned (VFloat (F64.div_Z ((x + y) * z) 2)), w).
Proof.
  unfold do_work.
  rewrite run_bind, (run_py_add_num (VInt x) (VInt y) _ _ w eq_refl eq_refl).
  cbn [num_add]. cbv beta iota.
  rewrite run_bind, (run_py_mul_num (VInt (x + y)) (VInt z) _ _ w eq_refl eq_refl).
  cbn [num_mul]. cbv beta iota.
  rewrite run_bind,
    (run_py_truediv_num (VInt ((x + y) * z)) (VInt 2) _ _ w eq_refl eq_refl).
  unfold num_truediv. change (2 =? 0) with false. cbv iota.
  by destruct (F64.is_inf _).
Qed.

(** X19. On three integers [do_work] raises [OverflowError] exactly
    when the magnitude of [(x + y) * z] is at least [2^1025 - 2^971],
    and returns a float exactly when it is below: the product itself may
    exceed every float, as long as its half rounds to one. *)
Theorem do_work_int_overflow (x y z : Z) (w : world) :
  (run (do_work (VInt x) (VInt y) (VInt z)) w = (Raised OverflowError, w) <->
   2 ^ 1025 - 2 ^ 971 <= Z.abs ((x + y) * z)) /\
  ((exists f, run (do_work (VInt x) (VInt y) (VInt z)) w = (Returned (VFloat f), w)) <->
   Z.abs ((x + y) * z) < 2 ^ 1025 - 2 ^ 971).
Proof.
  rewrite run_do_work_ints.
  pose proof (div_Z_2_is_inf_iff ((x + y) * z)) as Hiff.
  destruct (Z.le_gt_cases (2 ^ 1025 - 2 ^ 971) (Z.abs ((x + y) * z))) as [Hle|Hlt].
  - rewrite (proj2 Hiff Hle). split; split; try done.
    + by intros [f Hf].
    + lia.
  - assert (F64.is_inf (F64.div_Z ((x + y) * z) 2) = false) as ->.
    { apply not_true_is_false. intros Hinf%Hiff. lia. }
    split; split; try done; try lia. intros _. by eexists.
Qed.

(** X20. On three integers with an even product [(x + y) * z = 2 k],
    [do_work] is the conversion of [k] to [float]: it returns [float(k)]
    and raises [OverflowError] where [float(k)] does.  In particular
    [do_work(x, y, 2)] is [float(x + y)]. *)
Theorem do_work_even_product (x y z k : Z) (w : world) :
  (x + y) * z = 2 * k ->
  run (do_work (VInt x) (VInt y) (VInt z)) w =
  (match to_float (NInt k) with
   | Returned f => Returned (VFloat f)
   | Raised e => Raised e
   end, w).
Proof.
  intros Hk. rewrite run_do_work_ints, Hk, div_Z_2_even.
  unfold to_float. by destruct (F64.is_inf _).
Qed.

Lemma do_work_even_product_witness :
  run (do_work (VInt 3) (VInt 4) (VInt 6)) (World ∅ []) =
  (match to_float (NInt 21) with
   | Returned f => Returned (VFloat f)
   | Raised e => Raised e
   end, World ∅ []).
Proof. apply (do_work_even_product 3 4 6 21 (World ∅ [])). reflexivity. Defined.

(** *** Halving keeps the order of the integers *)

Lemma div_Z_2_pos_finite p :
  F64.is_inf (F64.div_Z (Zpos p) 2) = false ->
  exists m e, F64.div_Z (Zpos p) 2 = S754_finite false m e.
Proof.
  destruct (div_Z_2_ord p) as [Hord Hgood]. intros Hinf.
  assert (0 < ord (F64.div_Z (Zpos p) 2)) as Hpos.
  { rewrite Hord. apply ordr_pos.
    pose proof (pow2_gt0 (scale - 1) ltac:(done)). nia. }
  destruct (F64.div_Z (Zpos p) 2) as [s|s| |s m e]; try done.
  exists m, e. by rewrite (good_sign _ _ _ Hgood).
Qed.

Lemma SFleb_opp_finite m1 e1 m2 e2 :
  SFleb (S754_finite false m2 e2) (S754_finite false m1 e1) = true ->
  SFleb (S754_finite true m1 e1) (S754_finite true m2 e2) = true.
Proof.
  unfold SFleb, SFcompare.
  change (PosDef.Pos.compare_cont Eq) with Pos.compare.
  rewrite (Z.compare_antisym e2 e1), (Pos.compare_antisym m2 m1).
  by destruct (e2 ?= e1), (m2 ?= m1)%positive.
Qed.

Lemma div_Z_2_pos_mono p1 p2 :
  (p1 <= p2)%positive ->
  SFleb (F64.div_Z (Zpos p1) 2) (F64.div_Z (Zpos p2) 2) = true.
Proof.
  intros Hle. destruct (div_Z_2_ord p1) as [Hord1 Hgood1].
  destruct (div_Z_2_ord p2) as [Hord2 Hgood2].
  apply ord_le_SFleb; [done | done |]. rewrite Hord1, Hord2.
  pose proof (pow2_gt0 (scale - 1) ltac:(done)). apply ordr_mono; nia.
Qed.

Lemma div_Z_2_mono n1 n2 :
  n1 <= n2 ->
  F64.is_inf (F64.div_Z n1 2) = false -> F64.is_inf (F64.div_Z n2 2) = false ->
  SFleb (F64.div_Z n1 2) (F64.div_Z n2 2) = true.
Proof.
  intros Hle Hinf1 Hinf2. destruct n1 as [|p1|p1], n2 as [|p2|p2]; try lia.
  - reflexivity.
  - destruct (div_Z_2_pos_finite p2 Hinf2) as (m & e & ->). reflexivity.
  - by apply div_Z_2_pos_mono.
  - rewrite div_Z_2_neg, is_inf_opp in Hinf1. rewrite div_Z_2_neg.
    destruct (div_Z_2_pos_finite p1 Hinf1) as (m & e & ->). reflexivity.
  - rewrite div_Z_2_neg, is_inf_opp in Hinf1. rewrite div_Z_2_neg.
    destruct (div_Z_2_pos_finite p1 Hinf1) as (m1 & e1 & ->).
    destruct (div_Z_2_pos_finite p2 Hinf2) as (m2 & e2 & ->). reflexivity.
  - rewrite div_Z_2_neg, is_inf_opp in Hinf1, Hinf2. rewrite !div_Z_2_neg.
    pose proof (div_Z_2_pos_mono p2 p1 ltac:(lia)) as Hmono.
    destruct (div_Z_2_pos_finite p1 Hinf1) as (m1 & e1 & E1).
    destruct (div_Z_2_pos_finite p2 Hinf2) as (m2 & e2 & E2).
    rewrite E1, E2 in *. by apply SFleb_opp_finite.
Qed.

(** X21. On integers [do_work] keeps the order of the products: if
    [(x + y) * z <= (x' + y') * z'] and both calls return, the first
    result is [<=] the second, whatever the signs. *)
Theorem do_work_int_monotone (x y z x' y' z' : Z) (f f' : spec_float) (w : world) :
  (x + y) * z <= (x' + y') * z' ->
  run (do_work (VInt x) (VInt y) (VInt z)) w = (Returned (VFloat f), w) ->
  run (do_work (VInt x') (VInt y') (VInt z')) w = (Returned (VFloat f'), w) ->
  SFleb f f' = true.
Proof.
  intros Hle. rewrite !run_do_work_ints.
  destruct (F64.is_inf (F64.div_Z ((x + y) * z) 2)) eqn:Hinf1; [done|].
  destruct (F64.is_inf (F64.div_Z ((x' + y') * z') 2)) eqn:Hinf2; [done|].
  intros [= <-] [= <-]. by apply div_Z_2_mono.
Qed.

Lemma do_work_int_monotone_witness :
  SFleb (S754_finite true 5910974510923776 (-49))
        (S754_finite false 5910974510923776 (-49)) = true.
Proof.
  apply (do_work_int_monotone (-3) (-4) 3 1 2 7
           (S754_finite true 5910974510923776 (-49))
           (S754_finite false 5910974510923776 (-49)) (World ∅ []));
    [lia | by vm_compute | by vm_compute].
Defined.

(** ** [process_order]: items that cannot be iterated over *)

(** X22. With the five conditions true, items that cannot be iterated
    over ([None], a number, an instance) make [process_order] raise
    [TypeError] once the first line has been printed; the store is as
    before. *)
Theorem process_order_items_not_iterable
    (order_id customer_name email phone address city state zip_code
     items payment_method shipping_method : value) (w : world) :
  conds_hold (heap w) [order_id; customer_name; email; phone; address] =
    Returned true ->
  bound (heap w) items -> ~ iterable (heap w) items ->
  run (process_order order_id customer_name email phone address city state
         zip_code items payment_method shipping_method) w =
  (Raised TypeError, World (heap w) (stdout w ++ ["Processing order..."%string])).
Proof.
  intros Hconds Hb Hit. rewrite run_process_order, Hconds. cbv zeta.
  unfold order_loops.
  by rewrite (run_bind_raised_eq _ _ _ _ _
                (run_py_iter_not_iterable items (World (heap w) _) Hb Hit)).
Qed.

Lemma process_order_items_not_iterable_witness :
  run (process_order (VInt 7) (VStr "Ann") (VStr "a@b.c") (VStr "555")
         (VStr "Main St") VNone VNone VNone VNone VNone VNone)
      (World ∅ []) =
  (Raised TypeError, World ∅ ([] ++ ["Processing order..."%string])).
Proof.
  apply (process_order_items_not_iterable (VInt 7) (VStr "Ann") (VStr "a@b.c")
           (VStr "555") (VStr "Main St") VNone VNone VNone VNone VNone VNone
           (World ∅ [])); [reflexivity | exact I | by intros []].
Defined.

(** ** Running a function a second time

    What a function does to the store is to create lists ([+] and [*]
    on lists); a function that has created one raises, and raises the
    same exception when it is run again on the store it has left. *)

Lemma alloc_extends (H : gmap loc obj) o : H ⊆ <[fresh (dom H) := o]> H.
Proof. apply insert_subseteq, not_elem_of_dom, is_fresh. Qed.

Lemma run_alloc H out o :
  run (alloc o) (World H out) =
  (Returned (VRef (fresh (dom H))), World (<[fresh (dom H) := o]> H) out).
Proof. reflexivity. Qed.

Lemma run_deref_list w l xs :
  heap w !! l = Some (OList xs) -> run (deref_list l) w = (Returned xs, w).
Proof. intros Hl. unfold deref_list, run, mbind, M_bind, deref. by rewrite Hl. Qed.

Lemma deref_list_cases l h :
  (exists xs, h !! l = Some (OList xs)) \/
  (exists e, forall out, run (deref_list l) (World h out) = (Raised e, World h out)).
Proof.
  destruct (h !! l) as [o|] eqn:Hl.
  - destruct o as [xs|kvs|cls attrs|d kvs]; [left; by eexists | right ..];
      exists TypeError; intros out;
      unfold deref_list, run, mbind, M_bind, deref; simpl; by rewrite Hl.
  - right. exists SystemError. intros out.
    unfold deref_list, run, mbind, M_bind, deref. simpl. by rewrite Hl.
Qed.

Lemma constant_ret {A} (a : A) : constant (mret a).
Proof. by exists (Returned a). Qed.

Lemma constant_raise {A} e : constant (raise e : M A).
Proof. by exists (Raised e). Qed.

Lemma constant_lift {A} (r : result A) : constant (lift r).
Proof. by exists r. Qed.

Lemma constant_bind {A B} (c : M A) (k : A -> M B) :
  constant c -> (forall a, constant (k a)) -> constant (c ≫= k).
Proof.
  intros [r Hr] Hk. destruct r as [a|e].
  - destruct (Hk a) as [r2 Hr2]. exists r2. intros w.
    by rewrite run_bind, Hr, Hr2.
  - exists (Raised e). intros w. by rewrite run_bind, Hr.
Qed.

Lemma constant_str_mul s n : constant (str_mul s n).
Proof.
  unfold str_mul.
  repeat match goal with |- context [if ?b then _ else _] => destruct b end;
    first [apply constant_raise | apply constant_ret].
Qed.

Lemma constant_py_truediv a b : constant (py_truediv a b).
Proof.
  unfold py_truediv.
  destruct (as_num a), (as_num b); first [apply constant_lift | apply constant_raise].
Qed.

Lemma constant_py_gt_int a k : constant (py_gt_int a k).
Proof.
  unfold py_gt_int. destruct (as_num a); [apply constant_ret | apply constant_raise].
Qed.

Lemma list_mul_cases xs n :
  (exists e, forall w, run (list_mul xs n) w = (Raised e, w)) \/
  (exists o, plain_obj o = true /\ forall w, run (list_mul xs n) w = run (alloc o) w).
Proof.
  unfold list_mul.
  repeat match goal with |- context [if ?b then _ else _] => destruct b end;
    first [ left; by eexists | right; eexists; split; [|reflexivity]; reflexivity ].
Qed.

(** The four shapes of a product and of a sum. *)
Lemma py_mul_shape a b :
  (exists r, py_mul a b = lift r) \/
  py_mul a b = raise TypeError \/
  (exists s n, py_mul a b = str_mul s n) \/
  (exists l n, py_mul a b = (xs ← deref_list l; list_mul xs n)).
Proof.
  unfold py_mul.
  destruct (as_num a) eqn:Ha, (as_num b) eqn:Hb; [left; by eexists | ..].
  all: destruct a; simpl in *; try discriminate; destruct b; simpl in *;
    try discriminate;
    first [ right; left; reflexivity
          | right; right; left; by eexists _, _
          | right; right; right; by eexists _, _ ].
Qed.

Lemma py_add_shape a b :
  (exists r, py_add a b = lift r) \/
  py_add a b = raise TypeError \/
  (exists s, py_add a b = mret (VStr s)) \/
  (exists l1 l2,
     py_add a b = (xs ← deref_list l1; ys ← deref_list l2; alloc (OList (xs ++ ys)))).
Proof.
  unfold py_add.
  destruct (as_num a) eqn:Ha, (as_num b) eqn:Hb; [left; by eexists | ..].
  all: destruct a; simpl in *; try discriminate; destruct b; simpl in *;
    try discriminate;
    first [ right; left; reflexivity
          | right; right; left; by eexists
          | right; right; right; by eexists _, _ ].
Qed.

(** A product of a list and a number: the error of the operands, or a
    new list on every store that extends [h]. *)
Lemma repeat_cases l n h :
  (exists e, forall out,
     run (xs ← deref_list l; list_mul xs n) (World h out) = (Raised e, World h out)) \/
  (exists o, plain_obj o = true /\ forall H out, h ⊆ H ->
     run (xs ← deref_list l; list_mul xs n) (World H out) =
     (Returned (VRef (fresh (dom H))), World (<[fresh (dom H) := o]> H) out)).
Proof.
  destruct (deref_list_cases l h) as [[xs Hl] | [e He]].
  - destruct (list_mul_cases xs n) as [[e He] | (o & Ho & Halloc)].
    + left. exists e. intros out.
      by rewrite run_bind, (run_deref_list (World h out) l xs Hl), He.
    + right. exists o. split; [done|]. intros H out Hsub.
      rewrite run_bind, (run_deref_list (World H out) l xs), Halloc; [done|].
      by eapply lookup_weaken.
  - left. exists e. intros out. by rewrite run_bind, He.
Qed.

Lemma concat_cases l1 l2 h :
  (exists e, forall out,
     run (xs ← deref_list l1; ys ← deref_list l2; alloc (OList (xs ++ ys)))
       (World h out) = (Raised e, World h out)) \/
  (exists zs, forall H out, h ⊆ H ->
     run (xs ← deref_list l1; ys ← deref_list l2; alloc (OList (xs ++ ys)))
       (World H out) =
     (Returned (VRef (fresh (dom H))), World (<[fresh (dom H) := OList zs]> H) out)).
Proof.
  destruct (deref_list_cases l1 h) as [[xs Hl1] | [e He]].
  - destruct (deref_list_cases l2 h) as [[ys Hl2] | [e He]].
    + right. exists (xs ++ ys). intros H out Hsub.
      rewrite run_bind, (run_deref_list (World H out) l1 xs) by (by eapply lookup_weaken).
      rewrite run_bind, (run_deref_list (World H out) l2 ys) by (by eapply lookup_weaken).
      reflexivity.
    + left. exists e. intros out.
      by rewrite run_bind, (run_deref_list (World h out) l1 xs Hl1), run_bind, He.
  - left. exists e. intros out. by rewrite run_bind, He.
Qed.

(** A product: the same result on every world, an error of the
    operands on [h], or a new list on every store that extends [h]. *)
Lemma py_mul_cases a b h :
  constant (py_mul a b) \/
  (exists e, forall out, run (py_mul a b) (World h out) = (Raised e, World h out)) \/
  (exists o, plain_obj o = true /\ forall H out, h ⊆ H ->
     run (py_mul a b) (World H out) =
     (Returned (VRef (fresh (dom H))), World (<[fresh (dom H) := o]> H) out)).
Proof.
  destruct (py_mul_shape a b) as [[r ->] | [-> | [(s & n & ->) | (l & n & ->)]]].
  - left. apply constant_lift.
  - left. apply constant_raise.
  - left. apply constant_str_mul.
  - right. apply repeat_cases.
Qed.

Lemma py_add_cases a b h :
  constant (py_add a b) \/
  (exists e, forall out, run (py_add a b) (World h out) = (Raised e, World h out)) \/
  (exists zs, forall H out, h ⊆ H ->
     run (py_add a b) (World H out) =
     (Returned (VRef (fresh (dom H))), World (<[fresh (dom H) := OList zs]> H) out)).
Proof.
  destruct (py_add_shape a b) as [[r ->] | [-> | [(s & ->) | (l1 & l2 & ->)]]].
  - left. apply constant_lift.
  - left. apply constant_raise.
  - left. apply constant_ret.
  - right. apply concat_cases.
Qed.

Lemma py_mul_ref_l l z :
  py_mul (VRef l) z =
  match as_index z with
  | Some n => xs ← deref_list l; list_mul xs n
  | None => raise TypeError
  end.
Proof. by destruct z. Qed.

Lemma run_py_truediv_ref l b w :
  run (py_truediv (VRef l) b) w = (Raised TypeError, w).
Proof. reflexivity. Qed.

Lemma reruns_constant {A} (c : M A) h : constant c -> reruns c h.
Proof. intros [r Hr]. left. exists r. intros out. apply Hr. Qed.

(** [do_work] on lists: the sum is a new list, which the product
    rejects or repeats and the division rejects. *)
Lemma do_work_reruns x y z h : reruns (do_work x y z) h.
Proof.
  unfold do_work.
  destruct (py_add_cases x y h) as [[r Hadd] | [[e Hadd] | [zs Hadd]]].
  - destruct r as [temp|e];
      [|left; exists (Raised e); intros out; by rewrite run_bind, Hadd].
    destruct (py_mul_cases temp z h) as [[r Hmul] | [[e Hmul] | (o & Ho & Hmul)]].
    + left. destruct r as [data|e].
      * destruct (constant_py_truediv data (VInt 2)) as [r Hdiv].
        exists r. intros out.
        by rewrite run_bind, Hadd, run_bind, Hmul, bind_ret_r, Hdiv.
      * exists (Raised e). intros out. by rewrite run_bind, Hadd, run_bind, Hmul.
    + left. exists (Raised e). intros out. by rewrite run_bind, Hadd, run_bind, Hmul.
    + right. exists (Raised TypeError). intros H Hsub Hpl.
      exists (<[fresh (dom H) := o]> H).
      split; [apply alloc_extends|]. split; [by apply plain_insert|].
      intros out. by rewrite run_bind, Hadd, run_bind, (Hmul H out Hsub).
  - left. exists (Raised e). intros out. by rewrite run_bind, Hadd.
  - right.
    assert (exists e, forall H1 lf, H1 !! lf = Some (OList zs) -> plain H1 ->
              exists H', H1 ⊆ H' /\ plain H' /\ forall out,
                run (data ← py_mul (VRef lf) z;
                     val ← py_truediv data (VInt 2); mret val) (World H1 out) =
                (Raised e, World H' out)) as [e He].
    { destruct (as_index z) as [n|] eqn:Hz.
      - destruct (list_mul_cases zs n) as [[e He] | (o & Ho & Halloc)].
        + exists e. intros H1 lf Hlf Hpl. exists H1. split; [done|]. split; [done|].
          intros out. rewrite run_bind, py_mul_ref_l, Hz, run_bind.
          by rewrite (run_deref_list (World H1 out) lf zs Hlf), He.
        + exists TypeError. intros H1 lf Hlf Hpl.
          exists (<[fresh (dom H1) := o]> H1).
          split; [apply alloc_extends|]. split; [by apply plain_insert|].
          intros out. rewrite run_bind, py_mul_ref_l, Hz, run_bind.
          by rewrite (run_deref_list (World H1 out) lf zs Hlf), Halloc.
      - exists TypeError. intros H1 lf Hlf Hpl. exists H1.
        split; [done|]. split; [done|].
        intros out. by rewrite run_bind, py_mul_ref_l, Hz. }
    exists (Raised e). intros H Hsub Hpl.
    destruct (He (<[fresh (dom H) := OList zs]> H) (fresh (dom H)))
      as (H' & Hsub' & Hpl' & Hrun).
    { apply lookup_insert_eq. }
    { by apply plain_insert. }
    exists H'. split; [etrans; [apply alloc_extends | exact Hsub']|].
    split; [done|]. intros out. by rewrite run_bind, (Hadd H out Hsub).
Qed.

(** On a plain store a key is read without a trace. *)
Lemma py_getitem_cases v key h :
  plain h ->
  (exists p, forall H out, h ⊆ H ->
     run (py_getitem v key) (World H out) = (Returned p, World H out)) \/
  (exists e, forall out,
     run (py_getitem v key) (World h out) = (Raised e, World h out)).
Proof.
  intros Hh. destruct v; try (right; by exists TypeError).
  destruct (h !! l) as [o|] eqn:Hl.
  - pose proof (plain_lookup h l o Hh Hl) as Ho.
    destruct o as [xs|kvs|cls attrs|d kvs]; try discriminate.
    + right. exists TypeError. intros out.
      unfold py_getitem, run, mbind, M_bind, deref. simpl. by rewrite Hl.
    + destruct (dict_get kvs key) as [p|] eqn:Hp.
      * left. exists p. intros H out Hsub.
        apply run_py_getitem_dict with kvs; [|done]. by eapply lookup_weaken.
      * right. exists KeyError. intros out.
        unfold py_getitem, run, mbind, M_bind, deref. simpl. by rewrite Hl, Hp.
    + right. exists TypeError. intros out.
      unfold py_getitem, run, mbind, M_bind, deref. simpl. by rewrite Hl.
  - right. exists SystemError. intros out.
    unfold py_getitem, run, mbind, M_bind, deref. simpl. by rewrite Hl.
Qed.

Lemma py_iter_cases v h :
  (exists xs, forall H out, h ⊆ H ->
     run (py_iter v) (World H out) = (Returned xs, World H out)) \/
  (exists e, forall out, run (py_iter v) (World h out) = (Raised e, World h out)).
Proof.
  destruct v; try (right; by exists TypeError); [left; by eexists|].
  destruct (h !! l) as [o|] eqn:Hl.
  - destruct o as [xs|kvs|cls attrs|d kvs].
    + left. exists xs. intros H out Hsub.
      unfold py_iter, run, mbind, M_bind, deref. simpl.
      by rewrite (lookup_weaken _ _ _ _ Hl Hsub).
    + left. exists (kvs.*1). intros H out Hsub.
      unfold py_iter, run, mbind, M_bind, deref. simpl.
      by rewrite (lookup_weaken _ _ _ _ Hl Hsub).
    + right. exists TypeError. intros out.
      unfold py_iter, run, mbind, M_bind, deref. simpl. by rewrite Hl.
    + left. exists (kvs.*1). intros H out Hsub.
      unfold py_iter, run, mbind, M_bind, deref. simpl.
      by rewrite (lookup_weaken _ _ _ _ Hl Hsub).
  - right. exists SystemError. intros out.
    unfold py_iter, run, mbind, M_bind, deref. simpl. by rewrite Hl.
Qed.

(** Adding to a running total that is a number looks at no store. *)
Lemma py_iadd_number_constant total b :
  is_number total ->
  exists r, (forall w, run (py_iadd total b) w = (r, w)) /\
            (forall v, r = Returned v -> is_number v).
Proof.
  intros Htotal. destruct Htotal as [x Hx].
  destruct (as_num b) as [y|] eqn:Hy.
  - exists (num_add x y). split.
    + intros w. rewrite py_iadd_number_eq by (by eexists).
      by apply run_py_add_num.
    + apply num_add_number.
  - exists (Raised TypeError). split; [|done]. intros w.
    rewrite py_iadd_number_eq by (by eexists).
    unfold py_add. rewrite Hx, Hy. by destruct total.
Qed.

(** The loop of the totals. *)
Lemma total_loop_reruns xs total h :
  plain h -> is_number total ->
  reruns (for_in xs (fun item total =>
            p ← py_getitem item "price";
            q ← py_getitem item "quantity";
            pq ← py_mul p q;
            py_iadd total pq) total) h.
Proof.
  intros Hh. revert total. induction xs as [|x xs IH]; intros total Htotal.
  { left. by exists (Returned total). }
  rewrite for_in_cons.
  destruct (py_getitem_cases x "price" h Hh) as [[p Hp] | [e Hp]];
    [|left; exists (Raised e); intros out; by rewrite run_bind, run_bind, Hp].
  destruct (py_getitem_cases x "quantity" h Hh) as [[q Hq] | [e Hq]];
    [|left; exists (Raised e); intros out;
      by rewrite run_bind, run_bind, (Hp h out), run_bind, Hq].
  destruct (py_mul_cases p q h) as [[r Hmul] | [[e Hmul] | (o & Ho & Hmul)]].
  - destruct r as [pq|e];
      [|left; exists (Raised e); intros out;
        by rewrite run_bind, run_bind, (Hp h out), run_bind, (Hq h out),
             run_bind, Hmul].
    destruct (py_iadd_number_constant total pq Htotal) as (r & Hadd & Hnum).
    destruct r as [total'|e];
      [|left; exists (Raised e); intros out;
        by rewrite run_bind, run_bind, (Hp h out), run_bind, (Hq h out),
             run_bind, Hmul, Hadd].
    destruct (IH total' (Hnum total' eq_refl)) as [[r Hrest] | [r Hrest]].
    + left. exists r. intros out.
      by rewrite run_bind, run_bind, (Hp h out), run_bind, (Hq h out),
           run_bind, Hmul, Hadd, Hrest.
    + right. exists r. intros H Hsub Hpl.
      destruct (Hrest H Hsub Hpl) as (H' & Hsub' & Hpl' & Hrun).
      exists H'. split; [done|]. split; [done|]. intros out.
      by rewrite run_bind, run_bind, (Hp H out Hsub), run_bind, (Hq H out Hsub),
           run_bind, Hmul, Hadd.
  - left. exists (Raised e). intros out.
    by rewrite run_bind, run_bind, (Hp h out), run_bind, (Hq h out), run_bind, Hmul.
  - right. exists (Raised TypeError). intros H Hsub Hpl.
    exists (<[fresh (dom H) := o]> H).
    split; [apply alloc_extends|]. split; [by apply plain_insert|]. intros out.
    destruct (py_iadd_number_constant total (VRef (fresh (dom H))) Htotal)
      as (r & Hadd & _).
    assert (r = Raised TypeError) as ->.
    { specialize (Hadd (World ∅ [])). revert Hadd.
      rewrite py_iadd_number_eq by done. destruct Htotal as [t Ht].
      unfold py_add. rewrite Ht. cbn [as_num]. destruct total; try discriminate;
        by intros [= <-]. }
    by rewrite run_bind, run_bind, (Hp H out Hsub), run_bind, (Hq H out Hsub),
         run_bind, (Hmul H out Hsub), Hadd.
Qed.

Lemma calculate_total_a_reruns items h :
  plain h -> reruns (calculate_total_a items) h.
Proof.
  intros Hh. unfold calculate_total_a.
  destruct (py_iter_cases items h) as [[xs Hxs] | [e He]];
    [|left; exists (Raised e); intros out; by rewrite run_bind, He].
  destruct (total_loop_reruns xs (VInt 0) h Hh ltac:(by eexists))
    as [[r Hloop] | [r Hloop]].
  - left. exists r. intros out.
    rewrite run_bind, (Hxs h out), bind_ret_r by done. apply Hloop.
  - right. exists r. intros H Hsub Hpl.
    destruct (Hloop H Hsub Hpl) as (H' & Hsub' & Hpl' & Hrun).
    exists H'. split; [done|]. split; [done|]. intros out.
    by rewrite run_bind, (Hxs H out Hsub), bind_ret_r.
Qed.

Lemma calculate_total_b_reruns items h :
  plain h -> reruns (calculate_total_b items) h.
Proof.
  intros Hh. unfold calculate_total_b.
  destruct (py_iter_cases items h) as [[xs Hxs] | [e He]];
    [|left; exists (Raised e); intros out; by rewrite run_bind, He].
  destruct (total_loop_reruns xs (VInt 0) h Hh ltac:(by eexists))
    as [[r Hloop] | [r Hloop]].
  - left. exists r. intros out.
    rewrite run_bind, (Hxs h out), bind_ret_r by done. apply Hloop.
  - right. exists r. intros H Hsub Hpl.
    destruct (Hloop H Hsub Hpl) as (H' & Hsub' & Hpl' & Hrun).
    exists H'. split; [done|]. split; [done|]. intros out.
    by rewrite run_bind, (Hxs H out Hsub), bind_ret_r.
Qed.

(** The other functions create nothing. *)
Lemma constant_py_mul_float a f : constant (py_mul a (VFloat f)).
Proof.
  unfold py_mul. destruct (as_num a) as [x|] eqn:Ha; [apply constant_lift|].
  destruct a; try discriminate; apply constant_raise.
Qed.

Lemma constant_calculate_discount price : constant (calculate_discount price).
Proof.
  unfold calculate_discount.
  apply constant_bind; [apply constant_py_gt_int|]. intros [];
    [apply constant_py_mul_float|].
  apply constant_bind; [apply constant_py_gt_int|]. intros [];
    apply constant_py_mul_float.
Qed.

Lemma constant_method name body self :
  getattr name = Some body -> constant (body self).
Proof. intros Hget. exists (Returned VNone). intros w. by apply getattr_pass with name. Qed.

Lemma process_order_heap
    (order_id customer_name email phone address city state zip_code
     items payment_method shipping_method : value) (w w' : world) r :
  plain (heap w) ->
  run (process_order order_id customer_name email phone address city state
         zip_code items payment_method shipping_method) w = (r, w') ->
  heap w' = heap w.
Proof.
  intros Hw. unfold process_order.
  rewrite (run_bind_returned (print _) _ w tt
             (World (heap w) (stdout w ++ ["Processing order..."%string])) eq_refl).
  destruct (process_order_body_reads_only order_id customer_name email phone
              address items (World (heap w) (stdout w ++ ["Processing order..."%string])))
    as (r1 & n & h' & Hrun & Hh').
  rewrite run_bind, Hrun. simpl in Hh'. rewrite (Hh' Hw).
  destruct r1 as [[]|e]; by intros [= _ <-].
Qed.

(** What two runs in a row give, from what one run gives. *)
Lemma constant_twice {A} (c : M A) h :
  constant c ->
  exists r, forall printed, run c (World h printed) = (r, World h (printed ++ [])).
Proof. intros [r Hr]. exists r. intros printed. by rewrite app_nil_r. Qed.

Lemma reruns_twice {A} (c : M A) h :
  plain h -> reruns c h ->
  exists r h',
    h ⊆ h' /\ plain h' /\
    (forall printed, run c (World h printed) = (r, World h' (printed ++ []))) /\
    (forall printed, exists h'',
       h' ⊆ h'' /\ run c (World h' printed) = (r, World h'' (printed ++ []))).
Proof.
  intros Hh [[r Hr] | [r Hr]].
  - exists r, h. split; [done|]. split; [done|].
    split; intros printed; rewrite app_nil_r; [done | by exists h].
  - destruct (Hr h ltac:(done) Hh) as (h' & Hsub & Hpl & Hrun).
    destruct (Hr h' Hsub Hpl) as (h'' & Hsub' & Hpl' & Hrun').
    exists r, h'. split; [done|]. split; [done|].
    split; intros printed; rewrite app_nil_r; [done | by exists h''].
Qed.

Lemma plain_sample_store : plain sample_store.
Proof. apply map_Forall_to_list. vm_compute. repeat constructor. Qed.

(** ** C6: errors *)




(** ** C7: determinism and effects *)

(** C7, as amended. On a store without defaultdicts every function of
    the file is deterministic and has no effect but console output: two
    runs in a row on the same arguments give the same result and print
    the same lines, whatever the console showed before; every object of
    the store is still there unchanged afterwards (the store can only
    have gained new lists); the console only has lines appended. *)
Theorem module_functions_only_print
    (c : call) (m : M value) (h : gmap loc obj) :
  invoke c = Some m -> plain h ->
  exists (r : result value) (h' : gmap loc obj) (out : list string),
    h ⊆ h' /\ plain h' /\
    (forall printed : list string,
       run m (World h printed) = (r, World h' (printed ++ out))) /\
    (forall printed : list string, exists h'' : gmap loc obj,
       h' ⊆ h'' /\ run m (World h' printed) = (r, World h'' (printed ++ out))).
Proof.
  intros Hm Hh.
  assert (constant m -> exists r h' out,
            h ⊆ h' /\ plain h' /\
            (forall printed, run m (World h printed) = (r, World h' (printed ++ out))) /\
            (forall printed, exists h'',
               h' ⊆ h'' /\ run m (World h' printed) = (r, World h'' (printed ++ out))))
    as Hconst.
  { intros Hc. destruct (constant_twice m h Hc) as [r Hr].
    exists r, h, []. split; [done|]. split; [done|]. split; [done|].
    intros printed. by exists h. }
  assert (reruns m h -> exists r h' out,
            h ⊆ h' /\ plain h' /\
            (forall printed, run m (World h printed) = (r, World h' (printed ++ out))) /\
            (forall printed, exists h'',
               h' ⊆ h'' /\ run m (World h' printed) = (r, World h'' (printed ++ out))))
    as Hreruns.
  { intros Hc. destruct (reruns_twice m h Hh Hc) as (r & h' & H1 & H2 & H3 & H4).
    by exists r, h', []. }
  destruct c; simpl in Hm.
  - injection Hm as <-. apply Hconst, constant_calculate_discount.
  - injection Hm as <-.
    destruct (frame_process_order order_id customer_name email phone address city
                state zip_code items payment_method shipping_method h Hh)
      as (r & h' & out & Hsub & Hpl & _ & Hrun).
    assert (h' = h) as ->.
    { exact (process_order_heap order_id customer_name email phone address city
               state zip_code items payment_method shipping_method
               (World h []) (World h' ([] ++ out)) r Hh (Hrun [])). }
    exists r, h, out. split; [done|]. split; [done|]. split; [done|].
    intros printed. by exists h.
  - injection Hm as <-. by apply Hreruns, calculate_total_a_reruns.
  - injection Hm as <-. by apply Hreruns, calculate_total_b_reruns.
  - injection Hm as <-. apply Hreruns, do_work_reruns.
  - destruct (getattr name) as [body|] eqn:Hget; [|discriminate].
    injection Hm as <-. by apply Hconst, constant_method with name.
Qed.

Lemma module_functions_only_print_witness :
  exists (r : result value) (h' : gmap loc obj) (out : list string),
    sample_store ⊆ h' /\ plain h' /\
    (forall printed : list string,
       run (calculate_total_a (VRef 14%positive)) (World sample_store printed) =
       (r, World h' (printed ++ out))) /\
    (forall printed : list string, exists h'' : gmap loc obj,
       h' ⊆ h'' /\
       run (calculate_total_a (VRef 14%positive)) (World h' printed) =
       (r, World h'' (printed ++ out))).
Proof.
  apply (module_functions_only_print (Call_calculate_total_a (VRef 14%positive))
           (calculate_total_a (VRef 14%positive)) sample_store).
  - reflexivity.
  - apply map_Forall_to_list. vm_compute. repeat constructor.
Defined.

(** C7 fails as stated: a function can change its argument.  The list
    below holds one [defaultdict(int)] without keys; [calculate_total_a]
    returns 0 on it, and the defaultdict has gained the keys ['price']
    and ['quantity']. *)
Lemma module_functions_only_print_counterexample :
  exists h' : gmap loc obj,
    run (calculate_total_a (VRef 1%positive)) (World defaulting_store []) =
      (Returned (VInt 0), World h' []) /\
    defaulting_store !! 1%positive = Some (OList [VRef 2%positive]) /\
    defaulting_store !! 2%positive = Some (ODefaultDict (VInt 0) []) /\
    h' !! 2%positive =
      Some (ODefaultDict (VInt 0)
              [(VStr "price", VInt 0); (VStr "quantity", VInt 0)]) /\
    ~ defaulting_store ⊆ h'.
Proof.
  eexists. split; [by vm_compute|]. split; [reflexivity|]. split; [reflexivity|].
  split; [reflexivity|].
  intros Hsub.
  assert (defaulting_store !! 2%positive = Some (ODefaultDict (VInt 0) [])) as Hl
    by reflexivity.
  pose proof (lookup_weaken _ _ _ _ Hl Hsub) as Hl'. discriminate Hl'.
Qed.
